(** * Three-way odds extraction and target matching

    A shallow embedding of the two scripts [odds_script.py] (best price per
    outcome across bookmakers, called aggregate mode below) and
    [odds_filter_script.py] (one record per bookmaker market, called
    per-bookmaker mode), together with the Python builtins they rely on.

    Layout: the Python builtins ([Py]), the JSON data of the odds API
    ([Api]), the two scripts ([OddsScript], [OddsFilterScript]), the
    vocabulary the properties are stated in ([Spec]), sample inputs
    ([Samples]), and then the lemmas and theorems. *)

From Stdlib Require Import ZArith NArith String Ascii Bool List Lia SpecFloat.
From stdpp Require Import base option list gmap strings sorting.

Local Open Scope string_scope.
Local Open Scope list_scope.

#[local] Set Warnings "-clear-no-such-hyp".

(** ** Python builtins *)

Module Py.
Local Open Scope Z_scope.

(** An expression either yields a value or raises an exception. *)
Inductive result (E A : Type) : Type :=
| Ok (a : A)
| Raise (e : E).
Arguments Ok {E A} a.
Arguments Raise {E A} e.

Definition bind {E A B} (m : result E A) (k : A -> result E B) : result E B :=
  match m with
  | Ok a => k a
  | Raise e => Raise e
  end.

(** A [for] loop whose body threads the loop state and may raise: the
    first exception leaves the loop. *)
Fixpoint for_each {E S A} (body : S -> A -> result E S) (xs : list A) (s : S)
  : result E S :=
  match xs with
  | [] => Ok s
  | x :: rest => bind (body s x) (for_each body rest)
  end.

(** *** Floats

    A Python [float] is an IEEE 754 binary64 number: [spec_float] at
    precision 53 and maximal exponent 1024, rounding to nearest even. *)

Definition prec : Z := 53.
Definition emax : Z := 1024.

Definition fsub : spec_float -> spec_float -> spec_float := SFsub prec emax.
Definition fmul : spec_float -> spec_float -> spec_float := SFmul prec emax.
Definition fabs : spec_float -> spec_float := SFabs.

(** [x <= y], [x < y], [x > y] and [x == y] on floats; every comparison
    with NaN is false. *)
Definition fle (x y : spec_float) : bool := SFleb x y.
Definition flt (x y : spec_float) : bool := SFltb x y.
Definition fgt (x y : spec_float) : bool :=
  match SFcompare x y with
  | Some Gt => true
  | _ => false
  end.
Definition feq (x y : spec_float) : bool := SFeqb x y.

Definition is_nan (x : spec_float) : bool :=
  match x with
  | S754_nan => true
  | _ => false
  end.

(** *** Strings

    A [str] is modelled as a [string] holding one Latin-1 code point per
    character; on those, [str.lower] moves A-Z and the accented capitals
    0xC0-0xDE (0xD7, the multiplication sign, apart) 32 places up. *)

Definition lower_char (c : ascii) : ascii :=
  let n := N_of_ascii c in
  if ((65 <=? n) && (n <=? 90))%N
     || ((192 <=? n) && (n <=? 222) && negb (n =? 215))%N
  then ascii_of_N (n + 32)
  else c.

Fixpoint lower (s : string) : string :=
  match s with
  | EmptyString => EmptyString
  | String c rest => String (lower_char c) (lower rest)
  end.

(** *** Objects decoded from JSON, and [float()] *)

Inductive object : Type :=
| PyNone
| PyBool (b : bool)
| PyInt (z : Z)
| PyFloat (f : spec_float)
| PyStr (s : string)
| PyList
| PyDict.

(** The exceptions the scripts' own statements can raise: [float()]
    raises the first three, a dictionary subscript the last. *)
Inductive exception : Type := TypeError | ValueError | OverflowError | KeyError.

(** [float(n)] for an [int]: the nearest float, ties to even, and
    [OverflowError] when that is out of range. *)
Definition float_of_int (z : Z) : result exception spec_float :=
  match binary_normalize prec emax z 0 false with
  | S754_infinity _ => Raise OverflowError
  | f => Ok f
  end.

(** [m * 10^e] rounded to the nearest float, ties to even; [neg] is the
    sign. The two early exits only keep the powers of ten small: above
    [2^1030] the result is infinity, below [2^-1080] it is zero. For a
    negative [e] the quotient is taken with 64 extra bits and a sticky
    last bit, so that the final rounding is the rounding of the exact
    value. *)
Definition round_decimal (neg : bool) (m : Z) (e : Z) : spec_float :=
  if m =? 0 then S754_zero neg
  else if (0 <=? e) && (1030 <? Z.log2 m + 3 * e) then S754_infinity neg
  else if (e <? 0) && (Z.log2 m + 1 + 3 * e <? -1080) then S754_zero neg
  else if 0 <=? e then
    binary_normalize prec emax (if neg then - (m * 10 ^ e) else m * 10 ^ e) 0 neg
  else
    let d := 10 ^ (- e) in
    let s := Z.log2 d + 64 in
    let q := Z.shiftl m s / d in
    let r := Z.shiftl m s mod d in
    let q' := if (r =? 0) || Z.odd q then q else q + 1 in
    binary_normalize prec emax (if neg then - q' else q') (- s) neg.

(** *** [float(str)]

    The text is scanned as CPython does: spaces beyond ASCII become a
    blank, underscores are dropped where they sit between two digits,
    blanks are stripped at both ends, and what remains is a decimal
    number with an optional exponent, or a signed [inf], [infinity] or
    [nan] in any letter case. [None] stands for [ValueError]. *)

Definition code (c : ascii) : Z := Z.of_N (N_of_ascii c).

Definition is_digit (c : ascii) : bool := (48 <=? code c) && (code c <=? 57).

Definition is_space (c : ascii) : bool :=
  ((9 <=? code c) && (code c <=? 13)) || (code c =? 32).

Definition to_ascii_space (c : ascii) : ascii :=
  if (code c =? 133) || (code c =? 160) then " "%char else c.

Definition tolower (c : ascii) : ascii :=
  if (65 <=? code c) && (code c <=? 90) then ascii_of_N (N_of_ascii c + 32) else c.

Fixpoint drop_underscores (prev : ascii) (s : list ascii) : option (list ascii) :=
  match s with
  | [] => if Ascii.eqb prev "_" then None else Some []
  | c :: rest =>
      if Ascii.eqb c "_" then
        if is_digit prev then drop_underscores c rest else None
      else if Ascii.eqb prev "_" && negb (is_digit c) then None
      else option_map (cons c) (drop_underscores c rest)
  end.

Fixpoint lstrip (s : list ascii) : list ascii :=
  match s with
  | c :: rest => if is_space c then lstrip rest else s
  | [] => []
  end.

Definition strip (s : list ascii) : list ascii := rev (lstrip (rev (lstrip s))).

Fixpoint read_digits (s : list ascii) (acc count : Z) : Z * Z * list ascii :=
  match s with
  | c :: rest =>
      if is_digit c then read_digits rest (10 * acc + (code c - 48)) (count + 1)
      else (acc, count, s)
  | [] => (acc, count, [])
  end.

Definition read_sign (s : list ascii) : bool * list ascii :=
  match s with
  | c :: rest =>
      if Ascii.eqb c "-" then (true, rest)
      else if Ascii.eqb c "+" then (false, rest)
      else (false, s)
  | [] => (false, [])
  end.

(** An exponent needs at least one digit; otherwise the [e] is left
    unread. *)
Definition read_exponent (s : list ascii) : Z * list ascii :=
  match s with
  | c :: rest =>
      if Ascii.eqb (tolower c) "e" then
        let (neg, s1) := read_sign rest in
        let '(v, n, s2) := read_digits s1 0 0 in
        if n =? 0 then (0, s) else (if neg then - v else v, s2)
      else (0, s)
  | [] => (0, [])
  end.

Definition read_number (s : list ascii) : option (spec_float * list ascii) :=
  let (neg, s1) := read_sign s in
  let '(ip, ni, s2) := read_digits s1 0 0 in
  let '(m, nf, s3) :=
    match s2 with
    | c :: rest => if Ascii.eqb c "." then read_digits rest ip 0 else (ip, 0, s2)
    | [] => (ip, 0, s2)
    end in
  if ni + nf =? 0 then None
  else
    let (ex, s4) := read_exponent s3 in
    Some (round_decimal neg m (ex - nf), s4).

Fixpoint read_word (w : list ascii) (s : list ascii) : option (list ascii) :=
  match w, s with
  | [], _ => Some s
  | a :: w', c :: rest => if Ascii.eqb (tolower c) a then read_word w' rest else None
  | _ :: _, [] => None
  end.

Definition read_inf_nan (s : list ascii) : option (spec_float * list ascii) :=
  let (neg, s1) := read_sign s in
  match read_word (list_ascii_of_string "inf") s1 with
  | Some s2 =>
      match read_word (list_ascii_of_string "inity") s2 with
      | Some s3 => Some (S754_infinity neg, s3)
      | None => Some (S754_infinity neg, s2)
      end
  | None =>
      match read_word (list_ascii_of_string "nan") s1 with
      | Some s2 => Some (S754_nan, s2)
      | None => None
      end
  end.

Definition float_of_str (s : string) : option spec_float :=
  match drop_underscores zero (map to_ascii_space (list_ascii_of_string s)) with
  | None => None
  | Some s1 =>
      match read_number (strip s1) with
      | Some (f, []) => Some f
      | Some (_, _ :: _) => None
      | None =>
          match read_inf_nan (strip s1) with
          | Some (f, []) => Some f
          | _ => None
          end
      end
  end.

(** [float(x)] *)
Definition float (x : object) : result exception spec_float :=
  match x with
  | PyFloat f => Ok f
  | PyInt z => float_of_int z
  | PyBool b => float_of_int (if b then 1 else 0)
  | PyStr s =>
      match float_of_str s with
      | Some f => Ok f
      | None => Raise ValueError
      end
  | PyNone | PyList | PyDict => Raise TypeError
  end.

(** *** Truth values and [or]

    [None] and the empty string are false; [x or y] is [x] when [x] is
    true and [y] otherwise. *)

Definition truthy (x : option string) : bool :=
  match x with
  | None => false
  | Some EmptyString => false
  | Some (String _ _) => true
  end.

Definition or_ (x y : option string) : option string :=
  if truthy x then x else y.

(** *** Dictionaries and lists *)

(** [d[k]] *)
Definition getitem {A} (d : gmap string A) (k : string) : result exception A :=
  match d !! k with
  | Some v => Ok v
  | None => Raise KeyError
  end.

(** [l[:n]] *)
Definition slice_to {A} (n : Z) (l : list A) : list A :=
  if n <? 0 then take (Z.to_nat (Z.of_nat (length l) + n)) l
  else take (Z.to_nat n) l.

(** [l.sort(key=..., reverse=True)], as CPython 3.11 sorts a list of
    fewer than 64 elements. [count_run] takes the run the list starts
    with: strictly descending when the second key is less than the first,
    and then reversed, non-descending otherwise. [binarysort] inserts each
    of the remaining elements into the run, at the place a binary search
    gives. With [reverse=True] the list is reversed before and after. The
    comparisons are the ones the builtin makes, so a key that is NaN takes
    part as it does there. A list of 64 elements or more is cut into runs
    that are merged; the outcome is the same as here whenever no key is
    NaN, which is where the lemmas on the order of longer lists apply. *)
Fixpoint descending_run {A} (key : A -> spec_float) (prev : A) (l run : list A)
  : list A * list A :=
  match l with
  | x :: rest =>
      if flt (key x) (key prev) then descending_run key x rest (x :: run) else (run, l)
  | [] => (run, [])
  end.

Fixpoint ascending_run {A} (key : A -> spec_float) (prev : A) (l : list A)
  : list A * list A :=
  match l with
  | x :: rest =>
      if flt (key x) (key prev) then ([], l)
      else let (run, tail) := ascending_run key x rest in (x :: run, tail)
  | [] => ([], [])
  end.

(** The run, in ascending order, and the rest of the list. *)
Definition count_run {A} (key : A -> spec_float) (l : list A) : list A * list A :=
  match l with
  | x0 :: x1 :: rest =>
      if flt (key x1) (key x0) then descending_run key x1 rest [x1; x0]
      else let (run, tail) := ascending_run key x1 rest in (x0 :: x1 :: run, tail)
  | _ => (l, [])
  end.

(** The binary search of [binarysort] between the positions [l] and [r]
    of the run; [fuel] bounds the number of halvings. *)
Fixpoint bisect {A} (key : A -> spec_float) (pivot : A) (run : list A)
    (fuel l r : nat) : nat :=
  match fuel with
  | O => l
  | S fuel =>
      let p := (l + (r - l) / 2)%nat in
      match run !! p with
      | Some y =>
          if flt (key pivot) (key y)
          then if (l <? p)%nat then bisect key pivot run fuel l p else l
          else if (S p <? r)%nat then bisect key pivot run fuel (S p) r else S p
      | None => l
      end
  end.

Definition binary_insert {A} (key : A -> spec_float) (pivot : A) (run : list A)
  : list A :=
  let k := bisect key pivot run (length run) 0 (length run) in
  take k run ++ pivot :: drop k run.

Definition binarysort {A} (key : A -> spec_float) (run rest : list A) : list A :=
  fold_left (fun run pivot => binary_insert key pivot run) rest run.

Definition sort_ascending {A} (key : A -> spec_float) (l : list A) : list A :=
  let (run, rest) := count_run key l in binarysort key run rest.

Definition sort_reverse {A} (key : A -> spec_float) (l : list A) : list A :=
  rev (sort_ascending key (rev l)).

End Py.

(** ** The data returned by the odds API *)

Module Api.

(** The records hold data of the shape the API documents: events,
    bookmakers, markets and outcomes are objects, their lists are lists,
    and an outcome name is text. A [dict.get] on an absent key gives
    [None]; the lists are empty when their key is absent, and an absent
    outcome name is the empty string. Data of another shape is not
    represented: a name or a list that is null, on which the scripts end
    with [AttributeError] or [TypeError], has no record here. *)
Record Outcome : Type := {
  o_name : string;
  o_price : Py.object;
  o_link : option string
}.

Record Market : Type := {
  m_key : option string;
  m_outcomes : list Outcome;
  m_link : option string
}.

(** [b_title] is [None] for a bookmaker without the key title, and
    [Some None] for one whose title is null. *)
Record Bookmaker : Type := {
  b_key : option string;
  b_title : option (option string);
  b_markets : list Market;
  b_link : option string
}.

Record Event : Type := {
  e_id : option string;
  e_sport_key : option string;
  e_commence_time : option string;
  e_home_team : option string;
  e_away_team : option string;
  e_bookmakers : list Bookmaker;
  e_link : option string
}.

(** What [requests] raises, with the text [str(e)] gives. *)
Inductive RequestException : Type := RequestError (text : string).

Definition text_of (e : RequestException) : string :=
  match e with RequestError t => t end.

(** The outcome of one [requests.get]: the call itself fails (no
    connection, timeout), or a response comes back with its status code,
    the text [raise_for_status] would raise with, and what [.json()]
    gives. *)
Inductive Reply : Type :=
| Failed (e : RequestException)
| Response (status_code : Z) (status_text : string)
           (json : Py.result RequestException (list Event)).

(** [response.raise_for_status()] *)
Definition raise_for_status (status_code : Z) (status_text : string)
  : Py.result RequestException unit :=
  if ((400 <=? status_code) && (status_code <? 600))%Z
  then Py.Raise (RequestError status_text)
  else Py.Ok tt.

Definition h2h (m : Market) : bool := bool_decide (m_key m = Some "h2h").

(** The letter e with an acute accent, code point 233. *)
Definition e_acute : string := String (ascii_of_nat 233) EmptyString.
Definition egalite : string := "egalit" +:+ e_acute.

End Api.

(** ** odds_script.py: the best price per outcome across bookmakers *)

Module OddsScript.
Import Py Api.

Definition fetch_odds (reply : Reply) : result RequestException (list Event) :=
  match reply with
  | Failed e => Raise e
  | Response status_code status_text json =>
      if (status_code =? 404)%Z then Ok []
      else bind (raise_for_status status_code status_text) (fun _ => json)
  end.

Definition draw_names : gset string := {[ "draw"; "tie"; "espn"; egalite ]}.

(** The [if]/[elif] chain that identifies the outcome type; [None] is the
    unknown label. *)
Definition outcome_key (home_team away_team : option string) (name : string)
  : option string :=
  if bool_decide (lower name ∈ draw_names) then Some "draw"
  else if bool_decide (Some name = home_team) then Some "home"
  else if bool_decide (Some name = away_team) then Some "away"
  else None.

(** The body of the loop over the outcomes of a market. *)
Definition scan_outcome (home_team away_team : option string)
    (best_odds : gmap string spec_float) (outcome : Outcome)
  : result exception (gmap string spec_float) :=
  match outcome_key home_team away_team (o_name outcome) with
  | None => Ok best_odds
  | Some key =>
      match float (o_price outcome) with
      | Raise TypeError | Raise ValueError => Ok best_odds
      | Raise e => Raise e
      | Ok price_val =>
          match best_odds !! key with
          | None => Ok (<[key := price_val]> best_odds)
          | Some best =>
              if fgt price_val best then Ok (<[key := price_val]> best_odds)
              else Ok best_odds
          end
      end
  end.

(** What [scan_outcome] does to the entry of a key when a price [p] of
    that key comes in: [p] is stored when the entry is empty or [p]
    compares greater. *)
Definition keep_greater (best : option spec_float) (p : spec_float)
  : option spec_float :=
  match best with
  | None => Some p
  | Some b => if fgt p b then Some p else Some b
  end.

Definition scan_market (home_team away_team : option string)
    (best_odds : gmap string spec_float) (market : Market)
  : result exception (gmap string spec_float) :=
  if h2h market
  then for_each (scan_outcome home_team away_team) (m_outcomes market) best_odds
  else Ok best_odds.

Definition scan_bookmaker (home_team away_team : option string)
    (best_odds : gmap string spec_float) (bookmaker : Bookmaker)
  : result exception (gmap string spec_float) :=
  for_each (scan_market home_team away_team) (b_markets bookmaker) best_odds.

Definition extract_three_way_odds (event : Event)
  : result exception (option (gmap string spec_float)) :=
  bind (for_each (scan_bookmaker (e_home_team event) (e_away_team event))
                 (e_bookmakers event) ∅)
       (fun best_odds =>
          Ok (if bool_decide (size best_odds = 3) then Some best_odds else None)).

(** One entry of the list [find_high_odds_events] returns. *)
Record Result : Type := {
  event_id : option string;
  sport_key : option string;
  commence_time : option string;
  home_team : option string;
  away_team : option string;
  best_odds : gmap string spec_float;
  combined_product : spec_float
}.

Definition make_result (event : Event) (odds : gmap string spec_float)
    (product : spec_float) : Result :=
  {| event_id := e_id event;
     sport_key := e_sport_key event;
     commence_time := e_commence_time event;
     home_team := e_home_team event;
     away_team := e_away_team event;
     best_odds := odds;
     combined_product := product |}.

(** [abs(x - target) <= tol] *)
Definition near (target tol x : spec_float) : bool :=
  fle (fabs (fsub x target)) tol.

(** [all(abs(odds[outcome] - target) <= tol for outcome in odds)]: the
    test has no effect, so the order the keys are met in does not count. *)
Definition all_near (target tol : spec_float) (odds : gmap string spec_float)
  : bool :=
  forallb (fun kv => near target tol kv.2) (map_to_list odds).

(** The body of the loop over the events of one sport. *)
Definition check_event (target tol : spec_float) (results : list Result)
    (event : Event) : result exception (list Result) :=
  bind (extract_three_way_odds event) (fun odds =>
    match odds with
    | None => Ok results
    | Some odds =>
        if all_near target tol odds then
          bind (getitem odds "home") (fun h =>
          bind (getitem odds "draw") (fun d =>
          bind (getitem odds "away") (fun a =>
            Ok (results ++ [make_result event odds (fmul (fmul h d) a)]))))
        else Ok results
    end).

(** [if max_events_per_sport: events = events[:max_events_per_sport]] *)
Definition limit (max_events_per_sport : option Z) (events : list Event)
  : list Event :=
  match max_events_per_sport with
  | None => events
  | Some n => if (n =? 0)%Z then events else slice_to n events
  end.

Definition skip_message (sport_key : string) (e : RequestException) : string :=
  "Skipping sport " +:+ sport_key +:+ " due to error: " +:+ text_of e.

(** The loop over the sport keys. Each key comes with the reply its
    request gets; [results] is the list built so far and [out] the lines
    printed so far. An exception of the event loop ends the run. *)
Fixpoint sports_loop (target tol : spec_float) (max_events_per_sport : option Z)
    (requests : list (string * Reply)) (results : list Result) (out : list string)
  : list string * result exception (list Result) :=
  match requests with
  | [] => (out, Ok results)
  | (sport_key, reply) :: rest =>
      match fetch_odds reply with
      | Raise e =>
          sports_loop target tol max_events_per_sport rest results
                      (out ++ [skip_message sport_key e])
      | Ok events =>
          match for_each (check_event target tol)
                         (limit max_events_per_sport events) results with
          | Ok results' =>
              sports_loop target tol max_events_per_sport rest results' out
          | Raise e => (out, Raise e)
          end
      end
  end.

Definition find_high_odds_events (requests : list (string * Reply))
    (target tol : spec_float) (max_events_per_sport : option Z)
  : list string * result exception (list Result) :=
  let (out, r) := sports_loop target tol max_events_per_sport requests [] [] in
  (out, bind r (fun results => Ok (sort_reverse combined_product results))).

End OddsScript.

(** ** odds_filter_script.py: one record per bookmaker market *)

Module OddsFilterScript.
Import Py Api.

Definition fetch_odds (reply : Reply) : result RequestException (list Event) :=
  match reply with
  | Failed e => Raise e
  | Response status_code status_text json =>
      if (status_code =? 404)%Z then Ok []
      else bind (raise_for_status status_code status_text) (fun _ => json)
  end.

Definition _deep_link (event : Event) (bookmaker : Bookmaker) (market : Market)
    (outcome : Outcome) : option string :=
  or_ (or_ (or_ (o_link outcome) (m_link market)) (b_link bookmaker)) (e_link event).

Definition draw_names : gset string := {[ "draw"; "tie"; egalite ]}.

Definition outcome_key (home_team away_team : option string) (name : string)
  : option string :=
  if bool_decide (lower name ∈ draw_names) then Some "draw"
  else if bool_decide (Some name = home_team) then Some "home"
  else if bool_decide (Some name = away_team) then Some "away"
  else None.

(** One element of the list [extract_bookmaker_odds] returns;
    [combined_product] is absent until the filter sets it. *)
Record Rec : Type := {
  event_id : option string;
  sport_key : option string;
  commence_time : option string;
  home_team : option string;
  away_team : option string;
  bookmaker : option string;
  bookmaker_title : option string;
  home_odds : spec_float;
  draw_odds : spec_float;
  away_odds : spec_float;
  home_link : option string;
  draw_link : option string;
  away_link : option string;
  combined_product : option spec_float
}.

(** The body of the loop over the outcomes of a market; the state is
    [odds_map] and [link_map]. *)
Definition scan_outcome (event : Event) (bookmaker : Bookmaker) (market : Market)
    (maps : gmap string spec_float * gmap string (option string))
    (outcome : Outcome)
  : result exception (gmap string spec_float * gmap string (option string)) :=
  match outcome_key (e_home_team event) (e_away_team event) (o_name outcome) with
  | None => Ok maps
  | Some key =>
      match float (o_price outcome) with
      | Raise TypeError | Raise ValueError => Ok maps
      | Raise e => Raise e
      | Ok price_val =>
          Ok (<[key := price_val]> maps.1,
              <[key := _deep_link event bookmaker market outcome]> maps.2)
      end
  end.

(** The body of the loop over the markets of a bookmaker. *)
Definition scan_market (event : Event) (bookmaker : Bookmaker)
    (results : list Rec) (market : Market) : result exception (list Rec) :=
  if h2h market then
    bind (for_each (scan_outcome event bookmaker market) (m_outcomes market) (∅, ∅))
      (fun maps =>
         if bool_decide (size maps.1 = 3) then
           bind (getitem maps.1 "home") (fun ho =>
           bind (getitem maps.1 "draw") (fun do =>
           bind (getitem maps.1 "away") (fun ao =>
           bind (getitem maps.2 "home") (fun hl =>
           bind (getitem maps.2 "draw") (fun dl =>
           bind (getitem maps.2 "away") (fun al =>
             Ok (results ++ [ {| event_id := e_id event;
                                 sport_key := e_sport_key event;
                                 commence_time := e_commence_time event;
                                 home_team := e_home_team event;
                                 away_team := e_away_team event;
                                 bookmaker := b_key bookmaker;
                                 bookmaker_title :=
                                   match b_title bookmaker with
                                   | Some title => title
                                   | None => b_key bookmaker
                                   end;
                                 home_odds := ho;
                                 draw_odds := do;
                                 away_odds := ao;
                                 home_link := hl;
                                 draw_link := dl;
                                 away_link := al;
                                 combined_product := None |} ])))))))
         else Ok results)
  else Ok results.

Definition scan_bookmaker (event : Event) (results : list Rec)
    (bookmaker : Bookmaker) : result exception (list Rec) :=
  for_each (scan_market event bookmaker) (b_markets bookmaker) results.

Definition extract_bookmaker_odds (event : Event) : result exception (list Rec) :=
  for_each (scan_bookmaker event) (e_bookmakers event) [].

(** [abs(x - target) <= tol] *)
Definition near (target tol x : spec_float) : bool :=
  fle (fabs (fsub x target)) tol.

Definition set_combined_product (rec : Rec) (p : spec_float) : Rec :=
  {| event_id := event_id rec;
     sport_key := sport_key rec;
     commence_time := commence_time rec;
     home_team := home_team rec;
     away_team := away_team rec;
     bookmaker := bookmaker rec;
     bookmaker_title := bookmaker_title rec;
     home_odds := home_odds rec;
     draw_odds := draw_odds rec;
     away_odds := away_odds rec;
     home_link := home_link rec;
     draw_link := draw_link rec;
     away_link := away_link rec;
     combined_product := Some p |}.

(** The body of the loop over the records of one event. *)
Definition check_record (target tol : spec_float) (records : list Rec) (rec : Rec)
  : list Rec :=
  if near target tol (home_odds rec)
     && near target tol (draw_odds rec)
     && near target tol (away_odds rec)
  then records ++ [set_combined_product rec
                     (fmul (fmul (home_odds rec) (draw_odds rec)) (away_odds rec))]
  else records.

(** The body of the loop over the events of one sport. *)
Definition check_event (target tol : spec_float) (records : list Rec)
    (event : Event) : result exception (list Rec) :=
  bind (extract_bookmaker_odds event) (fun recs =>
    Ok (fold_left (check_record target tol) recs records)).

Definition error_message (sport_key : string) (exc : RequestException) : string :=
  "Error fetching odds for " +:+ sport_key +:+ ": " +:+ text_of exc.

(** The loop over the sport keys, as in [OddsScript.sports_loop]. *)
Fixpoint sports_loop (target tol : spec_float)
    (requests : list (string * Reply)) (records : list Rec) (out : list string)
  : list string * result exception (list Rec) :=
  match requests with
  | [] => (out, Ok records)
  | (sport_key, reply) :: rest =>
      match fetch_odds reply with
      | Raise exc =>
          sports_loop target tol rest records (out ++ [error_message sport_key exc])
      | Ok events =>
          match for_each (check_event target tol) events records with
          | Ok records' => sports_loop target tol rest records' out
          | Raise e => (out, Raise e)
          end
      end
  end.

(** The column the frame is sorted on; a missing value reads as NaN. *)
Definition product_column (rec : Rec) : spec_float :=
  default S754_nan (combined_product rec).

(** [df.sort_values("combined_product", ascending=False)] with the
    defaults [kind='quicksort'] and [na_position='last']. What pandas
    documents of it is rendered, and no more: the rows are rearranged so
    that the products do not increase and NaN comes last. The sort itself,
    numpy's, is not rendered, and pandas does not document this sort kind
    as stable, so nothing is said about the order of rows with equal
    products. Every frame a run returns satisfies the relation; a frame
    that satisfies it need not be one a run returns. The relation
    therefore serves as a hypothesis: what is proved of all its frames
    holds of the frame of a run. *)
Definition follows (a b : Rec) : Prop :=
  is_nan (product_column b) = true
  ∨ fle (product_column b) (product_column a) = true.

Definition sort_values_descending (records df : list Rec) : Prop :=
  records ≡ₚ df ∧ StronglySorted follows df.

(** [find_events_with_target_odds] prints [out] and returns the frame
    [df]. *)
Definition find_events_with_target_odds (requests : list (string * Reply))
    (target tol : spec_float) (out : list string) (df : list Rec) : Prop :=
  ∃ records,
    sports_loop target tol requests [] [] = (out, Ok records)
    ∧ sort_values_descending records df.

End OddsFilterScript.

(** ** The vocabulary of the specification

    These definitions follow the wording of the specification, not the
    code; the theorems relate the two. *)

Module Spec.
Import Py Api.

Definition keys : list string := ["home"; "draw"; "away"].

(** The bookmakers' h2h markets of an event, in the order the data lists
    them, each with its bookmaker. *)
Definition h2h_markets (event : Event) : list (Bookmaker * Market) :=
  flat_map (fun b => map (pair b) (List.filter h2h (b_markets b)))
           (e_bookmakers event).

(** Every outcome of every h2h market of an event. *)
Definition h2h_outcomes (event : Event) : list Outcome :=
  flat_map (fun bm => m_outcomes bm.2) (h2h_markets event).

(** A numerically valid price is one [float()] converts. *)
Definition valid_price (o : Outcome) : option spec_float :=
  match float (o_price o) with
  | Ok v => Some v
  | Raise _ => None
  end.

(** The price is an integer too large for a float. *)
Definition overflows (o : Outcome) : Prop :=
  ∃ z, o_price o = PyInt z ∧ float_of_int z = Raise OverflowError.

(** The outcomes a classification [classify] labels [key] and whose price
    is valid, and their prices. *)
Definition counts (classify : string -> option string) (key : string)
    (o : Outcome) : bool :=
  bool_decide (classify (o_name o) = Some key)
  && bool_decide (is_Some (valid_price o)).

Definition prices (classify : string -> option string) (key : string)
    (outcomes : list Outcome) : list spec_float :=
  omap valid_price (List.filter (counts classify key) outcomes).

(** [key] is matched in [outcomes]. *)
Definition matched (classify : string -> option string) (key : string)
    (outcomes : list Outcome) : Prop :=
  ∃ o, o ∈ outcomes ∧ counts classify key o = true.

(** All three classifications are matched. *)
Definition complete (classify : string -> option string)
    (outcomes : list Outcome) : bool :=
  forallb (fun key => existsb (counts classify key) outcomes) keys.

(** The last outcome, in market order, that counts for [key]. *)
Definition last_counted (classify : string -> option string) (key : string)
    (outcomes : list Outcome) : option Outcome :=
  last (List.filter (counts classify key) outcomes).

(** The record [rec] stems from the market [bm.2] of the bookmaker
    [bm.1]: for each key it carries the price and the deep link of the
    last outcome of that market that counts for the key. *)
Definition from_market (event : Event) (bm : Bookmaker * Market)
    (rec : OddsFilterScript.Rec) : Prop :=
  let classify :=
    OddsFilterScript.outcome_key (e_home_team event) (e_away_team event) in
  let carries key odds link :=
    ∃ o, last_counted classify key (m_outcomes bm.2) = Some o
         ∧ valid_price o = Some odds
         ∧ link = OddsFilterScript._deep_link event bm.1 bm.2 o in
  OddsFilterScript.bookmaker rec = b_key bm.1
  ∧ OddsFilterScript.combined_product rec = None
  ∧ carries "home" (OddsFilterScript.home_odds rec) (OddsFilterScript.home_link rec)
  ∧ carries "draw" (OddsFilterScript.draw_odds rec) (OddsFilterScript.draw_link rec)
  ∧ carries "away" (OddsFilterScript.away_odds rec) (OddsFilterScript.away_link rec).

(** [v] is a greatest element of [l]. *)
Definition is_maximum (v : spec_float) (l : list spec_float) : Prop :=
  v ∈ l ∧ ∀ p, p ∈ l → fle p v = true.

(** The events a run obtains from the replies to its requests. *)
Definition fetched (fetch : Reply -> result RequestException (list Event))
    (requests : list (string * Reply)) : list (list Event) :=
  map (fun req => match fetch req.2 with Ok events => events | Raise _ => [] end)
      requests.

(** The events a run of the aggregate script goes through. *)
Definition aggregate_events (max_events_per_sport : option Z)
    (requests : list (string * Reply)) : list Event :=
  concat (fetched (fun reply => bind (OddsScript.fetch_odds reply)
                     (fun events => Ok (OddsScript.limit max_events_per_sport events)))
                  requests).

(** The events a run of the per-bookmaker script goes through. *)
Definition per_bookmaker_events (requests : list (string * Reply)) : list Event :=
  concat (fetched OddsFilterScript.fetch_odds requests).

(** All three prices lie within the tolerance of the target. *)
Definition all_three_near (target tol home draw away : spec_float) : Prop :=
  fle (fabs (fsub home target)) tol = true
  ∧ fle (fabs (fsub draw target)) tol = true
  ∧ fle (fabs (fsub away target)) tol = true.

(** [r] is the entry the aggregate script makes of [event]: the
    extraction gives the three prices, they are near the target, and the
    entry holds them with their product. *)
Definition aggregate_entry (target tol : spec_float) (event : Event)
    (r : OddsScript.Result) : Prop :=
  ∃ odds h d a,
    OddsScript.extract_three_way_odds event = Ok (Some odds)
    ∧ odds !! "home" = Some h ∧ odds !! "draw" = Some d ∧ odds !! "away" = Some a
    ∧ all_three_near target tol h d a
    ∧ r = OddsScript.make_result event odds (fmul (fmul h d) a).

(** The product of the three prices of a record. *)
Definition product_of (rec : OddsFilterScript.Rec) : spec_float :=
  fmul (fmul (OddsFilterScript.home_odds rec) (OddsFilterScript.draw_odds rec))
       (OddsFilterScript.away_odds rec).

(** [r] is the row the per-bookmaker script makes of a record of
    [event]: the record's three prices are near the target, and the row
    is the record with its product. *)
Definition bookmaker_row (target tol : spec_float) (event : Event)
    (r : OddsFilterScript.Rec) : Prop :=
  ∃ recs rec,
    OddsFilterScript.extract_bookmaker_odds event = Ok recs
    ∧ rec ∈ recs
    ∧ all_three_near target tol (OddsFilterScript.home_odds rec)
        (OddsFilterScript.draw_odds rec) (OddsFilterScript.away_odds rec)
    ∧ r = OddsFilterScript.set_combined_product rec (product_of rec).

(** The stable sort the specification refers to: each element is put
    behind the elements whose key is not greater. *)
Fixpoint insort {A} (key : A -> spec_float) (x : A) (l : list A) : list A :=
  match l with
  | [] => [x]
  | y :: rest => if flt (key x) (key y) then x :: l else y :: insort key x rest
  end.

Definition stable_sort {A} (key : A -> spec_float) (l : list A) : list A :=
  fold_left (fun acc x => insort key x acc) l [].

(** Rows with the same product: [x == k]. *)
Definition same_product {A} (key : A -> spec_float) (k : spec_float) (x : A)
  : bool :=
  feq (key x) k.

(** [out] is in non-increasing order of [key]. *)
Definition non_increasing {A} (key : A -> spec_float) (out : list A) : Prop :=
  StronglySorted (fun a b => fle (key b) (key a) = true) out.

(** Elements with equal keys appear in [out] in the order they have in
    [inp]. *)
Definition keeps_ties_in_order {A} (key : A -> spec_float) (inp out : list A)
  : Prop :=
  ∀ k, List.filter (same_product key k) out = List.filter (same_product key k) inp.

End Spec.

(** ** Sample data *)

Module Samples.
Import Py Api.

(** A JSON number written with the digits [s]. *)
Definition number (s : string) : object :=
  match float_of_str s with
  | Some f => PyFloat f
  | None => PyNone
  end.

Definition real (s : string) : spec_float :=
  default S754_nan (float_of_str s).

Definition outcome (name : string) (price : object) : Outcome :=
  {| o_name := name; o_price := price; o_link := None |}.

Definition market (outcomes : list Outcome) : Market :=
  {| m_key := Some "h2h"; m_outcomes := outcomes; m_link := None |}.

Definition bookie (key : string) (markets : list Market) : Bookmaker :=
  {| b_key := Some key; b_title := None; b_markets := markets; b_link := None |}.

Definition fixture (id : string) (bookmakers : list Bookmaker) : Event :=
  {| e_id := Some id;
     e_sport_key := Some "soccer_epl";
     e_commence_time := Some "2025-01-04T15:00:00Z";
     e_home_team := Some "Arsenal";
     e_away_team := Some "Chelsea";
     e_bookmakers := bookmakers;
     e_link := None |}.

Definition three_way (home draw away : string) : Market :=
  market [outcome "Arsenal" (number home);
          outcome "Draw" (number draw);
          outcome "Chelsea" (number away)].

(** Prices 2.5, 3.4 and 3.0 lie within 0.6 of 3.0; with 2.0 at home the
    event does not. *)
Definition event_near : Event := fixture "e1" [bookie "unibet" [three_way "2.5" "3.4" "3.0"]].
Definition event_far : Event := fixture "e2" [bookie "unibet" [three_way "2.0" "3.4" "3.0"]].

Definition target : spec_float := real "3.0".
Definition tol : spec_float := real "0.6".

Definition requests : list (string * Reply) :=
  [("soccer_epl", Response 200 "OK" (Ok [event_near; event_far]));
   ("soccer_spain_la_liga", Failed (RequestError "Read timed out."));
   ("soccer_italy_serie_a", Response 404 "404 Client Error" (Raise (RequestError "no JSON")));
   ("soccer_france_ligue_one", Response 200 "OK" (Ok [event_near]))].

(** What the two scripts extract from [event_near]. *)
Definition odds_near : gmap string spec_float :=
  {[ "home" := real "2.5"; "draw" := real "3.4"; "away" := real "3.0" ]}.

Definition record_near : OddsFilterScript.Rec :=
  {| OddsFilterScript.event_id := Some "e1";
     OddsFilterScript.sport_key := Some "soccer_epl";
     OddsFilterScript.commence_time := Some "2025-01-04T15:00:00Z";
     OddsFilterScript.home_team := Some "Arsenal";
     OddsFilterScript.away_team := Some "Chelsea";
     OddsFilterScript.bookmaker := Some "unibet";
     OddsFilterScript.bookmaker_title := Some "unibet";
     OddsFilterScript.home_odds := real "2.5";
     OddsFilterScript.draw_odds := real "3.4";
     OddsFilterScript.away_odds := real "3.0";
     OddsFilterScript.home_link := None;
     OddsFilterScript.draw_link := None;
     OddsFilterScript.away_link := None;
     OddsFilterScript.combined_product := None |}.

Definition row_near : OddsFilterScript.Rec :=
  OddsFilterScript.set_combined_product record_near (Spec.product_of record_near).

(** Two bookmakers quote the same prices for one event. *)
Definition event_tie : Event :=
  fixture "e3" [bookie "unibet" [three_way "2.5" "3.4" "3.0"];
                bookie "betfair" [three_way "2.5" "3.4" "3.0"]].

Definition tie_requests : list (string * Reply) :=
  [("soccer_epl", Response 200 "OK" (Ok [event_tie]))].

(** The first home price is NaN, the second is 2.0. *)
Definition event_nan : Event :=
  fixture "e4"
    [bookie "unibet" [market [outcome "Arsenal" (PyStr "nan");
                              outcome "Arsenal" (number "2.0");
                              outcome "Draw" (number "3.4");
                              outcome "Chelsea" (number "3.0")]]].

Definition odds_nan : gmap string spec_float :=
  {[ "home" := S754_nan; "draw" := real "3.4"; "away" := real "3.0" ]}.

(** Home and away prices only. *)
Definition event_no_draw : Event :=
  fixture "e5"
    [bookie "unibet" [market [outcome "Arsenal" (number "1.8");
                              outcome "Chelsea" (number "2.1")]]].

(** The draw price is an integer of 401 digits. *)
Definition event_huge : Event :=
  fixture "e6"
    [bookie "unibet" [market [outcome "Arsenal" (number "2.5");
                              outcome "Draw" (PyInt (10 ^ 400));
                              outcome "Chelsea" (number "3.0")]]].

Definition huge_requests : list (string * Reply) :=
  [("soccer_epl", Response 200 "OK" (Ok [event_huge; event_near]));
   ("soccer_france_ligue_one", Response 200 "OK" (Ok [event_near]))].

(** The draw price is null, or the text N/A. *)
Definition event_null : Event :=
  fixture "e7"
    [bookie "unibet" [market [outcome "Arsenal" (number "2.5");
                              outcome "Draw" PyNone;
                              outcome "Draw" (PyStr "N/A");
                              outcome "Draw" (number "3.4");
                              outcome "Chelsea" (number "3.0")]]].

(** One bookmaker lists the h2h market twice. *)
Definition event_twice : Event :=
  fixture "e8" [bookie "unibet" [three_way "2.5" "3.4" "3.0";
                                 three_way "2.6" "3.3" "2.9"]].

(** The home team is quoted twice in one market, 2.9 and then 2.5, the
    second time with a link of its own. *)
Definition market_repeated : Market :=
  {| m_key := Some "h2h";
     m_outcomes := [ {| o_name := "Arsenal"; o_price := number "2.9"; o_link := None |};
                     outcome "Draw" (number "3.4");
                     {| o_name := "Arsenal"; o_price := number "2.5";
                        o_link := Some "https://unibet.example/arsenal" |};
                     outcome "Chelsea" (number "3.0") ];
     m_link := Some "https://unibet.example/market" |}.

Definition bookie_repeated : Bookmaker := bookie "unibet" [market_repeated].
Definition event_repeated : Event := fixture "e9" [bookie_repeated].

Definition record_repeated : OddsFilterScript.Rec :=
  {| OddsFilterScript.event_id := Some "e9";
     OddsFilterScript.sport_key := Some "soccer_epl";
     OddsFilterScript.commence_time := Some "2025-01-04T15:00:00Z";
     OddsFilterScript.home_team := Some "Arsenal";
     OddsFilterScript.away_team := Some "Chelsea";
     OddsFilterScript.bookmaker := Some "unibet";
     OddsFilterScript.bookmaker_title := Some "unibet";
     OddsFilterScript.home_odds := real "2.5";
     OddsFilterScript.draw_odds := real "3.4";
     OddsFilterScript.away_odds := real "3.0";
     OddsFilterScript.home_link := Some "https://unibet.example/arsenal";
     OddsFilterScript.draw_link := Some "https://unibet.example/market";
     OddsFilterScript.away_link := Some "https://unibet.example/market";
     OddsFilterScript.combined_product := None |}.

(** Links: none on the outcome, the market and the bookmaker, and an
    empty text on the event. *)
Definition event_empty_link : Event :=
  {| e_id := Some "e10";
     e_sport_key := Some "soccer_epl";
     e_commence_time := Some "2025-01-04T15:00:00Z";
     e_home_team := Some "Arsenal";
     e_away_team := Some "Chelsea";
     e_bookmakers := [bookie "unibet" [three_way "2.5" "3.4" "3.0"]];
     e_link := Some "" |}.

Definition with_links (outcome_link market_link bookmaker_link event_link : option string)
  : Event * Bookmaker * Market * Outcome :=
  let o := {| o_name := "Arsenal"; o_price := number "2.5"; o_link := outcome_link |} in
  let m := {| m_key := Some "h2h"; m_outcomes := [o]; m_link := market_link |} in
  let b := {| b_key := Some "unibet"; b_title := Some (Some "Unibet"); b_markets := [m];
              b_link := bookmaker_link |} in
  let e := {| e_id := Some "e11";
              e_sport_key := Some "soccer_epl";
              e_commence_time := Some "2025-01-04T15:00:00Z";
              e_home_team := Some "Arsenal";
              e_away_team := Some "Chelsea";
              e_bookmakers := [b];
              e_link := event_link |} in
  (e, b, m, o).

Definition deep_link_of (x : Event * Bookmaker * Market * Outcome) : option string :=
  OddsFilterScript._deep_link x.1.1.1 x.1.1.2 x.1.2 x.2.

(** Two bookmakers with different prices; the best are 2.7, 3.4, 3.1. *)
Definition event_two_books : Event :=
  fixture "e12" [bookie "unibet" [three_way "2.5" "3.4" "3.0"];
                 bookie "betfair" [three_way "2.7" "3.2" "3.1"]].

Definition odds_best : gmap string spec_float :=
  {[ "home" := real "2.7"; "draw" := real "3.4"; "away" := real "3.1" ]}.

(** Prices infinity, 0 and 1, all within an infinite tolerance of 3.0;
    their product is NaN. *)
Definition event_inf : Event :=
  fixture "e13"
    [bookie "unibet" [market [outcome "Arsenal" (PyStr "inf");
                              outcome "Draw" (number "0");
                              outcome "Chelsea" (number "1")]]].

End Samples.

(** ** Text with accents

    The literals of this file are UTF-8; [of_utf8] gives the text they
    stand for, one code point per character, for code points up to 255. *)

Module Text.

Fixpoint of_utf8 (s : string) : string :=
  match s with
  | EmptyString => EmptyString
  | String c rest =>
      match rest with
      | String c' rest' =>
          if (N_of_ascii c =? 194)%N || (N_of_ascii c =? 195)%N
          then String (ascii_of_N ((N_of_ascii c - 192) * 64 + (N_of_ascii c' - 128)))
                      (of_utf8 rest')
          else String c (of_utf8 rest)
      | EmptyString => String c EmptyString
      end
  end.

Definition newline : string := String (ascii_of_nat 10) EmptyString.

End Text.

(** ** odds_script.py: the list of sports and the entry point *)

Module OddsScriptMain.
Import Py Api.

(** One entry of the list the sports endpoint returns; [s_key] is [None]
    when the entry has no key. *)
Record Sport : Type := {
  s_key : option string;
  s_group : option string
}.

Inductive SportsReply : Type :=
| SportsFailed (e : RequestException)
| SportsResponse (status_code : Z) (status_text : string)
                 (json : result RequestException (list Sport)).

(** What [fetch_sports] raises: an exception of [requests], or the
    [KeyError] of [s["key"]]. *)
Inductive SportsError : Type :=
| RequestFailed (e : RequestException)
| KeyMissing.

(** [str(e)] *)
Definition str (e : SportsError) : string :=
  match e with
  | RequestFailed r => text_of r
  | KeyMissing => "'key'"
  end.

(** [s["key"]] *)
Definition key_of (s : Sport) : result SportsError string :=
  match s_key s with
  | Some k => Ok k
  | None => Raise KeyMissing
  end.

(** [[s["key"] for s in sports]] *)
Fixpoint keys_of (sports : list Sport) : result SportsError (list string) :=
  match sports with
  | [] => Ok []
  | s :: rest => bind (key_of s) (fun k => bind (keys_of rest) (fun ks => Ok (k :: ks)))
  end.

Definition soccer (s : Sport) : bool := bool_decide (s_group s = Some "Soccer").

Definition fetch_sports (reply : SportsReply) (only_soccer : bool)
  : result SportsError (list string) :=
  match reply with
  | SportsFailed e => Raise (RequestFailed e)
  | SportsResponse status_code status_text json =>
      match raise_for_status status_code status_text with
      | Raise e => Raise (RequestFailed e)
      | Ok _ =>
          match json with
          | Raise e => Raise (RequestFailed e)
          | Ok sports =>
              if only_soccer then keys_of (List.filter soccer sports)
              else keys_of sports
          end
      end
  end.

(** The network as the entry point meets it: the reply of the sports
    endpoint, and the reply of the odds endpoint for each sport key. *)
Record World : Type := {
  sports_reply : SportsReply;
  odds_reply : string -> Reply
}.

(** How a run of the script ends: [SystemExit] with a status, the events
    it displays (the lines printed for each are not modelled), or an
    exception of the search. *)
Inductive Ending : Type :=
| Exit (status : Z)
| Displayed (events : list OddsScript.Result)
| Uncaught (e : exception).

Definition missing_key_message : string :=
  Text.of_utf8 "Aucune clé API trouvée. Veuillez créer un fichier .env à la racine du projet avec:"
  +:+ Text.newline +:+ "THE_ODDS_API_KEY=votre_cle_api".

(** The floats 3.0 and 0.6. *)
Definition target : spec_float := S754_finite false 6755399441055744 (-51).
Definition tol : spec_float := S754_finite false 5404319552844595 (-53).

(** The sport keys the search is run on. *)
Definition sample_sports (soccer_sports : list string) : list string :=
  match soccer_sports with
  | [] => ["soccer_epl"]
  | _ :: _ => slice_to 5 soccer_sports
  end.

(** The block under [if __name__ == "__main__"], for the API key the
    environment gives: the lines printed before the display, and how the
    run ends. *)
Definition main (api_key : option string) (world : World) : list string * Ending :=
  match api_key with
  | None => ([missing_key_message], Exit 1)
  | Some key =>
      if bool_decide (key = "") || bool_decide (key = "YOUR_API_KEY")
      then ([missing_key_message], Exit 1)
      else
        let (out, soccer_sports) :=
          match fetch_sports (sports_reply world) true with
          | Ok keys => ([], keys)
          | Raise e => (["Unable to fetch sports: " +:+ str e], [])
          end in
        let requests :=
          map (fun sport_key => (sport_key, odds_reply world sport_key))
              (sample_sports soccer_sports) in
        match OddsScript.find_high_odds_events requests target tol (Some 10%Z) with
        | (out', Ok events) => (out ++ out', Displayed (slice_to 10 events))
        | (out', Raise e) => (out ++ out', Uncaught e)
        end
  end.

End OddsScriptMain.

(** ** odds_filter_script.py: the entry point *)

Module OddsFilterScriptMain.
Import Py Api.

(** What [main] does, in order: a line printed, the frame printed, the
    frame written to a file. *)
Inductive Action : Type :=
| Print (text : string)
| PrintFrame (df : list OddsFilterScript.Rec)
| WriteCsv (path : string) (df : list OddsFilterScript.Rec).

Definition no_key_message : string :=
  Text.of_utf8 "Aucune clé API n'est configurée. Veuillez définir API_KEY dans le script.".

Definition no_sport_message : string :=
  Text.of_utf8 "Aucune clé de sport fournie. Spécifiez au moins un sport.".

Definition no_event_message : string :=
  Text.of_utf8 "Aucun événement correspondant aux critères n'a été trouvé.".

Definition saved_message : string :=
  Text.newline
  +:+ Text.of_utf8 "Les résultats ont été enregistrés dans le fichier 'filtered_odds.csv'.".

(** How a run of [main] ends: it returns, or the search raises. *)
Inductive Ending : Type :=
| Returned
| Raised (e : exception).

(** [main()] for the configuration [API_KEY], [SPORT_KEYS], [TARGET],
    [TOL] and the replies of the odds endpoint: the actions of a run, in
    the order they are done, and how the run ends. When the search
    raises, the actions are the lines it had printed. The frame is any
    frame [sort_values] may give. *)
Definition main (API_KEY : string) (SPORT_KEYS : list string)
    (TARGET TOL : spec_float) (odds_reply : string -> Reply)
    (actions : list Action) (ending : Ending) : Prop :=
  if bool_decide (API_KEY = "") then
    actions = [Print no_key_message] ∧ ending = Returned
  else if bool_decide (SPORT_KEYS = []) then
    actions = [Print no_sport_message] ∧ ending = Returned
  else
    match OddsFilterScript.sports_loop TARGET TOL
            (map (fun sport_key => (sport_key, odds_reply sport_key)) SPORT_KEYS)
            [] [] with
    | (out, Raise e) => actions = map Print out ∧ ending = Raised e
    | (out, Ok records) =>
        ∃ df,
          OddsFilterScript.sort_values_descending records df
          ∧ ending = Returned
          ∧ actions
            = map Print out
              ++ (match df with
                  | [] => [Print no_event_message]
                  | _ :: _ => [PrintFrame df; WriteCsv "filtered_odds.csv" df;
                               Print saved_message]
                  end)
    end.

End OddsFilterScriptMain.

(** ** Further vocabulary *)

Module Terms.
Import Py Api.

(** A float that is neither NaN nor infinite. *)
Definition finite (x : spec_float) : bool :=
  match x with
  | S754_zero _ | S754_finite _ _ _ => true
  | S754_infinity _ | S754_nan => false
  end.

Definition zero : spec_float := S754_zero false.

(** The requests of a run whose fetch raises, with the exception. *)
Definition failed_fetches (fetch : Reply -> result RequestException (list Event))
    (requests : list (string * Reply)) : list (string * RequestException) :=
  omap (fun req => match fetch req.2 with
                   | Raise e => Some (req.1, e)
                   | Ok _ => None
                   end) requests.

(** An outcome an extractor raises on: its name is classified and its
    price makes [float] raise something else than [TypeError] and
    [ValueError]. *)
Definition raises (classify : string -> option string) (o : Outcome) : bool :=
  bool_decide (is_Some (classify (o_name o)))
  && match float (o_price o) with
     | Ok _ | Raise TypeError | Raise ValueError => false
     | Raise _ => true
     end.

(** The event with other bookmakers. *)
Definition with_bookmakers (event : Event) (bookmakers : list Bookmaker) : Event :=
  {| e_id := e_id event;
     e_sport_key := e_sport_key event;
     e_commence_time := e_commence_time event;
     e_home_team := e_home_team event;
     e_away_team := e_away_team event;
     e_bookmakers := bookmakers;
     e_link := e_link event |}.

(** The bookmaker with other markets. *)
Definition with_markets (b : Bookmaker) (markets : list Market) : Bookmaker :=
  {| b_key := b_key b; b_title := b_title b; b_markets := markets; b_link := b_link b |}.

(** The market with other outcomes. *)
Definition with_outcomes (m : Market) (outcomes : list Outcome) : Market :=
  {| m_key := m_key m; m_outcomes := outcomes; m_link := m_link m |}.

(** The event without its markets other than h2h, and without the
    outcomes of its h2h markets that [keep] rejects. *)
Definition pruned (keep : Outcome -> bool) (event : Event) : Event :=
  with_bookmakers event
    (map (fun b =>
            with_markets b
              (map (fun m => with_outcomes m (List.filter keep (m_outcomes m)))
                   (List.filter h2h (b_markets b))))
         (e_bookmakers event)).

(** The three prices of an entry of the aggregate script, when it has
    them. *)
Definition entry_prices (r : OddsScript.Result) : option (spec_float * spec_float * spec_float) :=
  match OddsScript.best_odds r !! "home", OddsScript.best_odds r !! "draw",
        OddsScript.best_odds r !! "away" with
  | Some h, Some d, Some a => Some (h, d, a)
  | _, _, _ => None
  end.

(** An outcome an extractor reads: its name is classified and its price
    does not make [float] raise [TypeError] or [ValueError]. *)
Definition read (classify : string -> option string) (o : Outcome) : bool :=
  bool_decide (is_Some (classify (o_name o)))
  && match float (o_price o) with
     | Raise TypeError | Raise ValueError => false
     | Ok _ | Raise _ => true
     end.

(** The team is called ESPN, in any letter case. *)
Definition named_espn (team : option string) : bool :=
  match team with
  | Some name => bool_decide (lower name = "espn")
  | None => false
  end.

(** The price of the outcome, when [float] converts it, is not NaN. *)
Definition price_is_a_number (o : Outcome) : bool :=
  match Spec.valid_price o with
  | Some v => negb (is_nan v)
  | None => true
  end.

(** Two dictionaries with the same keys and, key by key, prices that
    compare equal with [==]. *)
Definition same_prices (odds odds' : gmap string spec_float) : Prop :=
  ∀ key, option_Forall2 (fun v v' => feq v v' = true) (odds !! key) (odds' !! key).

(** The sport keys the entry point of [odds_script.py] searches, and the
    requests it makes for them. *)
Definition main_sports (world : OddsScriptMain.World) : list string :=
  OddsScriptMain.sample_sports
    match OddsScriptMain.fetch_sports (OddsScriptMain.sports_reply world) true with
    | Ok keys => keys
    | Raise _ => []
    end.

Definition main_requests (world : OddsScriptMain.World) : list (string * Reply) :=
  map (fun sport_key => (sport_key, OddsScriptMain.odds_reply world sport_key))
      (main_sports world).

(** The key the environment gives is no key. *)
Definition no_key (api_key : option string) : Prop :=
  api_key = None ∨ api_key = Some "" ∨ api_key = Some "YOUR_API_KEY".

(** The requests of [odds_filter_script.py]. *)
Definition requests_for (sport_keys : list string) (odds_reply : string -> Reply)
  : list (string * Reply) :=
  map (fun sport_key => (sport_key, odds_reply sport_key)) sport_keys.

End Terms.

(** ** Sample replies *)

Module Cases.
Import Py Api.

(** A list of sports with two soccer leagues, and a tennis entry that
    lacks its key. *)
Definition sports : list OddsScriptMain.Sport :=
  [ {| OddsScriptMain.s_key := Some "americanfootball_nfl";
       OddsScriptMain.s_group := Some "American Football" |};
    {| OddsScriptMain.s_key := Some "soccer_epl";
       OddsScriptMain.s_group := Some "Soccer" |};
    {| OddsScriptMain.s_key := None;
       OddsScriptMain.s_group := Some "Tennis" |};
    {| OddsScriptMain.s_key := Some "soccer_spain_la_liga";
       OddsScriptMain.s_group := Some "Soccer" |} ].

Definition sports_reply : OddsScriptMain.SportsReply :=
  OddsScriptMain.SportsResponse 200 "OK" (Ok sports).

(** The odds endpoint answers for the Premier League and times out for
    every other key. *)
Definition odds_reply (sport_key : string) : Reply :=
  if bool_decide (sport_key = "soccer_epl")
  then Response 200 "OK" (Ok [Samples.event_two_books; Samples.event_far; Samples.event_near])
  else Failed (RequestError "Read timed out.").

Definition world : OddsScriptMain.World :=
  {| OddsScriptMain.sports_reply := sports_reply;
     OddsScriptMain.odds_reply := odds_reply |}.

(** The sports endpoint is down. *)
Definition world_without_sports : OddsScriptMain.World :=
  {| OddsScriptMain.sports_reply :=
       OddsScriptMain.SportsFailed (RequestError "Connection refused");
     OddsScriptMain.odds_reply := odds_reply |}.

(** The replies [odds_filter_script.py] gets: two events for the Premier
    League, a time-out for every other key. *)
Definition filter_reply (sport_key : string) : Reply :=
  if bool_decide (sport_key = "soccer_epl")
  then Response 200 "OK" (Ok [Samples.event_far; Samples.event_near])
  else Failed (RequestError "Read timed out.").

(** A bookmaker whose title is null. *)
Definition event_null_title : Event :=
  Samples.fixture "e22"
    [ {| b_key := Some "unibet"; b_title := Some None;
         b_markets := [Samples.three_way "2.5" "3.4" "3.0"]; b_link := None |} ].

Definition null_title_requests : list (string * Reply) :=
  [("soccer_epl", Response 200 "OK" (Ok [event_null_title]))].

Definition row_null_title : OddsFilterScript.Rec :=
  {| OddsFilterScript.event_id := Some "e22";
     OddsFilterScript.sport_key := Some "soccer_epl";
     OddsFilterScript.commence_time := Some "2025-01-04T15:00:00Z";
     OddsFilterScript.home_team := Some "Arsenal";
     OddsFilterScript.away_team := Some "Chelsea";
     OddsFilterScript.bookmaker := Some "unibet";
     OddsFilterScript.bookmaker_title := None;
     OddsFilterScript.home_odds := Samples.real "2.5";
     OddsFilterScript.draw_odds := Samples.real "3.4";
     OddsFilterScript.away_odds := Samples.real "3.0";
     OddsFilterScript.home_link := None;
     OddsFilterScript.draw_link := None;
     OddsFilterScript.away_link := None;
     OddsFilterScript.combined_product := Some (Samples.real "25.5") |}.

(** Events with the prices 1, 1, 1 and 2, 1, 1. With [Samples.event_inf],
    whose prices are infinity, 0 and 1, all three pass an infinite
    tolerance; their products are 1.0, 2.0 and NaN. *)
Definition event_ones : Event :=
  Samples.fixture "e20" [Samples.bookie "unibet" [Samples.three_way "1" "1" "1"]].

Definition event_twos : Event :=
  Samples.fixture "e21" [Samples.bookie "unibet" [Samples.three_way "2" "1" "1"]].

Definition infinity : spec_float := S754_infinity false.

Definition nan_requests : list (string * Reply) :=
  [("soccer_epl", Response 200 "OK" (Ok [event_ones; Samples.event_inf; event_twos]))].

Definition nan_first_requests : list (string * Reply) :=
  [("soccer_epl", Response 200 "OK" (Ok [Samples.event_inf; event_ones; event_twos]))].

(** The first home price is 2.0, the second is NaN. *)
Definition event_nan_second : Event :=
  Samples.fixture "e23"
    [Samples.bookie "unibet"
       [Samples.market [Samples.outcome "Arsenal" (Samples.number "2.0");
                        Samples.outcome "Arsenal" (PyStr "nan");
                        Samples.outcome "Draw" (Samples.number "3.4");
                        Samples.outcome "Chelsea" (Samples.number "3.0")]]].

End Cases.

(** * Lemmas and theorems *)

Import Py Api.

(** ** Loops *)

Section Loops.
Context {E S A : Type}.
Implicit Types (body : S -> A -> result E S) (xs : list A) (s : S).

Lemma bind_Ok {B C} (m : result E B) (k : B -> result E C) (c : C) :
  bind m k = Ok c ↔ ∃ b, m = Ok b ∧ k b = Ok c.
Proof.
  destruct m as [b|e]; simpl; split.
  - eauto.
  - by intros (? & [= <-] & ?).
  - done.
  - by intros (? & ? & ?).
Qed.

Lemma for_each_app body xs ys s :
  for_each body (xs ++ ys) s = bind (for_each body xs s) (for_each body ys).
Proof.
  revert s. induction xs as [|x xs IH]; intros s; simpl; [done|].
  destruct (body s x); simpl; auto.
Qed.

(** A loop whose body leaves the state alone on one element runs as if
    that element were not there. *)
Lemma for_each_skip body xs x ys s :
  (∀ s', body s' x = Ok s') →
  for_each body (xs ++ x :: ys) s = for_each body (xs ++ ys) s.
Proof.
  intros Hx. rewrite !for_each_app. destruct (for_each body xs s); simpl; [|done].
  by rewrite Hx.
Qed.

Lemma for_each_ext body body' xs s :
  (∀ s' x, x ∈ xs → body s' x = body' s' x) →
  for_each body xs s = for_each body' xs s.
Proof.
  revert s. induction xs as [|x xs IH]; intros s Hb; simpl; [done|].
  rewrite Hb by left. destruct (body' s x); simpl; [|done].
  apply IH. intros. apply Hb. by right.
Qed.

(** A loop raises what its body raises on one of the elements. *)
Lemma for_each_Raise body xs s e :
  for_each body xs s = Raise e → ∃ x s', x ∈ xs ∧ body s' x = Raise e.
Proof.
  revert s. induction xs as [|x xs IH]; intros s; simpl; [done|].
  destruct (body s x) as [s1|e1] eqn:Hx; simpl.
  - intros (x' & s' & Hin & Hr)%IH. exists x', s'. split; [by right|done].
  - intros [= <-]. exists x, s. split; [left|done].
Qed.

(** A loop whose body never raises is a fold. *)
Lemma for_each_total (f : S -> A -> S) xs s :
  for_each (fun s x => Ok (f s x)) xs s = (Ok (fold_left f xs s) : result E S).
Proof. revert s. induction xs as [|x xs IH]; intros s; simpl; auto. Qed.
End Loops.

(** A loop within a loop is one loop over the inner elements. *)
Lemma for_each_flat_map {E S A B} (inner : A -> list B)
    (step : S -> B -> result E S) (xs : list A) (s : S) :
  for_each (fun s x => for_each step (inner x) s) xs s
  = for_each step (flat_map inner xs) s.
Proof.
  revert s. induction xs as [|x xs IH]; intros s; [done|].
  cbn [for_each flat_map]. rewrite for_each_app.
  destruct (for_each step (inner x) s); simpl; auto.
Qed.

(** ** The order of floats

    [SFcompare] orders the floats other than NaN totally, with the two
    zeros equal. *)

Ltac compare_cases :=
  repeat match goal with
  | |- context [Z.compare ?a ?b] => destruct (Z.compare_spec a b)
  | |- context [Pos.compare_cont Eq ?a ?b] =>
      change (Pos.compare_cont Eq a b) with (Pos.compare a b);
      destruct (Pos.compare_spec a b)
  | H : context [Z.compare ?a ?b] |- _ => destruct (Z.compare_spec a b)
  | H : context [Pos.compare_cont Eq ?a ?b] |- _ =>
      change (Pos.compare_cont Eq a b) with (Pos.compare a b) in H;
      destruct (Pos.compare_spec a b)
  end.

Ltac float_cases x := destruct x as [[]|[]| |[] ? ?].

Ltac float_order :=
  unfold fle, flt, fgt, feq, SFleb, SFltb, SFeqb, SFcompare, is_nan in *;
  simpl in *; try done; compare_cases; simpl in *; try done; try lia.

Lemma fle_trans x y z : fle x y = true → fle y z = true → fle x z = true.
Proof. float_cases x; float_cases y; float_cases z; intros; float_order. Qed.

Lemma fle_total x y :
  is_nan x = false → is_nan y = false → fle x y = true ∨ fle y x = true.
Proof.
  float_cases x; float_cases y; intros; float_order; auto; try (left; lia).
Qed.

Lemma fle_not_nan x y : fle x y = true → is_nan x = false ∧ is_nan y = false.
Proof. float_cases x; float_cases y; intros; float_order. Qed.

Lemma fle_refl x : is_nan x = false → fle x x = true.
Proof. float_cases x; intros; float_order. Qed.

Lemma fgt_fle x y : fgt x y = true → fle y x = true.
Proof. float_cases x; float_cases y; intros; float_order. Qed.

Lemma not_fgt_fle x y :
  is_nan x = false → is_nan y = false → fgt x y = false → fle x y = true.
Proof. float_cases x; float_cases y; intros; float_order. Qed.

Lemma not_flt_fle x y :
  is_nan x = false → is_nan y = false → flt x y = false → fle y x = true.
Proof. float_cases x; float_cases y; intros; float_order. Qed.

Lemma flt_fle x y : flt x y = true → fle x y = true.
Proof. float_cases x; float_cases y; intros; float_order. Qed.

Lemma flt_not_fle x y : flt x y = true → fle y x = false.
Proof. float_cases x; float_cases y; intros; float_order. Qed.

Lemma feq_fle x y : feq x y = true ↔ fle x y = true ∧ fle y x = true.
Proof. float_cases x; float_cases y; split; intros; float_order; try (destruct H; float_order). Qed.

Lemma flt_fle_trans x y z : flt x y = true → fle y z = true → flt x z = true.
Proof. float_cases x; float_cases y; float_cases z; intros; float_order. Qed.

(** ** [list.sort] *)

Section Sorting.
Context {A : Type} (key : A -> spec_float).

Let ascending : relation A := fun a b => fle (key a) (key b) = true.
Let numbers : list A -> Prop := Forall (fun x => is_nan (key x) = false).
Let ties (k : spec_float) : list A -> list A := List.filter (Spec.same_product key k).

(** *** The stable sort of the specification *)

Lemma insort_Permutation x l : Spec.insort key x l ≡ₚ x :: l.
Proof.
  induction l as [|y l IH]; simpl; [done|].
  destruct (flt (key x) (key y)); [done|].
  rewrite IH. apply Permutation_swap.
Qed.

Lemma insort_sorted x l :
  is_nan (key x) = false → numbers l →
  StronglySorted ascending l → StronglySorted ascending (Spec.insort key x l).
Proof.
  intros Hx Hl Hs. induction Hs as [|y l Hs IH Hy]; simpl.
  { repeat constructor. }
  apply Forall_cons in Hl as [Hny Hl].
  destruct (flt (key x) (key y)) eqn:Hlt.
  - constructor; [by constructor|].
    apply flt_fle in Hlt. constructor; [done|].
    eapply Forall_impl; [exact Hy|]. intros z Hz. eapply fle_trans; eauto.
  - constructor; [auto|].
    rewrite insort_Permutation. constructor; [|done].
    by apply not_flt_fle.
Qed.

Lemma fold_insort_Permutation_any l acc :
  fold_left (fun acc x => Spec.insort key x acc) l acc ≡ₚ acc ++ l.
Proof.
  revert acc. induction l as [|x l IH]; intros acc; simpl; [by rewrite app_nil_r|].
  rewrite IH, insort_Permutation. simpl. apply Permutation_middle.
Qed.

(** Among equal keys the new element comes last. *)
Lemma insort_ties k x l :
  StronglySorted ascending l →
  ties k (Spec.insort key x l)
  = ties k l ++ (if Spec.same_product key k x then [x] else []).
Proof.
  intros Hs. induction Hs as [|y l Hs IH Hy]; [done|].
  cbn [Spec.insort]. destruct (flt (key x) (key y)) eqn:Hlt.
  - unfold ties. cbn [List.filter].
    destruct (Spec.same_product key k x) eqn:Hx; [|by rewrite app_nil_r].
    assert (∀ z, z ∈ y :: l → Spec.same_product key k z = false) as Hnone.
    { intros z Hz. destruct (Spec.same_product key k z) eqn:Hzk; [|done].
      unfold Spec.same_product in *. apply feq_fle in Hx as [Hxk Hkx].
      apply feq_fle in Hzk as [Hzk Hkz].
      assert (fle (key y) (key z) = true) as Hyz.
      { apply list_elem_of_In in Hz. destruct Hz as [<-|Hz].
        - apply fle_refl. apply flt_fle, fle_not_nan in Hlt. tauto.
        - rewrite Forall_forall in Hy. apply Hy. by apply list_elem_of_In. }
      apply flt_not_fle in Hlt.
      rewrite (fle_trans _ _ _ Hyz (fle_trans _ _ _ Hzk Hkx)) in Hlt. done. }
    rewrite (Hnone y) by left.
    replace (List.filter (Spec.same_product key k) l) with (@nil A); [done|].
    symmetry. clear -Hnone. induction l as [|z l IHl]; [done|].
    cbn [List.filter]. rewrite (Hnone z) by (right; left).
    apply IHl. intros w Hw. apply Hnone. inv Hw; [left|right; by right].
  - unfold ties in *. cbn [List.filter]. rewrite IH.
    by destruct (Spec.same_product key k y).
Qed.

Lemma fold_insort l acc :
  numbers l → numbers acc → StronglySorted ascending acc →
  let r := fold_left (fun acc x => Spec.insort key x acc) l acc in
  r ≡ₚ acc ++ l ∧ StronglySorted ascending r ∧ numbers r
  ∧ ∀ k, ties k r = ties k acc ++ ties k l.
Proof.
  revert acc. induction l as [|x l IH]; intros acc Hl Hacc Hs; simpl.
  { rewrite app_nil_r. repeat split; try done. intros k. by rewrite app_nil_r. }
  apply Forall_cons in Hl as [Hx Hl].
  destruct (IH (Spec.insort key x acc)) as (HP & HS & HN & HT);
    [done| |by apply insort_sorted|].
  { unfold numbers. rewrite insort_Permutation. by constructor. }
  repeat split; try done.
  - rewrite HP, insort_Permutation. simpl. apply Permutation_middle.
  - intros k. rewrite HT, insort_ties by done. rewrite <- app_assoc. f_equal.
    unfold ties. cbn [List.filter]. by destruct (Spec.same_product key k x).
Qed.

Lemma StronglySorted_rev (R : relation A) l :
  StronglySorted R l → StronglySorted (flip R) (rev l).
Proof.
  induction 1 as [|x l Hs IH Hx]; simpl; [constructor|].
  apply StronglySorted_app_2; [|done|repeat constructor].
  intros a b Ha Hb. apply list_elem_of_singleton in Hb as ->.
  rewrite Forall_forall in Hx. apply Hx.
  apply list_elem_of_In. apply in_rev. by apply list_elem_of_In.
Qed.

(** The element goes where the keys that are greater begin. *)
Lemma insort_split x run i :
  (∀ y, y ∈ take i run → flt (key x) (key y) = false) →
  (∀ y, y ∈ drop i run → flt (key x) (key y) = true) →
  Spec.insort key x run = take i run ++ x :: drop i run.
Proof.
  revert i. induction run as [|y run IH]; intros i Hle Hgt.
  { by destruct i. }
  destruct i as [|i]; simpl.
  - rewrite Hgt; [done|]. left.
  - rewrite Hle by left. f_equal. apply IH.
    + intros z Hz. apply Hle. by right.
    + exact Hgt.
Qed.

(** *** The builtin: whatever the keys, sorting rearranges *)

Lemma binary_insert_Permutation x run : binary_insert key x run ≡ₚ x :: run.
Proof.
  unfold binary_insert. rewrite <- Permutation_middle. by rewrite take_drop.
Qed.

Lemma binarysort_Permutation run rest : binarysort key run rest ≡ₚ run ++ rest.
Proof.
  unfold binarysort. revert run.
  induction rest as [|x rest IH]; intros run; simpl; [by rewrite app_nil_r|].
  rewrite IH, binary_insert_Permutation. simpl. apply Permutation_middle.
Qed.

Lemma descending_run_taken prev l run run' rest :
  descending_run key prev l (prev :: run) = (run', rest) →
  ∃ taken, l = taken ++ rest
           ∧ run' = fold_left (fun acc x => Spec.insort key x acc) taken (prev :: run).
Proof.
  revert prev run. induction l as [|x l IH]; intros prev run; simpl.
  { intros [= <- <-]. by exists []. }
  destruct (flt (key x) (key prev)) eqn:Hlt.
  - intros (taken & -> & ->)%IH. exists (x :: taken). split; [done|].
    simpl. by rewrite Hlt.
  - intros [= <- <-]. by exists [].
Qed.

Lemma ascending_run_taken prev l run rest : ascending_run key prev l = (run, rest) → l = run ++ rest.
Proof.
  revert prev run. induction l as [|x l IH]; intros prev run; simpl.
  { by intros [= <- <-]. }
  destruct (flt (key x) (key prev)); [by intros [= <- <-]|].
  destruct (ascending_run key x l) as [run1 tail] eqn:Hrun.
  intros [= <- <-]. simpl. f_equal. by eapply IH.
Qed.

Lemma count_run_Permutation l run rest : count_run key l = (run, rest) → run ++ rest ≡ₚ l.
Proof.
  destruct l as [|x0 [|x1 l]]; simpl; try by intros [= <- <-]; rewrite app_nil_r.
  destruct (flt (key x1) (key x0)).
  - intros (taken & -> & ->)%descending_run_taken.
    rewrite fold_insort_Permutation_any. rewrite <- app_assoc. simpl.
    rewrite (Permutation_swap x1 x0). done.
  - destruct (ascending_run key x1 l) as [run1 tail] eqn:Hrun.
    intros [= <- <-]. simpl. by rewrite <- (ascending_run_taken _ _ _ _ Hrun).
Qed.

Lemma sort_reverse_Permutation l : sort_reverse key l ≡ₚ l.
Proof.
  unfold sort_reverse, sort_ascending.
  destruct (count_run key (rev l)) as [run rest] eqn:Hrun.
  rewrite <- Permutation_rev, binarysort_Permutation, (count_run_Permutation _ _ _ Hrun).
  by rewrite <- Permutation_rev.
Qed.

(** *** The builtin on keys that are numbers: the stable sort *)

Lemma sorted_lookup run i j a b :
  StronglySorted ascending run → (i < j)%nat →
  run !! i = Some a → run !! j = Some b → fle (key a) (key b) = true.
Proof.
  intros Hs. revert i j. induction Hs as [|y run Hs IH Hy]; intros i j Hij; [done|].
  destruct j as [|j]; [lia|]. destruct i as [|i]; simpl.
  - intros [= <-] Hb. rewrite Forall_forall in Hy. apply Hy.
    by eapply list_elem_of_lookup_2.
  - apply IH. lia.
Qed.

(** The binary search ends where the greater keys begin. *)
Lemma bisect_spec x run :
  StronglySorted ascending run →
  ∀ fuel l r,
    (l < r)%nat → (r ≤ length run)%nat → (r - l ≤ fuel)%nat →
    (∀ i y, (i < l)%nat → run !! i = Some y → flt (key x) (key y) = false) →
    (∀ i y, (r ≤ i)%nat → run !! i = Some y → flt (key x) (key y) = true) →
    (∀ i y, (i < bisect key x run fuel l r)%nat → run !! i = Some y →
            flt (key x) (key y) = false)
    ∧ (∀ i y, (bisect key x run fuel l r ≤ i)%nat → run !! i = Some y →
              flt (key x) (key y) = true).
Proof.
  intros Hs. induction fuel as [|fuel IH]; intros l r Hlr Hr Hfuel Hlow Hhigh; [lia|].
  cbn [bisect].
  pose proof (Nat.div_mod_eq (r - l) 2) as Hdiv.
  pose proof (Nat.mod_upper_bound (r - l) 2) as Hmod.
  set (p := (l + (r - l) / 2)%nat) in *.
  assert (l ≤ p < r)%nat as [Hlp Hpr] by lia.
  destruct (lookup_lt_is_Some_2 run p) as [y Hy]; [lia|]. rewrite Hy.
  destruct (flt (key x) (key y)) eqn:Hxy.
  - assert (∀ i z, (p ≤ i)%nat → run !! i = Some z → flt (key x) (key z) = true)
      as Hhigh'.
    { intros i z Hi Hz. destruct (decide (i = p)) as [Heq|Hne]; [subst i; congruence|].
      eapply flt_fle_trans; [exact Hxy|].
      eapply (sorted_lookup run p i); [done|lia|done|done]. }
    destruct (l <? p)%nat eqn:Hcont.
    + apply Nat.ltb_lt in Hcont. apply IH; [done|lia|lia|done|done].
    + apply Nat.ltb_ge in Hcont. split; [done|].
      intros i z Hi. apply Hhigh'. lia.
  - assert (∀ i z, (i < S p)%nat → run !! i = Some z → flt (key x) (key z) = false)
      as Hlow'.
    { intros i z Hi Hz. destruct (decide (i = p)) as [Heq|Hne]; [subst i; congruence|].
      destruct (flt (key x) (key z)) eqn:Hxz; [|done].
      rewrite (flt_fle_trans _ _ _ Hxz) in Hxy; [done|].
      eapply (sorted_lookup run i p); [done|lia|done|done]. }
    destruct (S p <? r)%nat eqn:Hcont.
    + apply Nat.ltb_lt in Hcont. apply IH; [done|lia|lia|done|done].
    + apply Nat.ltb_ge in Hcont. split; [done|].
      intros i z Hi. apply Hhigh. lia.
Qed.

Lemma binary_insert_insort x run :
  StronglySorted ascending run → binary_insert key x run = Spec.insort key x run.
Proof.
  intros Hs. unfold binary_insert. symmetry.
  destruct run as [|y0 run0]; [done|]. set (run := y0 :: run0) in *.
  destruct (bisect_spec x run Hs (length run) 0 (length run)) as [Hlow Hhigh];
    [simpl; lia|done|lia|intros; lia|
     by intros i y Hi ?%lookup_lt_Some; lia|].
  apply insort_split.
  - intros y (i & Hy & Hi)%elem_of_take. by eapply Hlow.
  - intros y (i & Hy)%list_elem_of_lookup. rewrite lookup_drop in Hy.
    eapply Hhigh; [|done]. lia.
Qed.

Lemma binarysort_insort run rest :
  numbers run → numbers rest → StronglySorted ascending run →
  binarysort key run rest = fold_left (fun acc x => Spec.insort key x acc) rest run.
Proof.
  unfold binarysort. revert run.
  induction rest as [|x rest IH]; intros run Hrun Hrest Hs; [done|].
  apply Forall_cons in Hrest as [Hx Hrest]. simpl.
  rewrite binary_insert_insort by done. apply IH; [|done|by apply insort_sorted].
  unfold numbers. rewrite insort_Permutation. by constructor.
Qed.

(** A non-descending run is what the stable sort makes of it. *)
Lemma ascending_run_insort prev l run rest acc :
  ascending_run key prev l = (run, rest) →
  numbers l → is_nan (key prev) = false →
  Forall (fun y => fle (key y) (key prev) = true) acc →
  fold_left (fun acc x => Spec.insort key x acc) run acc = acc ++ run.
Proof.
  revert prev run acc. induction l as [|x l IH]; intros prev run acc; simpl.
  { intros [= <- <-] _ _ _. by rewrite app_nil_r. }
  destruct (flt (key x) (key prev)) eqn:Hlt.
  { intros [= <- <-] _ _ _. by rewrite app_nil_r. }
  destruct (ascending_run key x l) as [run1 tail] eqn:Hrun.
  intros [= <- <-] [Hx Hl]%Forall_cons Hprev Hacc. simpl.
  pose proof (not_flt_fle _ _ Hx Hprev Hlt) as Hle.
  assert (Spec.insort key x acc = acc ++ [x]) as ->.
  { rewrite (insort_split x acc (length acc)).
    - by rewrite take_ge, drop_ge by lia.
    - rewrite take_ge by lia. intros y Hy. rewrite Forall_forall in Hacc.
      destruct (flt (key x) (key y)) eqn:Hxy; [|done].
      apply flt_not_fle in Hxy. rewrite (fle_trans _ _ _ (Hacc y Hy) Hle) in Hxy. done.
    - rewrite drop_ge by lia. by intros y ?%elem_of_nil. }
  rewrite (IH x run1 (acc ++ [x]) Hrun Hl Hx), <- app_assoc; [done|].
  apply Forall_app. split.
  - eapply Forall_impl; [exact Hacc|]. intros y Hy. exact (fle_trans _ _ _ Hy Hle).
  - constructor; [by apply fle_refl|constructor].
Qed.

Lemma count_run_insort l run rest :
  numbers l → count_run key l = (run, rest) →
  ∃ taken, l = taken ++ rest
           ∧ run = fold_left (fun acc x => Spec.insort key x acc) taken [].
Proof.
  intros Hl. destruct l as [|x0 [|x1 l]]; simpl.
  - intros [= <- <-]. by exists [].
  - intros [= <- <-]. by exists [x0].
  - apply Forall_cons in Hl as [H0 [H1 Hl]%Forall_cons].
    destruct (flt (key x1) (key x0)) eqn:Hlt.
    + intros (taken & -> & ->)%descending_run_taken.
      exists (x0 :: x1 :: taken). split; [done|]. simpl. by rewrite Hlt.
    + destruct (ascending_run key x1 l) as [run1 tail] eqn:Hrun.
      intros [= <- <-]. exists (x0 :: x1 :: run1).
      split; [by rewrite (ascending_run_taken _ _ _ _ Hrun)|].
      simpl. rewrite Hlt.
      rewrite (ascending_run_insort x1 l run1 tail [x0; x1] Hrun Hl H1); [done|].
      repeat constructor; [by apply not_flt_fle|by apply fle_refl].
Qed.

Lemma sort_ascending_stable l :
  numbers l → sort_ascending key l = Spec.stable_sort key l.
Proof.
  intros Hl. unfold sort_ascending, Spec.stable_sort.
  destruct (count_run key l) as [run rest] eqn:Hrun.
  destruct (count_run_insort l run rest Hl Hrun) as (taken & -> & ->).
  apply Forall_app in Hl as [Htaken Hrest].
  destruct (fold_insort taken []) as (_ & Hs & Hn & _); [done|constructor|constructor|].
  rewrite binarysort_insort by done. by rewrite fold_left_app.
Qed.

(** What [l.sort(key=key, reverse=True)] achieves when no key is NaN. *)
Lemma sort_reverse_spec l :
  numbers l →
  sort_reverse key l ≡ₚ l
  ∧ Spec.non_increasing key (sort_reverse key l)
  ∧ Spec.keeps_ties_in_order key l (sort_reverse key l).
Proof.
  intros Hl. split; [apply sort_reverse_Permutation|].
  assert (numbers (rev l)) as Hrev.
  { unfold numbers in *. apply Forall_forall. intros x Hx.
    rewrite Forall_forall in Hl. apply Hl.
    apply list_elem_of_In, in_rev, list_elem_of_In, Hx. }
  unfold sort_reverse. rewrite sort_ascending_stable by done. unfold Spec.stable_sort.
  destruct (fold_insort (rev l) []) as (HP & HS & _ & HT); [done|constructor|constructor|].
  split.
  - by apply StronglySorted_rev in HS.
  - intros k. rewrite List.filter_rev. fold (ties k). rewrite HT. simpl.
    unfold ties. by rewrite List.filter_rev, rev_involutive.
Qed.
End Sorting.

(** ** Dictionaries keyed by home, draw and away *)

Lemma size_three {A} (m : gmap string A) :
  (∀ k, is_Some (m !! k) → k ∈ Spec.keys) →
  size m = 3 ↔ ∀ k, k ∈ Spec.keys → is_Some (m !! k).
Proof.
  intros Hkeys. set (K := list_to_set Spec.keys : gset string).
  assert (size K = 3) as HK by (by vm_compute).
  assert (dom m ⊆ K) as Hsub.
  { intros k Hk. apply elem_of_dom in Hk. apply elem_of_list_to_set. auto. }
  rewrite <- (size_dom (D := gset string)). split.
  - intros Hsize k Hk. apply elem_of_dom.
    rewrite (set_subseteq_size_eq (dom m) K); [by apply elem_of_list_to_set|done|lia].
  - intros Hall. rewrite (set_subseteq_size_eq (dom m) K); [done|done|].
    apply subseteq_size. intros k Hk. apply elem_of_dom, Hall.
    by apply elem_of_list_to_set in Hk.
Qed.

(** ** The prices of one classification *)

Section Prices.
Variable classify : string -> option string.

Lemma prices_cons key o outcomes :
  Spec.prices classify key (o :: outcomes)
  = (if Spec.counts classify key o then option_list (Spec.valid_price o) else [])
    ++ Spec.prices classify key outcomes.
Proof.
  unfold Spec.prices. cbn [List.filter].
  destruct (Spec.counts classify key o); [|done].
  cbn [omap list_omap]. by destruct (Spec.valid_price o).
Qed.

Lemma prices_app key xs ys :
  Spec.prices classify key (xs ++ ys)
  = Spec.prices classify key xs ++ Spec.prices classify key ys.
Proof. unfold Spec.prices. by rewrite List.filter_app, omap_app. Qed.

Lemma counts_valid key o :
  Spec.counts classify key o = true →
  classify (o_name o) = Some key ∧ ∃ v, float (o_price o) = Ok v.
Proof.
  unfold Spec.counts, Spec.valid_price. intros [H1 H2]%andb_prop.
  apply bool_decide_eq_true in H1, H2. split; [done|].
  destruct (float (o_price o)) as [v|e]; [eauto|by destruct H2].
Qed.

Lemma matched_prices key outcomes :
  Spec.matched classify key outcomes ↔ Spec.prices classify key outcomes ≠ [].
Proof.
  unfold Spec.matched. induction outcomes as [|o os IH]; simpl.
  - split; [intros (? & []%elem_of_nil & _)|done].
  - rewrite prices_cons. destruct (Spec.counts classify key o) eqn:Ho.
    + split; [|intros _; exists o; split; [left|done]].
      intros _. destruct (counts_valid _ _ Ho) as (_ & v & Hv).
      unfold Spec.valid_price. by rewrite Hv.
    + simpl. rewrite <- IH. split.
      * intros (o' & Hin & Hc). inv Hin; [congruence|eauto].
      * intros (o' & Hin & Hc). exists o'. split; [by right|done].
Qed.

Lemma complete_matched outcomes :
  Spec.complete classify outcomes = true
  ↔ ∀ key, key ∈ Spec.keys → Spec.matched classify key outcomes.
Proof.
  unfold Spec.complete, Spec.matched. rewrite forallb_forall. split.
  - intros H key Hkey. apply list_elem_of_In in Hkey.
    apply H, existsb_exists in Hkey as (o & Ho & Hc).
    exists o. split; [by apply list_elem_of_In|done].
  - intros H key Hkey. apply list_elem_of_In, H in Hkey as (o & Ho & Hc).
    apply existsb_exists. exists o. split; [by apply list_elem_of_In|done].
Qed.
End Prices.

(** ** Aggregate extraction ([odds_script.py]) *)

Section Aggregate.
Variables home_team away_team : option string.

Let classify : string -> option string :=
  OddsScript.outcome_key home_team away_team.

Lemma aggregate_key_known name key : classify name = Some key → key ∈ Spec.keys.
Proof.
  unfold classify, OddsScript.outcome_key, Spec.keys. intros Hk.
  destruct (bool_decide _); [|destruct (bool_decide _); [|destruct (bool_decide _)]];
    simplify_eq; set_solver.
Qed.

(** The loops over bookmakers and markets visit the h2h outcomes. *)
Lemma scan_markets_flat markets best :
  for_each (OddsScript.scan_market home_team away_team) markets best
  = for_each (OddsScript.scan_outcome home_team away_team)
             (flat_map m_outcomes (List.filter h2h markets)) best.
Proof.
  revert best. induction markets as [|m ms IH]; intros best; [done|].
  cbn [for_each List.filter]. unfold OddsScript.scan_market at 1.
  destruct (h2h m); simpl.
  - rewrite for_each_app.
    destruct (for_each _ (m_outcomes m) best); simpl; auto.
  - apply IH.
Qed.

Lemma h2h_outcomes_flat event :
  Spec.h2h_outcomes event
  = flat_map (fun b => flat_map m_outcomes (List.filter h2h (b_markets b)))
             (e_bookmakers event).
Proof.
  unfold Spec.h2h_outcomes, Spec.h2h_markets.
  induction (e_bookmakers event) as [|b bs IH]; [done|].
  cbn [flat_map]. rewrite flat_map_app, IH. f_equal.
  induction (List.filter h2h (b_markets b)) as [|m ms IHm]; [done|].
  simpl. by rewrite IHm.
Qed.

Lemma scan_bookmakers_flat event best :
  for_each (OddsScript.scan_bookmaker home_team away_team) (e_bookmakers event) best
  = for_each (OddsScript.scan_outcome home_team away_team)
             (Spec.h2h_outcomes event) best.
Proof.
  rewrite h2h_outcomes_flat, <- for_each_flat_map.
  apply for_each_ext. intros s b _. apply scan_markets_flat.
Qed.

(** One outcome, seen from one key. *)
Lemma scan_outcome_lookup best o best' key :
  OddsScript.scan_outcome home_team away_team best o = Ok best' →
  best' !! key
  = fold_left OddsScript.keep_greater (Spec.prices classify key [o]) (best !! key).
Proof.
  rewrite prices_cons. unfold Spec.counts, Spec.valid_price, OddsScript.scan_outcome.
  fold classify. destruct (classify (o_name o)) as [k0|] eqn:Hk; cycle 1.
  { intros [= <-]. by rewrite bool_decide_eq_false_2. }
  destruct (float (o_price o)) as [v|e] eqn:Hf; cycle 1.
  { rewrite andb_false_r. simpl. destruct e; by intros [= <-]. }
  rewrite (bool_decide_eq_true_2 (is_Some (Some v))) by eauto.
  rewrite andb_true_r. case_bool_decide as Hkey; simpl.
  - injection Hkey as ->. destruct (best !! key) as [b|] eqn:Hb; simpl.
    + destruct (fgt v b); intros [= <-]; [by rewrite lookup_insert_eq|done].
    + intros [= <-]. by rewrite lookup_insert_eq.
  - assert (k0 ≠ key) by congruence.
    destruct (best !! k0) as [b|]; [destruct (fgt v b)|]; intros [= <-];
      by rewrite ?lookup_insert_ne.
Qed.

(** All outcomes, seen from one key: the entry is what [keep_greater]
    makes of the prices of that key, in the order they come. *)
Lemma scan_outcomes_lookup outcomes best best' key :
  for_each (OddsScript.scan_outcome home_team away_team) outcomes best = Ok best' →
  best' !! key
  = fold_left OddsScript.keep_greater (Spec.prices classify key outcomes) (best !! key).
Proof.
  revert best. induction outcomes as [|o os IH]; intros best; simpl.
  { by intros [= <-]. }
  intros (best1 & H1 & H2)%bind_Ok.
  rewrite (IH _ H2), (scan_outcome_lookup _ _ _ key H1).
  rewrite <- fold_left_app. f_equal. by rewrite <- prices_app.
Qed.

Lemma keep_greater_Some l b : is_Some (fold_left OddsScript.keep_greater l (Some b)).
Proof.
  revert b. induction l as [|p l IH]; intros b; simpl; [eauto|].
  destruct (fgt p b); apply IH.
Qed.

Lemma keep_greater_None l :
  is_Some (fold_left OddsScript.keep_greater l None) ↔ l ≠ [].
Proof.
  destruct l as [|p l]; simpl.
  - split; [intros [? [=]]|done].
  - split; [done|intros _; apply keep_greater_Some].
Qed.

(** Starting from a price that is a number, [keep_greater] ends on a
    greatest one among the numbers it is given. *)
Lemma keep_greater_max l b :
  is_nan b = false →
  ∃ v, fold_left OddsScript.keep_greater l (Some b) = Some v
       ∧ v ∈ b :: l ∧ is_nan v = false ∧ fle b v = true
       ∧ ∀ p, p ∈ l → is_nan p = false → fle p v = true.
Proof.
  revert b. induction l as [|p l IH]; intros b Hb; simpl.
  { exists b. repeat split; [left|done|by apply fle_refl|by intros ? ?%elem_of_nil]. }
  destruct (fgt p b) eqn:Hgt.
  - pose proof (fgt_fle _ _ Hgt) as Hle.
    destruct (fle_not_nan _ _ Hle) as [_ Hp].
    destruct (IH p Hp) as (v & Hv & Hin & Hnan & Hpv & Hall).
    exists v. repeat split; [done|by right|done|by eapply fle_trans|].
    intros q Hq Hqn. inv Hq; auto.
  - destruct (IH b Hb) as (v & Hv & Hin & Hnan & Hbv & Hall).
    exists v. repeat split; [done| |done|done|].
    + inv Hin; [left|right; by right].
    + intros q Hq Hqn. inv Hq; [|auto].
      eapply fle_trans; [|exact Hbv]. by apply not_fgt_fle.
Qed.

Lemma scan_outcomes_dom outcomes best' :
  for_each (OddsScript.scan_outcome home_team away_team) outcomes ∅ = Ok best' →
  ∀ key, is_Some (best' !! key) ↔ Spec.matched classify key outcomes.
Proof.
  intros H key. rewrite (scan_outcomes_lookup _ _ _ key H), lookup_empty.
  by rewrite keep_greater_None, matched_prices.
Qed.

Lemma scan_outcomes_size outcomes best' :
  for_each (OddsScript.scan_outcome home_team away_team) outcomes ∅ = Ok best' →
  size best' = 3 ↔ Spec.complete classify outcomes = true.
Proof.
  intros H. rewrite complete_matched, size_three.
  - split; intros Hall key Hkey; by apply (scan_outcomes_dom _ _ H), Hall.
  - intros key (o & _ & Hc)%(scan_outcomes_dom _ _ H).
    apply counts_valid in Hc as [Hc _]. by eapply aggregate_key_known.
Qed.
End Aggregate.

(** The dictionary [extract_three_way_odds] builds. *)
Lemma extract_three_way_odds_loop event :
  OddsScript.extract_three_way_odds event
  = bind (for_each (OddsScript.scan_outcome (e_home_team event) (e_away_team event))
                   (Spec.h2h_outcomes event) ∅)
         (fun best_odds =>
            Ok (if bool_decide (size best_odds = 3) then Some best_odds else None)).
Proof.
  unfold OddsScript.extract_three_way_odds. by rewrite scan_bookmakers_flat.
Qed.

(** ** Extraction per bookmaker ([odds_filter_script.py]) *)

Section PerBookmaker.
Variable event : Event.

Let classify : string -> option string :=
  OddsFilterScript.outcome_key (e_home_team event) (e_away_team event).

Lemma per_bookmaker_key_known name key : classify name = Some key → key ∈ Spec.keys.
Proof.
  unfold classify, OddsFilterScript.outcome_key, Spec.keys. intros Hk.
  destruct (bool_decide _); [|destruct (bool_decide _); [|destruct (bool_decide _)]];
    simplify_eq; set_solver.
Qed.

(** One outcome, seen from one key: it overwrites both entries when it
    counts for the key and leaves them alone otherwise. *)
Lemma scan_outcome_maps bookmaker market maps o maps' key :
  OddsFilterScript.scan_outcome event bookmaker market maps o = Ok maps' →
  if Spec.counts classify key o
  then maps'.1 !! key = Spec.valid_price o
       ∧ maps'.2 !! key = Some (OddsFilterScript._deep_link event bookmaker market o)
  else maps'.1 !! key = maps.1 !! key ∧ maps'.2 !! key = maps.2 !! key.
Proof.
  unfold Spec.counts, Spec.valid_price, OddsFilterScript.scan_outcome.
  fold classify. destruct (classify (o_name o)) as [k0|] eqn:Hk; cycle 1.
  { intros [= <-]. by rewrite bool_decide_eq_false_2. }
  destruct (float (o_price o)) as [v|e] eqn:Hf; cycle 1.
  { rewrite andb_false_r. destruct e; by intros [= <-]. }
  rewrite (bool_decide_eq_true_2 (is_Some (Some v))) by eauto.
  rewrite andb_true_r. intros [= <-]. case_bool_decide as Hkey; simpl.
  - injection Hkey as ->. by rewrite !lookup_insert_eq.
  - assert (k0 ≠ key) by congruence. by rewrite !lookup_insert_ne.
Qed.

(** All outcomes of a market, seen from one key: the last one that
    counts decides. *)
Lemma scan_outcomes_maps bookmaker market outcomes maps maps' key :
  for_each (OddsFilterScript.scan_outcome event bookmaker market) outcomes maps
    = Ok maps' →
  match Spec.last_counted classify key outcomes with
  | Some o =>
      maps'.1 !! key = Spec.valid_price o
      ∧ maps'.2 !! key = Some (OddsFilterScript._deep_link event bookmaker market o)
  | None => maps'.1 !! key = maps.1 !! key ∧ maps'.2 !! key = maps.2 !! key
  end.
Proof.
  unfold Spec.last_counted.
  revert maps. induction outcomes as [|o os IH]; intros maps; simpl.
  { by intros [= <-]. }
  intros (maps1 & H1 & H2)%bind_Ok.
  specialize (IH _ H2). apply (scan_outcome_maps _ _ _ _ _ key) in H1.
  destruct (Spec.counts classify key o).
  - rewrite last_cons. destruct (last _); [done|].
    destruct IH as [-> ->]. done.
  - destruct (last _); [done|]. destruct IH as [-> ->]. done.
Qed.

Lemma last_counted_matched key outcomes :
  is_Some (Spec.last_counted classify key outcomes)
  ↔ Spec.matched classify key outcomes.
Proof.
  unfold Spec.last_counted, Spec.matched. split.
  - intros [o Ho]. apply last_Some_elem_of, list_elem_of_In, filter_In in Ho.
    exists o. by rewrite list_elem_of_In.
  - intros (o & Ho & Hc). destruct (last _) eqn:Hl; [eauto|].
    apply last_None in Hl. assert (In o []) as []. rewrite <- Hl.
    apply filter_In. by rewrite <- list_elem_of_In.
Qed.

Lemma last_counted_valid key outcomes o :
  Spec.last_counted classify key outcomes = Some o →
  ∃ v, Spec.valid_price o = Some v.
Proof.
  unfold Spec.last_counted.
  intros Ho. apply last_Some_elem_of, list_elem_of_In, filter_In in Ho as [_ Hc].
  apply counts_valid in Hc as (_ & v & Hv). exists v.
  unfold Spec.valid_price. by rewrite Hv.
Qed.

Lemma scan_outcomes_complete bookmaker market outcomes maps' :
  for_each (OddsFilterScript.scan_outcome event bookmaker market) outcomes (∅, ∅)
    = Ok maps' →
  size maps'.1 = 3 ↔ Spec.complete classify outcomes = true.
Proof.
  intros H.
  assert (∀ key, is_Some (maps'.1 !! key) ↔ Spec.matched classify key outcomes) as Hdom.
  { intros key. rewrite <- last_counted_matched.
    pose proof (scan_outcomes_maps _ _ _ _ _ key H) as Hk.
    destruct (Spec.last_counted classify key outcomes) as [o|] eqn:Hl.
    - destruct Hk as [-> _]. destruct (last_counted_valid _ _ _ Hl) as [v ->].
      split; eauto.
    - destruct Hk as [-> _]. simpl. rewrite lookup_empty. split; by intros []. }
  rewrite complete_matched, size_three.
  - split; intros Hall key Hkey; by apply Hdom, Hall.
  - intros key (o & _ & Hc)%Hdom.
    apply counts_valid in Hc as [Hc _]. by eapply per_bookmaker_key_known.
Qed.

(** After a market in which the three keys were stored, both dictionaries
    hold, for each key, what the last outcome that counts for it gave. *)
Lemma complete_maps_lookup bookmaker market outcomes maps :
  for_each (OddsFilterScript.scan_outcome event bookmaker market) outcomes (∅, ∅)
    = Ok maps →
  size maps.1 = 3 →
  ∀ key, key ∈ Spec.keys →
    ∃ o v, Spec.last_counted classify key outcomes = Some o
           ∧ Spec.valid_price o = Some v
           ∧ maps.1 !! key = Some v
           ∧ maps.2 !! key = Some (OddsFilterScript._deep_link event bookmaker market o).
Proof.
  intros Hloop Hsize key Hkey.
  apply (scan_outcomes_complete _ _ _ _ Hloop) in Hsize.
  pose proof (proj1 (complete_matched _ _) Hsize key Hkey) as Hm.
  apply last_counted_matched in Hm as [o Ho].
  pose proof (scan_outcomes_maps _ _ _ _ _ key Hloop) as Hk. rewrite Ho in Hk.
  destruct (last_counted_valid _ _ _ Ho) as [v Hv].
  exists o, v. destruct Hk as [-> ->]. by rewrite Hv.
Qed.

(** The subscripts that build the record do not raise. *)
Lemma scan_market_returns bookmaker market results maps :
  for_each (OddsFilterScript.scan_outcome event bookmaker market)
           (m_outcomes market) (∅, ∅) = Ok maps →
  ∃ results', OddsFilterScript.scan_market event bookmaker results market = Ok results'.
Proof.
  intros Hloop. unfold OddsFilterScript.scan_market.
  destruct (h2h market); [|eauto]. rewrite Hloop. simpl.
  case_bool_decide as Hsize; [|eauto].
  pose proof (complete_maps_lookup _ _ _ _ Hloop Hsize) as Hkeys.
  destruct (Hkeys "home") as (oh & vh & _ & _ & Hmh & Hlh);
    [unfold Spec.keys; repeat constructor|].
  destruct (Hkeys "draw") as (od & vd & _ & _ & Hmd & Hld);
    [unfold Spec.keys; repeat constructor|].
  destruct (Hkeys "away") as (oa & va & _ & _ & Hma & Hla);
    [unfold Spec.keys; repeat constructor|].
  unfold getitem. rewrite Hmh, Hmd, Hma, Hlh, Hld, Hla. simpl. eauto.
Qed.

(** One h2h market: a record is appended exactly when the market is
    complete, and it stems from that market. *)
Lemma scan_market_h2h bookmaker market results results' :
  h2h market = true →
  OddsFilterScript.scan_market event bookmaker results market = Ok results' →
  if Spec.complete classify (m_outcomes market)
  then ∃ rec, results' = results ++ [rec]
              ∧ Spec.from_market event (bookmaker, market) rec
  else results' = results.
Proof.
  intros Hh. unfold OddsFilterScript.scan_market. rewrite Hh.
  intros (maps & Hloop & Hrec)%bind_Ok.
  pose proof (scan_outcomes_complete _ _ _ _ Hloop) as Hsize.
  destruct (Spec.complete classify (m_outcomes market)) eqn:Hc.
  - pose proof (complete_maps_lookup _ _ _ _ Hloop (proj2 Hsize eq_refl)) as Hkeys.
    rewrite bool_decide_eq_true_2 in Hrec by by apply Hsize.
    destruct (Hkeys "home") as (oh & vh & Hoh & Hvh & Hmh & Hlh);
      [unfold Spec.keys; repeat constructor|].
    destruct (Hkeys "draw") as (od & vd & Hod & Hvd & Hmd & Hld);
      [unfold Spec.keys; repeat constructor|].
    destruct (Hkeys "away") as (oa & va & Hoa & Hva & Hma & Hla);
      [unfold Spec.keys; repeat constructor|].
    unfold getitem in Hrec. rewrite Hmh, Hmd, Hma, Hlh, Hld, Hla in Hrec.
    simpl in Hrec. injection Hrec as <-.
    eexists. split; [done|]. unfold Spec.from_market; simpl. fold classify.
    repeat split; eauto.
  - rewrite bool_decide_eq_false_2 in Hrec; [by injection Hrec|].
    intros Hs. apply Hsize in Hs. congruence.
Qed.

(** The loops over bookmakers and markets visit the h2h markets. *)
Lemma scan_markets_pairs bookmaker markets results :
  for_each (OddsFilterScript.scan_market event bookmaker) markets results
  = for_each (fun rs bm => OddsFilterScript.scan_market event bm.1 rs bm.2)
             (map (pair bookmaker) (List.filter h2h markets)) results.
Proof.
  revert results. induction markets as [|m ms IH]; intros results; [done|].
  cbn [for_each List.filter]. destruct (h2h m) eqn:Hm.
  - cbn [map for_each fst snd].
    destruct (OddsFilterScript.scan_market event bookmaker results m); simpl; auto.
  - unfold OddsFilterScript.scan_market at 1. rewrite Hm. simpl. apply IH.
Qed.

Lemma extract_bookmaker_odds_loop :
  OddsFilterScript.extract_bookmaker_odds event
  = for_each (fun rs bm => OddsFilterScript.scan_market event bm.1 rs bm.2)
             (Spec.h2h_markets event) [].
Proof.
  unfold OddsFilterScript.extract_bookmaker_odds, Spec.h2h_markets.
  rewrite <- for_each_flat_map. apply for_each_ext.
  intros rs b _. apply scan_markets_pairs.
Qed.

Lemma scan_pairs_records (pairs : list (Bookmaker * Market)) results results' :
  Forall (fun bm => h2h bm.2 = true) pairs →
  for_each (fun rs bm => OddsFilterScript.scan_market event bm.1 rs bm.2)
           pairs results = Ok results' →
  ∃ recs, results' = results ++ recs
          ∧ Forall2 (Spec.from_market event)
              (List.filter (fun bm => Spec.complete classify (m_outcomes bm.2)) pairs)
              recs.
Proof.
  revert results. induction pairs as [|[b m] pairs IH]; intros results Hh; simpl.
  { intros [= <-]. exists []. by rewrite app_nil_r. }
  apply Forall_cons in Hh as [Hm Hh].
  intros (results1 & H1 & H2)%bind_Ok.
  apply scan_market_h2h in H1; [|done].
  destruct (IH _ Hh H2) as (recs & -> & HF).
  destruct (Spec.complete classify (m_outcomes m)).
  - destruct H1 as (rec & -> & Hrec). exists (rec :: recs).
    rewrite <- app_assoc. split; [done|]. by constructor.
  - subst results1. eauto.
Qed.

Lemma h2h_markets_h2h : Forall (fun bm => h2h bm.2 = true) (Spec.h2h_markets event).
Proof.
  unfold Spec.h2h_markets. apply Forall_forall. intros [b m] Hin.
  apply list_elem_of_In, in_flat_map in Hin as (b' & _ & Hin).
  apply in_map_iff in Hin as (m' & [= <- <-] & Hin).
  by apply filter_In in Hin as [_ Hin].
Qed.

End PerBookmaker.

(** ** The filter of the aggregate script *)

Lemma getitem_Ok {A} (d : gmap string A) k v : getitem d k = Ok v ↔ d !! k = Some v.
Proof. unfold getitem. destruct (d !! k); split; congruence. Qed.

(** A dictionary with the three keys passes [all] exactly when its three
    prices are near the target. *)
Lemma all_near_three target tol (odds : gmap string spec_float) h d a :
  size odds = 3 →
  odds !! "home" = Some h → odds !! "draw" = Some d → odds !! "away" = Some a →
  OddsScript.all_near target tol odds = true
  ↔ Spec.all_three_near target tol h d a.
Proof.
  intros Hsize Hh Hd Ha. unfold OddsScript.all_near, Spec.all_three_near.
  rewrite forallb_forall. split.
  - intros Hall. repeat split.
    + apply (Hall ("home", h)), list_elem_of_In, elem_of_map_to_list, Hh.
    + apply (Hall ("draw", d)), list_elem_of_In, elem_of_map_to_list, Hd.
    + apply (Hall ("away", a)), list_elem_of_In, elem_of_map_to_list, Ha.
  - intros (Hnh & Hnd & Hna) [k v] Hin.
    apply list_elem_of_In, elem_of_map_to_list in Hin. simpl.
    assert (dom odds = list_to_set Spec.keys) as Hdom.
    { symmetry. apply set_subseteq_size_eq.
      - intros key Hkey. apply elem_of_dom.
        apply elem_of_list_to_set in Hkey. unfold Spec.keys in Hkey.
        repeat (apply elem_of_cons in Hkey as [->|Hkey]; [eauto|]).
        by apply elem_of_nil in Hkey.
      - rewrite size_dom, Hsize. by vm_compute. }
    assert (k ∈ dom odds) as Hk by (apply elem_of_dom; eauto).
    rewrite Hdom in Hk. apply elem_of_list_to_set in Hk. unfold Spec.keys in Hk.
    unfold OddsScript.near.
    repeat (apply elem_of_cons in Hk as [->|Hk]; [congruence|]).
    by apply elem_of_nil in Hk.
Qed.

Lemma extract_three_way_odds_Some event odds :
  OddsScript.extract_three_way_odds event = Ok (Some odds) → size odds = 3.
Proof.
  unfold OddsScript.extract_three_way_odds. intros (best & _ & H)%bind_Ok.
  case_bool_decide; by simplify_eq.
Qed.

Lemma extract_three_way_odds_keys event odds :
  OddsScript.extract_three_way_odds event = Ok (Some odds) →
  ∃ h d a, odds !! "home" = Some h ∧ odds !! "draw" = Some d ∧ odds !! "away" = Some a.
Proof.
  intros H. pose proof (extract_three_way_odds_Some _ _ H) as Hsize.
  rewrite extract_three_way_odds_loop in H. apply bind_Ok in H as (best & Hloop & H).
  case_bool_decide; simplify_eq.
  pose proof (proj1 (scan_outcomes_size _ _ _ _ Hloop) Hsize) as Hc.
  pose proof (proj1 (complete_matched _ _) Hc) as Hm.
  assert (∀ key, key ∈ Spec.keys → is_Some (odds !! key)) as Hall.
  { intros key Hkey. by apply (scan_outcomes_dom _ _ _ _ Hloop), Hm. }
  destruct (Hall "home") as [h Hh]; [unfold Spec.keys; repeat constructor|].
  destruct (Hall "draw") as [d Hd]; [unfold Spec.keys; repeat constructor|].
  destruct (Hall "away") as [a Ha]; [unfold Spec.keys; repeat constructor|].
  eauto 10.
Qed.

Lemma check_event_entry target tol results event results' :
  OddsScript.check_event target tol results event = Ok results' →
  (results' = results ∧ ∀ r, ¬ Spec.aggregate_entry target tol event r)
  ∨ ∃ r, results' = results ++ [r] ∧ Spec.aggregate_entry target tol event r.
Proof.
  unfold OddsScript.check_event. intros ([odds|] & Hx & H)%bind_Ok; cycle 1.
  { left. injection H as <-. split; [done|].
    intros r (odds & ? & ? & ? & Hx' & _). congruence. }
  destruct (extract_three_way_odds_keys _ _ Hx) as (h & d & a & Hh & Hd & Ha).
  pose proof (all_near_three target tol odds h d a
                (extract_three_way_odds_Some _ _ Hx) Hh Hd Ha) as Hnear.
  destruct (OddsScript.all_near target tol odds).
  - right. unfold getitem in H. rewrite Hh, Hd, Ha in H. simpl in H.
    injection H as <-. eexists. split; [done|].
    exists odds, h, d, a. repeat split; try done; by apply Hnear.
  - left. injection H as <-. split; [done|].
    intros r (odds' & h' & d' & a' & Hx' & Hh' & Hd' & Ha' & Hn & _).
    rewrite Hx in Hx'. injection Hx' as <-.
    rewrite Hh in Hh'. rewrite Hd in Hd'. rewrite Ha in Ha'.
    injection Hh' as <-. injection Hd' as <-. injection Ha' as <-.
    by apply Hnear in Hn.
Qed.

Lemma events_loop_entries target tol events results results' :
  for_each (OddsScript.check_event target tol) events results = Ok results' →
  ∀ r, r ∈ results' ↔
       r ∈ results ∨ ∃ event, event ∈ events ∧ Spec.aggregate_entry target tol event r.
Proof.
  revert results. induction events as [|event events IH]; intros results; simpl.
  { intros [= <-] r. split; [auto|]. intros [|(? & []%elem_of_nil & _)]; done. }
  intros (results1 & H1 & H2)%bind_Ok r. rewrite (IH _ H2).
  apply check_event_entry in H1 as [[-> Hnone]|(r1 & -> & Hr1)].
  - split; intros [|(ev & Hin & He)]; auto.
    + right. exists ev. split; [by right|done].
    + inv Hin; [by apply Hnone in He|eauto].
  - rewrite elem_of_app, list_elem_of_singleton. split.
    + intros [[Hr| ->]|(ev & Hin & He)]; auto.
      * right. exists event. split; [left|done].
      * right. exists ev. split; [by right|done].
    + intros [|(ev & Hin & He)]; auto.
      inv Hin; [|eauto].
      destruct He as (odds & h & d & a & Hx & Hh & Hd & Ha & _ & ->).
      destruct Hr1 as (odds' & h' & d' & a' & Hx' & Hh' & Hd' & Ha' & _ & ->).
      left. right. rewrite Hx in Hx'. injection Hx' as <-. congruence.
Qed.

Lemma aggregate_loop_entries target tol max requests results out out' results' :
  OddsScript.sports_loop target tol max requests results out = (out', Ok results') →
  ∀ r, r ∈ results' ↔
       r ∈ results
       ∨ ∃ event, event ∈ Spec.aggregate_events max requests
                  ∧ Spec.aggregate_entry target tol event r.
Proof.
  unfold Spec.aggregate_events, Spec.fetched.
  revert results out. induction requests as [|[key reply] requests IH];
    intros results out; simpl.
  { intros [= <- <-] r. split; [auto|]. intros [|(? & []%elem_of_nil & _)]; done. }
  destruct (OddsScript.fetch_odds reply) as [events|e]; simpl.
  - destruct (for_each _ _ results) as [results1|] eqn:Hev; [|done].
    intros H r. rewrite (IH _ _ H), (events_loop_entries _ _ _ _ _ Hev).
    setoid_rewrite elem_of_app. naive_solver.
  - intros H r. rewrite (IH _ _ H). naive_solver.
Qed.

(** ** The filter of the per-bookmaker script *)

Lemma near_three target tol rec :
  OddsFilterScript.near target tol (OddsFilterScript.home_odds rec)
  && OddsFilterScript.near target tol (OddsFilterScript.draw_odds rec)
  && OddsFilterScript.near target tol (OddsFilterScript.away_odds rec) = true
  ↔ Spec.all_three_near target tol (OddsFilterScript.home_odds rec)
      (OddsFilterScript.draw_odds rec) (OddsFilterScript.away_odds rec).
Proof.
  unfold Spec.all_three_near, OddsFilterScript.near.
  rewrite !andb_true_iff. tauto.
Qed.

Lemma records_loop_rows target tol recs records :
  ∀ r, r ∈ fold_left (OddsFilterScript.check_record target tol) recs records ↔
       r ∈ records
       ∨ ∃ rec, rec ∈ recs
                ∧ Spec.all_three_near target tol (OddsFilterScript.home_odds rec)
                    (OddsFilterScript.draw_odds rec) (OddsFilterScript.away_odds rec)
                ∧ r = OddsFilterScript.set_combined_product rec (Spec.product_of rec).
Proof.
  revert records. induction recs as [|rec recs IH]; intros records r;
    cbn [fold_left].
  { split; [auto|]. intros [|(? & []%elem_of_nil & _)]; done. }
  rewrite IH. unfold OddsFilterScript.check_record.
  pose proof (near_three target tol rec) as Hnear.
  destruct (_ && _ && _).
  - rewrite elem_of_app, list_elem_of_singleton. split.
    + intros [[Hr| ->]|(rec' & Hin & Hn & ->)]; auto.
      * right. exists rec. split; [left|]. split; [by apply Hnear|done].
      * right. exists rec'. split; [by right|done].
    + intros [Hr|(rec' & Hin & Hn & ->)]; auto. inv Hin; eauto.
  - split.
    + intros [Hr|(rec' & Hin & Hn & ->)]; auto.
      right. exists rec'. split; [by right|done].
    + intros [Hr|(rec' & Hin & Hn & ->)]; auto. inv Hin; [|eauto].
      apply Hnear in Hn. done.
Qed.

Lemma rows_loop_rows target tol events records records' :
  for_each (OddsFilterScript.check_event target tol) events records = Ok records' →
  ∀ r, r ∈ records' ↔
       r ∈ records ∨ ∃ event, event ∈ events ∧ Spec.bookmaker_row target tol event r.
Proof.
  revert records. induction events as [|event events IH]; intros records; simpl.
  { intros [= <-] r. split; [auto|]. intros [|(? & []%elem_of_nil & _)]; done. }
  intros (records1 & H1 & H2)%bind_Ok r. rewrite (IH _ H2).
  unfold OddsFilterScript.check_event in H1.
  apply bind_Ok in H1 as (recs & Hx & [= <-]). rewrite records_loop_rows.
  unfold Spec.bookmaker_row. split.
  - intros [[Hr|(rec & Hin & Hn & ->)]|(ev & Hin & Hrow)]; auto.
    + right. exists event. split; [left|]. eauto 10.
    + right. exists ev. split; [by right|done].
  - intros [Hr|(ev & Hin & recs' & rec & Hx' & Hrec & Hn & ->)]; auto.
    inv Hin; [|right; eauto 10].
    rewrite Hx in Hx'. injection Hx' as <-. left. right. eauto.
Qed.

Lemma per_bookmaker_loop_rows target tol requests records out out' records' :
  OddsFilterScript.sports_loop target tol requests records out = (out', Ok records') →
  ∀ r, r ∈ records' ↔
       r ∈ records
       ∨ ∃ event, event ∈ Spec.per_bookmaker_events requests
                  ∧ Spec.bookmaker_row target tol event r.
Proof.
  unfold Spec.per_bookmaker_events, Spec.fetched.
  revert records out. induction requests as [|[key reply] requests IH];
    intros records out; simpl.
  { intros [= <- <-] r. split; [auto|]. intros [|(? & []%elem_of_nil & _)]; done. }
  destruct (OddsFilterScript.fetch_odds reply) as [events|e]; simpl.
  - destruct (for_each _ _ records) as [records1|] eqn:Hev; [|done].
    intros H r. rewrite (IH _ _ H), (rows_loop_rows _ _ _ _ _ Hev).
    setoid_rewrite elem_of_app. naive_solver.
  - intros H r. rewrite (IH _ _ H). naive_solver.
Qed.

(** ** The filter keeps exactly the records near the target *)

(** C1. In both scripts a record whose extraction succeeded is in the
    output if and only if each of its three prices [p] satisfies
    [abs(p - target) <= tol] (so a distance equal to the tolerance passes),
    and every record of the output satisfies the three inequalities. *)
Theorem filter_keeps_records_near_target :
  (∀ requests target tol max out results,
     OddsScript.find_high_odds_events requests target tol max = (out, Ok results) →
     (∀ event odds h d a,
        event ∈ Spec.aggregate_events max requests →
        OddsScript.extract_three_way_odds event = Ok (Some odds) →
        odds !! "home" = Some h → odds !! "draw" = Some d → odds !! "away" = Some a →
        OddsScript.make_result event odds (fmul (fmul h d) a) ∈ results
        ↔ Spec.all_three_near target tol h d a)
     ∧ (∀ r, r ∈ results →
          ∃ h d a,
            OddsScript.best_odds r !! "home" = Some h
            ∧ OddsScript.best_odds r !! "draw" = Some d
            ∧ OddsScript.best_odds r !! "away" = Some a
            ∧ Spec.all_three_near target tol h d a))
  ∧ (∀ requests target tol out df,
       OddsFilterScript.find_events_with_target_odds requests target tol out df →
       (∀ event recs rec,
          event ∈ Spec.per_bookmaker_events requests →
          OddsFilterScript.extract_bookmaker_odds event = Ok recs →
          rec ∈ recs →
          OddsFilterScript.set_combined_product rec (Spec.product_of rec) ∈ df
          ↔ Spec.all_three_near target tol (OddsFilterScript.home_odds rec)
              (OddsFilterScript.draw_odds rec) (OddsFilterScript.away_odds rec))
       ∧ (∀ r, r ∈ df →
            Spec.all_three_near target tol (OddsFilterScript.home_odds r)
              (OddsFilterScript.draw_odds r) (OddsFilterScript.away_odds r))).
Proof.
  split.
  - intros requests target tol max out results.
    unfold OddsScript.find_high_odds_events.
    destruct (OddsScript.sports_loop _ _ _ _ _ _) as [out' [passing|e]] eqn:Hloop;
      [|done].
    intros [= -> <-].
    assert (∀ r, r ∈ sort_reverse OddsScript.combined_product passing
                 ↔ ∃ event, event ∈ Spec.aggregate_events max requests
                            ∧ Spec.aggregate_entry target tol event r) as Hmem.
    { intros r.
      rewrite sort_reverse_Permutation, (aggregate_loop_entries _ _ _ _ _ _ _ _ Hloop).
      split; [intros [[]%elem_of_nil|]; done|auto]. }
    split.
    + intros event odds h d a Hev Hx Hh Hd Ha. rewrite Hmem. split.
      * intros (event' & _ & odds' & h' & d' & a' & Hx' & Hh' & Hd' & Ha' & Hn & Hr).
        apply (f_equal OddsScript.best_odds) in Hr. simpl in Hr. subst odds'.
        congruence.
      * intros Hn. exists event. split; [done|]. exists odds, h, d, a. auto 10.
    + intros r (event & _ & odds & h & d & a & _ & Hh & Hd & Ha & Hn & ->)%Hmem.
      exists h, d, a. auto.
  - intros requests target tol out df (records & Hloop & Hperm & _).
    assert (∀ r, r ∈ df ↔ ∃ event, event ∈ Spec.per_bookmaker_events requests
                                   ∧ Spec.bookmaker_row target tol event r) as Hmem.
    { intros r. rewrite <- Hperm, (per_bookmaker_loop_rows _ _ _ _ _ _ _ Hloop).
      split; [intros [[]%elem_of_nil|]; done|auto]. }
    split.
    + intros event recs rec Hev Hx Hrec. rewrite Hmem. split.
      * intros (event' & _ & recs' & rec' & _ & _ & Hn & Hr).
        pose proof (f_equal OddsFilterScript.home_odds Hr) as Eh.
        pose proof (f_equal OddsFilterScript.draw_odds Hr) as Ed.
        pose proof (f_equal OddsFilterScript.away_odds Hr) as Ea.
        simpl in Eh, Ed, Ea. by rewrite Eh, Ed, Ea.
      * intros Hn. exists event. split; [done|]. exists recs, rec. auto.
    + intros r (event & _ & recs & rec & _ & _ & Hn & ->)%Hmem. done.
Qed.

Lemma filter_keeps_records_near_target_witness :
  (∃ out results,
     OddsScript.find_high_odds_events Samples.requests Samples.target Samples.tol
       (Some 10%Z) = (out, Ok results)
     ∧ OddsScript.extract_three_way_odds Samples.event_near
       = Ok (Some Samples.odds_near)
     ∧ OddsScript.make_result Samples.event_near Samples.odds_near
         (fmul (fmul (Samples.real "2.5") (Samples.real "3.4")) (Samples.real "3.0"))
       ∈ results)
  ∧ (∃ out df,
       OddsFilterScript.find_events_with_target_odds Samples.requests Samples.target
         Samples.tol out df
       ∧ OddsFilterScript.extract_bookmaker_odds Samples.event_near
         = Ok [Samples.record_near]
       ∧ Samples.row_near ∈ df).
Proof.
  split.
  - destruct (OddsScript.find_high_odds_events Samples.requests Samples.target
                Samples.tol (Some 10%Z)) as [out [results|e]] eqn:Hrun.
    2:{ vm_compute in Hrun. discriminate Hrun. }
    assert (OddsScript.extract_three_way_odds Samples.event_near
            = Ok (Some Samples.odds_near)) as Hx by (vm_compute; reflexivity).
    exists out, results. split; [reflexivity|]. split; [exact Hx|].
    apply (proj1 (proj1 filter_keeps_records_near_target _ _ _ _ _ _ Hrun)
             Samples.event_near Samples.odds_near _ _ _).
    + apply list_elem_of_In. vm_compute. left. reflexivity.
    + exact Hx.
    + vm_compute; reflexivity.
    + vm_compute; reflexivity.
    + vm_compute; reflexivity.
    + vm_compute. repeat split.
  - assert (OddsFilterScript.find_events_with_target_odds Samples.requests
              Samples.target Samples.tol
              ["Error fetching odds for soccer_spain_la_liga: Read timed out."]
              [Samples.row_near; Samples.row_near]) as Hrun.
    { exists [Samples.row_near; Samples.row_near].
      split; [vm_compute; reflexivity|]. split; [reflexivity|].
      repeat constructor; right; vm_compute; reflexivity. }
    assert (OddsFilterScript.extract_bookmaker_odds Samples.event_near
            = Ok [Samples.record_near]) as Hx by (vm_compute; reflexivity).
    eexists _, _. split; [exact Hrun|]. split; [exact Hx|].
    apply (proj1 (proj2 filter_keeps_records_near_target _ _ _ _ _ Hrun)
             Samples.event_near [Samples.record_near] Samples.record_near).
    + apply list_elem_of_In. vm_compute. left. reflexivity.
    + exact Hx.
    + left.
    + vm_compute. repeat split.
Defined.

(** ** The order of the output *)

Lemma StronglySorted_weaken {A} (R R' : relation A) (l : list A) :
  (∀ a b, a ∈ l → b ∈ l → R a b → R' a b) →
  StronglySorted R l → StronglySorted R' l.
Proof.
  intros HR Hs. induction Hs as [|x l Hs IH Hx]; constructor.
  - apply IH. intros a b Ha Hb. apply HR; by right.
  - rewrite Forall_forall in Hx |- *. intros b Hb.
    apply HR; [left|by right|auto].
Qed.

(** Where no product is NaN, the list [find_high_odds_events] returns
    holds the passing records in non-increasing order of
    [combined_product], records with equal products in the order they were
    met. *)
Lemma output_sorted_by_product :
  ∀ requests target tol max out passing,
    OddsScript.sports_loop target tol max requests [] [] = (out, Ok passing) →
    Forall (fun r => is_nan (OddsScript.combined_product r) = false) passing →
    ∃ results,
      OddsScript.find_high_odds_events requests target tol max = (out, Ok results)
      ∧ results ≡ₚ passing
      ∧ Spec.non_increasing OddsScript.combined_product results
      ∧ Spec.keeps_ties_in_order OddsScript.combined_product passing results.
Proof.
  intros requests target tol max out passing Hloop Hnum.
  exists (sort_reverse OddsScript.combined_product passing).
  unfold OddsScript.find_high_odds_events. rewrite Hloop. simpl.
  split; [done|]. by apply sort_reverse_spec.
Qed.

Lemma output_sorted_by_product_witness :
  ∃ out passing results,
    OddsScript.sports_loop Samples.target Samples.tol (Some 10%Z) Samples.requests [] []
      = (out, Ok passing)
    ∧ OddsScript.find_high_odds_events Samples.requests Samples.target Samples.tol
        (Some 10%Z) = (out, Ok results)
    ∧ length passing = 2
    ∧ Spec.non_increasing OddsScript.combined_product results
    ∧ Spec.keeps_ties_in_order OddsScript.combined_product passing results.
Proof.
  destruct (OddsScript.sports_loop Samples.target Samples.tol (Some 10%Z)
              Samples.requests [] []) as [out [passing|e]] eqn:Hloop.
  2:{ vm_compute in Hloop. discriminate Hloop. }
  assert (match OddsScript.sports_loop Samples.target Samples.tol (Some 10%Z)
                  Samples.requests [] [] with
          | (_, Ok l) =>
              Nat.eqb (length l) 2
              && forallb (fun r => negb (is_nan (OddsScript.combined_product r))) l
          | _ => false
          end = true) as Hcheck by (vm_compute; reflexivity).
  rewrite Hloop in Hcheck. apply andb_prop in Hcheck as [Hlen Hnum].
  apply Nat.eqb_eq in Hlen.
  destruct (output_sorted_by_product _ _ _ _ _ _ Hloop)
    as (results & Hrun & _ & Hsorted & Hties).
  { apply Forall_forall. intros r Hr. apply list_elem_of_In in Hr.
    rewrite forallb_forall in Hnum. apply Hnum in Hr. by destruct (is_nan _). }
  exists out, passing, results. auto.
Defined.

(** C2 at the failing input: three events pass an infinite tolerance,
    with the products 1.0, NaN (infinity times zero) and 2.0, and are met
    in this order. [list.sort] finds the three keys to be one run, no key
    comparing less than the one before it, and leaves the entries where
    they are: the entry with product 1.0 comes before the entry with
    product 2.0, so the list returned is not in non-increasing order of
    [combined_product], which the claim and the docstring of
    [find_high_odds_events] say it is. Met with the NaN first, the same
    entries come out with 2.0 before 1.0. *)
Theorem nan_product_leaves_the_list_unsorted :
  (∃ results,
     OddsScript.find_high_odds_events Cases.nan_requests Samples.target
       Cases.infinity None = ([], Ok results)
     ∧ map OddsScript.event_id results = [Some "e20"; Some "e13"; Some "e21"]
     ∧ map OddsScript.combined_product results
       = [Samples.real "1"; S754_nan; Samples.real "2"]
     ∧ ¬ Spec.non_increasing OddsScript.combined_product results)
  ∧ fle (Samples.real "2") (Samples.real "1") = false
  ∧ (∃ results,
       OddsScript.find_high_odds_events Cases.nan_first_requests Samples.target
         Cases.infinity None = ([], Ok results)
       ∧ List.filter (fun p => negb (is_nan p))
           (map OddsScript.combined_product results)
         = [Samples.real "2"; Samples.real "1"]).
Proof.
  split; [|split; [vm_compute; reflexivity|]].
  - eexists. split; [vm_compute; reflexivity|].
    split; [vm_compute; reflexivity|]. split; [vm_compute; reflexivity|].
    intros Hs. apply StronglySorted_inv in Hs as [_ Hall].
    apply Forall_cons in Hall as [_ Hall]. apply Forall_cons in Hall as [Hle _].
    vm_compute in Hle. discriminate Hle.
  - eexists. split; vm_compute; reflexivity.
Qed.

(** ** The best price across bookmakers *)

(** Where the first numerically valid price of a classification is not
    NaN, the extracted price is the maximum of the valid prices of that
    classification that are not NaN, taken over every h2h market of every
    bookmaker of the event. *)
Lemma aggregate_price_is_maximum :
  ∀ event odds key v,
    OddsScript.extract_three_way_odds event = Ok (Some odds) →
    odds !! key = Some v →
    let prices :=
      Spec.prices (OddsScript.outcome_key (e_home_team event) (e_away_team event))
                  key (Spec.h2h_outcomes event) in
    (∀ p, head prices = Some p → is_nan p = false) →
    Spec.is_maximum v (List.filter (fun p => negb (is_nan p)) prices).
Proof.
  intros event odds key v Hx Hv prices Hfirst.
  rewrite extract_three_way_odds_loop in Hx. apply bind_Ok in Hx as (best & Hloop & Hx).
  case_bool_decide; simplify_eq.
  rewrite (scan_outcomes_lookup _ _ _ _ _ key Hloop), lookup_empty in Hv.
  fold prices in Hv. destruct prices as [|p0 l]; [done|].
  specialize (Hfirst p0 eq_refl). simpl in Hv.
  destruct (keep_greater_max l p0 Hfirst) as (v' & Hv' & Hin & Hnan & Hp0 & Hall).
  rewrite Hv' in Hv. injection Hv as ->. split.
  - apply list_elem_of_In, filter_In. split; [by apply list_elem_of_In|].
    by rewrite Hnan.
  - intros p Hp. apply list_elem_of_In, filter_In in Hp as [Hp Hpn].
    apply negb_true_iff in Hpn. destruct Hp as [<-|Hp]; [done|].
    apply Hall; [by apply list_elem_of_In|done].
Qed.

Lemma aggregate_price_is_maximum_witness :
  OddsScript.extract_three_way_odds Samples.event_two_books = Ok (Some Samples.odds_best)
  ∧ Spec.is_maximum (Samples.real "2.7") [Samples.real "2.5"; Samples.real "2.7"].
Proof.
  assert (OddsScript.extract_three_way_odds Samples.event_two_books
          = Ok (Some Samples.odds_best)) as Hx by (vm_compute; reflexivity).
  split; [exact Hx|].
  assert (Samples.odds_best !! "home" = Some (Samples.real "2.7")) as Hv
    by (vm_compute; reflexivity).
  pose proof (aggregate_price_is_maximum Samples.event_two_books Samples.odds_best
                "home" (Samples.real "2.7") Hx Hv) as Hmax.
  assert (Spec.prices (OddsScript.outcome_key (e_home_team Samples.event_two_books)
                         (e_away_team Samples.event_two_books))
            "home" (Spec.h2h_outcomes Samples.event_two_books)
          = [Samples.real "2.5"; Samples.real "2.7"]) as Hp by (vm_compute; reflexivity).
  cbv zeta in Hmax. rewrite Hp in Hmax. apply Hmax.
  intros p [= <-]. vm_compute. reflexivity.
Defined.

(** C3 at the failing input: the home team is quoted twice, first with
    the price nan, which [float] converts, then with 2.0. The price kept
    is replaced only by one that compares greater, and nothing compares
    greater than NaN: the extracted home price is NaN, which is not the
    maximum of the valid home prices, with or without the NaN among them,
    where the docstring of [extract_three_way_odds] has the maximum
    price. With the two quotes the other way round the extracted price
    is 2.0. *)
Theorem first_price_nan_is_kept :
  OddsScript.extract_three_way_odds Samples.event_nan = Ok (Some Samples.odds_nan)
  ∧ Samples.odds_nan !! "home" = Some S754_nan
  ∧ Spec.prices (OddsScript.outcome_key (Some "Arsenal") (Some "Chelsea")) "home"
      (Spec.h2h_outcomes Samples.event_nan) = [S754_nan; Samples.real "2.0"]
  ∧ ¬ Spec.is_maximum S754_nan [S754_nan; Samples.real "2.0"]
  ∧ ¬ Spec.is_maximum S754_nan [Samples.real "2.0"]
  ∧ Spec.prices (OddsScript.outcome_key (Some "Arsenal") (Some "Chelsea")) "home"
      (Spec.h2h_outcomes Cases.event_nan_second) = [Samples.real "2.0"; S754_nan]
  ∧ (∃ odds, OddsScript.extract_three_way_odds Cases.event_nan_second = Ok (Some odds)
             ∧ odds !! "home" = Some (Samples.real "2.0")).
Proof.
  split; [vm_compute; reflexivity|]. split; [vm_compute; reflexivity|].
  split; [vm_compute; reflexivity|]. split; [|split; [|split]].
  - intros [_ Hle]. specialize (Hle S754_nan (list_elem_of_here _ _)). discriminate Hle.
  - intros [Hin _]. apply list_elem_of_singleton in Hin. discriminate Hin.
  - vm_compute. reflexivity.
  - eexists. split; vm_compute; reflexivity.
Qed.

(** ** Records need all three classifications *)

(** C4. A record is produced only when home, draw and away are all matched
    with valid prices: in aggregate mode the event yields its record
    exactly when the three are matched among its h2h outcomes, and in
    per-bookmaker mode the records are those of the h2h markets in which
    the three are matched, one each and in market order. *)
Theorem record_needs_three_classifications :
  (∀ classify outcomes,
     Spec.complete classify outcomes = true
     ↔ ∀ key, key ∈ Spec.keys → Spec.matched classify key outcomes)
  ∧ (∀ event r,
       OddsScript.extract_three_way_odds event = Ok r →
       is_Some r
       ↔ Spec.complete (OddsScript.outcome_key (e_home_team event) (e_away_team event))
           (Spec.h2h_outcomes event) = true)
  ∧ (∀ event recs,
       OddsFilterScript.extract_bookmaker_odds event = Ok recs →
       Forall2 (fun bm rec => OddsFilterScript.bookmaker rec = b_key bm.1)
         (List.filter
            (fun bm =>
               Spec.complete
                 (OddsFilterScript.outcome_key (e_home_team event) (e_away_team event))
                 (m_outcomes bm.2))
            (Spec.h2h_markets event))
         recs).
Proof.
  split; [apply complete_matched|]. split.
  - intros event r Hx. rewrite extract_three_way_odds_loop in Hx.
    apply bind_Ok in Hx as (best & Hloop & Hx).
    rewrite <- (scan_outcomes_size _ _ _ _ Hloop).
    case_bool_decide; simplify_eq; split; eauto; [by intros [? [=]]|done].
  - intros event recs Hx. rewrite extract_bookmaker_odds_loop in Hx.
    apply scan_pairs_records in Hx as (recs' & Heq & HF); [|apply h2h_markets_h2h].
    simpl in Heq. subst recs'.
    eapply Forall2_impl; [exact HF|]. by intros bm rec [? _].
Qed.

Lemma record_needs_three_classifications_witness :
  OddsScript.extract_three_way_odds Samples.event_no_draw = Ok None
  ∧ Spec.complete (OddsScript.outcome_key (Some "Arsenal") (Some "Chelsea"))
      (Spec.h2h_outcomes Samples.event_no_draw) = false
  ∧ OddsFilterScript.extract_bookmaker_odds Samples.event_no_draw = Ok []
  ∧ OddsFilterScript.extract_bookmaker_odds Samples.event_near = Ok [Samples.record_near].
Proof.
  assert (OddsScript.extract_three_way_odds Samples.event_no_draw = Ok None) as Hx
    by (vm_compute; reflexivity).
  assert (OddsFilterScript.extract_bookmaker_odds Samples.event_no_draw = Ok []) as Hn
    by (vm_compute; reflexivity).
  assert (OddsFilterScript.extract_bookmaker_odds Samples.event_near
          = Ok [Samples.record_near]) as Hr by (vm_compute; reflexivity).
  destruct record_needs_three_classifications as (_ & Hagg & Hper).
  pose proof (Hagg _ _ Hx) as Hiff.
  change (e_home_team Samples.event_no_draw) with (Some "Arsenal") in Hiff.
  change (e_away_team Samples.event_no_draw) with (Some "Chelsea") in Hiff.
  split; [exact Hx|]. split; [|split; [exact Hn|exact Hr]].
  destruct (Spec.complete _ _); [|reflexivity].
  destruct (proj2 Hiff eq_refl) as [? [=]].
Defined.

(** ** The last price of a market wins *)

(** C10. In per-bookmaker mode every record stems from one h2h market, and
    for each of home, draw and away it carries the price and the deep link
    of the last outcome of that market, in market order, that counts for
    the key: a later outcome overwrites an earlier one, whatever the
    prices. *)
Theorem last_outcome_of_market_wins :
  ∀ event recs,
    OddsFilterScript.extract_bookmaker_odds event = Ok recs →
    Forall2 (Spec.from_market event)
      (List.filter
         (fun bm =>
            Spec.complete
              (OddsFilterScript.outcome_key (e_home_team event) (e_away_team event))
              (m_outcomes bm.2))
         (Spec.h2h_markets event))
      recs.
Proof.
  intros event recs Hx. rewrite extract_bookmaker_odds_loop in Hx.
  destruct (scan_pairs_records event (Spec.h2h_markets event) [] recs)
    as (recs' & Heq & HF).
  - apply h2h_markets_h2h.
  - exact Hx.
  - simpl in Heq. by subst recs'.
Qed.

Lemma last_outcome_of_market_wins_witness :
  OddsFilterScript.extract_bookmaker_odds Samples.event_repeated
    = Ok [Samples.record_repeated]
  ∧ Spec.from_market Samples.event_repeated
      (Samples.bookie_repeated, Samples.market_repeated) Samples.record_repeated
  ∧ OddsFilterScript.home_odds Samples.record_repeated = Samples.real "2.5"
  ∧ (∃ odds, OddsScript.extract_three_way_odds Samples.event_repeated = Ok (Some odds)
             ∧ odds !! "home" = Some (Samples.real "2.9")).
Proof.
  assert (OddsFilterScript.extract_bookmaker_odds Samples.event_repeated
          = Ok [Samples.record_repeated]) as Hx by (vm_compute; reflexivity).
  split; [exact Hx|]. split.
  - pose proof (last_outcome_of_market_wins _ _ Hx) as HF.
    assert (List.filter
              (fun bm =>
                 Spec.complete
                   (OddsFilterScript.outcome_key (e_home_team Samples.event_repeated)
                      (e_away_team Samples.event_repeated))
                   (m_outcomes bm.2))
              (Spec.h2h_markets Samples.event_repeated)
            = [(Samples.bookie_repeated, Samples.market_repeated)]) as Hm
      by (vm_compute; reflexivity).
    rewrite Hm in HF. by apply Forall2_cons in HF as [HF _].
  - split; [reflexivity|].
    eexists. split; vm_compute; reflexivity.
Defined.

(** ** Deep links *)

(** The link [_deep_link] returns is the first of the outcome, market and
    bookmaker links that is not empty, and the event link, empty or not,
    when there is none. *)
Lemma deep_link_first event bookmaker market outcome :
  OddsFilterScript._deep_link event bookmaker market outcome
  = match List.find truthy [o_link outcome; m_link market; b_link bookmaker] with
    | Some link => link
    | None => e_link event
    end.
Proof.
  unfold OddsFilterScript._deep_link, or_. simpl.
  destruct (truthy (o_link outcome)) eqn:Ho; simpl; rewrite ?Ho; [done|].
  destruct (truthy (m_link market)) eqn:Hm; simpl; rewrite ?Hm; [done|].
  by destruct (truthy (b_link bookmaker)) eqn:Hb; simpl; rewrite ?Hb.
Qed.

Lemma deep_link_nonempty event bookmaker market outcome link :
  List.find truthy [o_link outcome; m_link market; b_link bookmaker; e_link event]
    = Some link →
  OddsFilterScript._deep_link event bookmaker market outcome = link.
Proof.
  rewrite deep_link_first. simpl.
  destruct (truthy (o_link outcome)); [congruence|].
  destruct (truthy (m_link market)); [congruence|].
  destruct (truthy (b_link bookmaker)); [congruence|].
  destruct (truthy (e_link event)); congruence.
Qed.

Lemma deep_link_market_then_bookmaker :
  Samples.deep_link_of (Samples.with_links None (Some "M") (Some "B") (Some "E"))
    = Some "M"
  ∧ Samples.deep_link_of (Samples.with_links None None (Some "B") (Some "E")) = Some "B"
  ∧ Samples.deep_link_of (Samples.with_links None None None None) = None
  ∧ Samples.deep_link_of (Samples.with_links (Some "") (Some "") (Some "") None) = None.
Proof. repeat split. Qed.

(** C5 at the failing input: with no link on the outcome, the market and
    the bookmaker and an empty link on the event, all four links are absent
    or empty, and [_deep_link] returns the empty text where its docstring
    and the claim have none. *)
Theorem deep_link_empty_event_link :
  let '(e, b, m, o) := Samples.with_links None None None (Some "") in
  truthy (o_link o) = false ∧ truthy (m_link m) = false
  ∧ truthy (b_link b) = false ∧ truthy (e_link e) = false
  ∧ OddsFilterScript._deep_link e b m o = Some ""
  ∧ OddsFilterScript._deep_link e b m o ≠ None.
Proof. repeat split. discriminate. Qed.

(** ** Draw synonyms *)

(** C8. A name classifies as draw exactly when its lower-case form is one
    of draw, tie, egalité in per-bookmaker mode, and one of those or espn
    in aggregate mode; names that differ only in letter case classify
    alike, and Draw, DRAW and tie are draws in both modes. *)
Theorem draw_by_lower_case_membership :
  (∀ home_team away_team name,
     OddsFilterScript.outcome_key home_team away_team name = Some "draw"
     ↔ lower name ∈ ({[ "draw"; "tie"; egalite ]} : gset string))
  ∧ (∀ home_team away_team name,
       OddsScript.outcome_key home_team away_team name = Some "draw"
       ↔ lower name ∈ ({[ "draw"; "tie"; "espn"; egalite ]} : gset string))
  ∧ (∀ home_team away_team name name',
       lower name = lower name' →
       (OddsFilterScript.outcome_key home_team away_team name = Some "draw"
        ↔ OddsFilterScript.outcome_key home_team away_team name' = Some "draw")
       ∧ (OddsScript.outcome_key home_team away_team name = Some "draw"
          ↔ OddsScript.outcome_key home_team away_team name' = Some "draw"))
  ∧ (∀ home_team away_team,
       Forall (fun name =>
                 OddsFilterScript.outcome_key home_team away_team name = Some "draw"
                 ∧ OddsScript.outcome_key home_team away_team name = Some "draw")
              ["Draw"; "DRAW"; "tie"]).
Proof.
  assert (∀ home_team away_team name,
            OddsFilterScript.outcome_key home_team away_team name = Some "draw"
            ↔ lower name ∈ OddsFilterScript.draw_names) as Hper.
  { intros home_team away_team name. unfold OddsFilterScript.outcome_key.
    case_bool_decide as Hd; [done|].
    split; [|done]. by repeat case_bool_decide. }
  assert (∀ home_team away_team name,
            OddsScript.outcome_key home_team away_team name = Some "draw"
            ↔ lower name ∈ OddsScript.draw_names) as Hagg.
  { intros home_team away_team name. unfold OddsScript.outcome_key.
    case_bool_decide as Hd; [done|].
    split; [|done]. by repeat case_bool_decide. }
  split; [exact Hper|]. split; [exact Hagg|]. split.
  - intros home_team away_team name name' Hl.
    by rewrite !Hper, !Hagg, Hl.
  - intros home_team away_team. repeat constructor; by vm_compute.
Qed.

Lemma draw_by_lower_case_membership_witness :
  lower "Tie" = lower "TIE"
  ∧ (OddsFilterScript.outcome_key (Some "Arsenal") (Some "Chelsea") "Tie" = Some "draw"
     ↔ OddsFilterScript.outcome_key (Some "Arsenal") (Some "Chelsea") "TIE"
       = Some "draw").
Proof.
  assert (lower "Tie" = lower "TIE") as Hl by reflexivity.
  split; [exact Hl|].
  exact (proj1 (proj1 (proj2 (proj2 draw_by_lower_case_membership))
                  (Some "Arsenal") (Some "Chelsea") "Tie" "TIE" Hl)).
Defined.

(** The set holds the word with a plain initial e: written with a capital
    E it is a draw, written with an accented capital it is not. *)
Lemma accented_capital_is_not_a_draw :
  lower ("E" +:+ "galit" +:+ e_acute) = egalite
  ∧ lower (String (ascii_of_nat 201) "galit" +:+ e_acute) ≠ egalite.
Proof. split; [reflexivity|]. vm_compute. discriminate. Qed.

(** ** Fetch failures *)

Lemma aggregate_loop_app target tol max before after results out :
  OddsScript.sports_loop target tol max (before ++ after) results out
  = match OddsScript.sports_loop target tol max before results out with
    | (out', Ok results') => OddsScript.sports_loop target tol max after results' out'
    | (out', Raise e) => (out', Raise e)
    end.
Proof.
  revert results out. induction before as [|[key reply] before IH];
    intros results out; simpl.
  { by destruct (OddsScript.sports_loop target tol max after results out) as [? []]. }
  destruct (OddsScript.fetch_odds reply); [|apply IH].
  destruct (for_each _ _ results); [apply IH|done].
Qed.

Lemma per_bookmaker_loop_app target tol before after records out :
  OddsFilterScript.sports_loop target tol (before ++ after) records out
  = match OddsFilterScript.sports_loop target tol before records out with
    | (out', Ok records') => OddsFilterScript.sports_loop target tol after records' out'
    | (out', Raise e) => (out', Raise e)
    end.
Proof.
  revert records out. induction before as [|[key reply] before IH];
    intros records out; simpl.
  { by destruct (OddsFilterScript.sports_loop target tol after records out) as [? []]. }
  destruct (OddsFilterScript.fetch_odds reply); [|apply IH].
  destruct (for_each _ _ records); [apply IH|done].
Qed.

Lemma limit_nil max : OddsScript.limit max [] = [].
Proof.
  destruct max as [n|]; [|done]. unfold OddsScript.limit, slice_to.
  destruct (n =? 0)%Z; [done|]. destruct (n <? 0)%Z; apply take_nil.
Qed.

(** C6. A reply with status 404 makes [fetch_odds] return the empty list.
    When the fetch for a sport key raises, the loop over the sport keys
    prints one line naming that key and goes on with the remaining keys,
    the records gathered so far untouched; a 404 leaves no trace at all. *)
Theorem fetch_failure_skips_one_sport :
  (∀ status_text json,
     OddsScript.fetch_odds (Response 404 status_text json) = Ok []
     ∧ OddsFilterScript.fetch_odds (Response 404 status_text json) = Ok [])
  ∧ (∀ target tol max before sport_key reply after results out e,
       OddsScript.fetch_odds reply = Raise e →
       OddsScript.sports_loop target tol max (before ++ (sport_key, reply) :: after)
         results out
       = match OddsScript.sports_loop target tol max before results out with
         | (out', Ok results') =>
             OddsScript.sports_loop target tol max after results'
               (out' ++ ["Skipping sport " +:+ sport_key +:+ " due to error: "
                         +:+ text_of e])
         | (out', Raise x) => (out', Raise x)
         end)
  ∧ (∀ target tol before sport_key reply after records out e,
       OddsFilterScript.fetch_odds reply = Raise e →
       OddsFilterScript.sports_loop target tol (before ++ (sport_key, reply) :: after)
         records out
       = match OddsFilterScript.sports_loop target tol before records out with
         | (out', Ok records') =>
             OddsFilterScript.sports_loop target tol after records'
               (out' ++ ["Error fetching odds for " +:+ sport_key +:+ ": "
                         +:+ text_of e])
         | (out', Raise x) => (out', Raise x)
         end)
  ∧ (∀ target tol max before sport_key status_text json after results out,
       OddsScript.sports_loop target tol max
         (before ++ (sport_key, Response 404 status_text json) :: after) results out
       = OddsScript.sports_loop target tol max (before ++ after) results out)
  ∧ (∀ target tol before sport_key status_text json after records out,
       OddsFilterScript.sports_loop target tol
         (before ++ (sport_key, Response 404 status_text json) :: after) records out
       = OddsFilterScript.sports_loop target tol (before ++ after) records out).
Proof.
  split; [done|]. split; [|split; [|split]].
  - intros target tol max before sport_key reply after results out e He.
    rewrite aggregate_loop_app.
    destruct (OddsScript.sports_loop target tol max before results out) as [out' [r|x]];
      [|done].
    simpl. by rewrite He.
  - intros target tol before sport_key reply after records out e He.
    rewrite per_bookmaker_loop_app.
    destruct (OddsFilterScript.sports_loop target tol before records out)
      as [out' [r|x]]; [|done].
    simpl. by rewrite He.
  - intros. rewrite !aggregate_loop_app.
    destruct (OddsScript.sports_loop target tol max before results out) as [? []];
      [|done].
    simpl. by rewrite limit_nil.
  - intros. rewrite !per_bookmaker_loop_app.
    by destruct (OddsFilterScript.sports_loop target tol before records out) as [? []].
Qed.

Lemma fetch_failure_skips_one_sport_witness :
  OddsScript.fetch_odds (Failed (RequestError "Read timed out."))
    = Raise (RequestError "Read timed out.")
  ∧ OddsScript.find_high_odds_events Samples.requests Samples.target Samples.tol None
    = (["Skipping sport soccer_spain_la_liga due to error: Read timed out."],
       snd (OddsScript.find_high_odds_events
              [("soccer_epl", Response 200 "OK" (Ok [Samples.event_near; Samples.event_far]));
               ("soccer_france_ligue_one", Response 200 "OK" (Ok [Samples.event_near]))]
              Samples.target Samples.tol None)).
Proof.
  assert (OddsScript.fetch_odds (Failed (RequestError "Read timed out."))
          = Raise (RequestError "Read timed out.")) as He by reflexivity.
  split; [exact He|].
  pose proof (proj1 (proj2 fetch_failure_skips_one_sport) Samples.target Samples.tol None
                [("soccer_epl",
                  Response 200 "OK" (Ok [Samples.event_near; Samples.event_far]))]
                "soccer_spain_la_liga" _
                [("soccer_italy_serie_a",
                  Response 404 "404 Client Error" (Raise (RequestError "no JSON")));
                 ("soccer_france_ligue_one", Response 200 "OK" (Ok [Samples.event_near]))]
                [] [] _ He) as Hskip.
  unfold OddsScript.find_high_odds_events.
  change Samples.requests with
    ([("soccer_epl", Response 200 "OK" (Ok [Samples.event_near; Samples.event_far]))]
     ++ ("soccer_spain_la_liga", Failed (RequestError "Read timed out."))
     :: [("soccer_italy_serie_a",
          Response 404 "404 Client Error" (Raise (RequestError "no JSON")));
         ("soccer_france_ligue_one", Response 200 "OK" (Ok [Samples.event_near]))]).
  rewrite Hskip. vm_compute. reflexivity.
Defined.

(** ** Prices that do not convert *)

(** The conversions the two extractors catch. *)
Lemma float_not_a_number x :
  x = PyNone ∨ x = PyList ∨ x = PyDict → float x = Raise TypeError.
Proof. by intros [->|[->| ->]]. Qed.

Lemma float_bad_text s : float_of_str s = None → float (PyStr s) = Raise ValueError.
Proof. simpl. by intros ->. Qed.

(** An outcome whose price raises [TypeError] or [ValueError] leaves the
    state of either extractor as it is. *)
Lemma aggregate_skips_unconvertible home_team away_team best o :
  float (o_price o) = Raise TypeError ∨ float (o_price o) = Raise ValueError →
  OddsScript.scan_outcome home_team away_team best o = Ok best.
Proof.
  unfold OddsScript.scan_outcome.
  destruct (OddsScript.outcome_key _ _ _); [|done]. by intros [-> | ->].
Qed.

Lemma per_bookmaker_skips_unconvertible event bookmaker market maps o :
  float (o_price o) = Raise TypeError ∨ float (o_price o) = Raise ValueError →
  OddsFilterScript.scan_outcome event bookmaker market maps o = Ok maps.
Proof.
  unfold OddsFilterScript.scan_outcome.
  destruct (OddsFilterScript.outcome_key _ _ _); [|done]. by intros [-> | ->].
Qed.

(** So the other outcomes are read as if it were not there. *)
Lemma unconvertible_price_is_dropped o :
  float (o_price o) = Raise TypeError ∨ float (o_price o) = Raise ValueError →
  (∀ home_team away_team before after best,
     for_each (OddsScript.scan_outcome home_team away_team) (before ++ o :: after) best
     = for_each (OddsScript.scan_outcome home_team away_team) (before ++ after) best)
  ∧ (∀ event bookmaker market before after maps,
       for_each (OddsFilterScript.scan_outcome event bookmaker market)
                (before ++ o :: after) maps
       = for_each (OddsFilterScript.scan_outcome event bookmaker market)
                  (before ++ after) maps).
Proof.
  intros Ho. split; intros; apply for_each_skip; intros.
  - by apply aggregate_skips_unconvertible.
  - by apply per_bookmaker_skips_unconvertible.
Qed.

Lemma null_and_text_prices_are_dropped :
  float PyNone = Raise TypeError
  ∧ float (PyStr "N/A") = Raise ValueError
  ∧ OddsFilterScript.extract_bookmaker_odds Samples.event_null
    = Ok [ {| OddsFilterScript.event_id := Some "e7";
              OddsFilterScript.sport_key := Some "soccer_epl";
              OddsFilterScript.commence_time := Some "2025-01-04T15:00:00Z";
              OddsFilterScript.home_team := Some "Arsenal";
              OddsFilterScript.away_team := Some "Chelsea";
              OddsFilterScript.bookmaker := Some "unibet";
              OddsFilterScript.bookmaker_title := Some "unibet";
              OddsFilterScript.home_odds := Samples.real "2.5";
              OddsFilterScript.draw_odds := Samples.real "3.4";
              OddsFilterScript.away_odds := Samples.real "3.0";
              OddsFilterScript.home_link := None;
              OddsFilterScript.draw_link := None;
              OddsFilterScript.away_link := None;
              OddsFilterScript.combined_product := None |} ]
  ∧ OddsScript.extract_three_way_odds Samples.event_null = Ok (Some Samples.odds_near).
Proof. repeat apply conj; vm_compute; reflexivity. Qed.

(** On data of the shape the records hold, the conversion of a price is
    all that can raise in an extractor, and what it lets through is
    [OverflowError], on an integer price too large for a float. *)
Lemma float_raises x e :
  float x = Raise e →
  match e with
  | TypeError => x = PyNone ∨ x = PyList ∨ x = PyDict
  | ValueError => ∃ s, x = PyStr s ∧ float_of_str s = None
  | OverflowError => ∃ z, x = PyInt z ∧ float_of_int z = Raise OverflowError
  | KeyError => False
  end.
Proof.
  destruct x as [|b|z|f|s| |]; simpl.
  - intros [= <-]. auto.
  - intros H. destruct b; vm_compute in H; discriminate H.
  - unfold float_of_int. destruct (binary_normalize _ _ _ _ _) eqn:Hz; try done.
    intros [= <-]. exists z. split; [done|]. unfold float_of_int. by rewrite Hz.
  - done.
  - destruct (float_of_str s) eqn:Hs; [done|]. intros [= <-]. eauto.
  - intros [= <-]. auto.
  - intros [= <-]. auto.
Qed.

(** What an extractor raises comes from [float]: an integer price, of an
    outcome it classifies, that is too large for a float. *)
Lemma aggregate_scan_raises home_team away_team best o e :
  OddsScript.scan_outcome home_team away_team best o = Raise e →
  e = OverflowError ∧ Spec.overflows o.
Proof.
  unfold OddsScript.scan_outcome.
  destruct (OddsScript.outcome_key _ _ _) as [key|]; [|done].
  destruct (float (o_price o)) as [v|e'] eqn:Hf.
  { destruct (best !! key); [destruct (fgt _ _)|]; done. }
  apply float_raises in Hf. destruct e'; try done. by intros [= <-].
Qed.

Lemma per_bookmaker_scan_raises event bookmaker market maps o e :
  OddsFilterScript.scan_outcome event bookmaker market maps o = Raise e →
  e = OverflowError ∧ Spec.overflows o.
Proof.
  unfold OddsFilterScript.scan_outcome.
  destruct (OddsFilterScript.outcome_key _ _ _) as [key|]; [|done].
  destruct (float (o_price o)) as [v|e'] eqn:Hf; [done|].
  apply float_raises in Hf. destruct e'; try done. by intros [= <-].
Qed.

Lemma extract_three_way_odds_raises event e :
  OddsScript.extract_three_way_odds event = Raise e →
  e = OverflowError ∧ ∃ o, o ∈ Spec.h2h_outcomes event ∧ Spec.overflows o.
Proof.
  rewrite extract_three_way_odds_loop.
  destruct (for_each _ _ ∅) as [best|e'] eqn:Hloop; [done|].
  intros [= ->]. apply for_each_Raise in Hloop as (o & best & Hin & Hr).
  apply aggregate_scan_raises in Hr as [-> Ho]. eauto.
Qed.

Lemma extract_bookmaker_odds_raises event e :
  OddsFilterScript.extract_bookmaker_odds event = Raise e →
  e = OverflowError ∧ ∃ o, o ∈ Spec.h2h_outcomes event ∧ Spec.overflows o.
Proof.
  rewrite extract_bookmaker_odds_loop.
  intros ([b m] & results & Hin & Hr)%for_each_Raise. simpl in Hr.
  destruct (for_each (OddsFilterScript.scan_outcome event b m) (m_outcomes m) (∅, ∅))
    as [maps|e'] eqn:Hloop.
  { destruct (scan_market_returns event b m results maps Hloop) as [? Hok].
    congruence. }
  unfold OddsFilterScript.scan_market in Hr.
  destruct (h2h m); [|done]. rewrite Hloop in Hr. injection Hr as ->.
  apply for_each_Raise in Hloop as (o & maps & Ho & Hr).
  apply per_bookmaker_scan_raises in Hr as [-> Hov]. split; [done|].
  exists o. split; [|done]. unfold Spec.h2h_outcomes.
  apply list_elem_of_In, in_flat_map. exists (b, m).
  by rewrite <- !list_elem_of_In.
Qed.

(** So an event without such a price is extracted without an exception,
    and on such data no run ends on any other exception than
    [OverflowError]. (Data of another shape, a name that is null say, is
    not covered: see [Api].) *)
Lemma extraction_returns event :
  (∀ o, o ∈ Spec.h2h_outcomes event → ¬ Spec.overflows o) →
  (∃ r, OddsScript.extract_three_way_odds event = Ok r)
  ∧ (∃ recs, OddsFilterScript.extract_bookmaker_odds event = Ok recs).
Proof.
  intros Hno. split.
  - destruct (OddsScript.extract_three_way_odds event) as [r|e] eqn:Hx; [eauto|].
    apply extract_three_way_odds_raises in Hx as (_ & o & Hin & Ho).
    by apply Hno in Ho.
  - destruct (OddsFilterScript.extract_bookmaker_odds event) as [r|e] eqn:Hx; [eauto|].
    apply extract_bookmaker_odds_raises in Hx as (_ & o & Hin & Ho).
    by apply Hno in Ho.
Qed.

Lemma aggregate_check_raises target tol results event e :
  OddsScript.check_event target tol results event = Raise e → e = OverflowError.
Proof.
  unfold OddsScript.check_event.
  destruct (OddsScript.extract_three_way_odds event) as [[odds|]|e'] eqn:Hx; simpl.
  - destruct (extract_three_way_odds_keys _ _ Hx) as (h & d & a & Hh & Hd & Ha).
    unfold getitem. rewrite Hh, Hd, Ha. simpl. by destruct (OddsScript.all_near _ _ _).
  - done.
  - intros [= ->]. by apply extract_three_way_odds_raises in Hx as [-> _].
Qed.

Lemma only_overflow_ends_a_run :
  (∀ requests target tol max out e,
     OddsScript.find_high_odds_events requests target tol max = (out, Raise e) →
     e = OverflowError)
  ∧ (∀ requests target tol records out out' e,
       OddsFilterScript.sports_loop target tol requests records out = (out', Raise e) →
       e = OverflowError).
Proof.
  split.
  - intros requests target tol max out e. unfold OddsScript.find_high_odds_events.
    generalize (@nil OddsScript.Result) (@nil string).
    induction requests as [|[key reply] requests IH]; intros results out0; simpl.
    { done. }
    destruct (OddsScript.fetch_odds reply) as [events|x]; [|apply IH].
    destruct (for_each _ _ results) as [results1|e1] eqn:Hev; [apply IH|].
    simpl. intros [= <- <-].
    apply for_each_Raise in Hev as (event & rs & _ & Hr).
    by apply aggregate_check_raises in Hr.
  - intros requests target tol.
    induction requests as [|[key reply] requests IH]; intros records out out' e; simpl.
    { done. }
    destruct (OddsFilterScript.fetch_odds reply) as [events|x]; [|apply IH].
    destruct (for_each _ _ records) as [records1|e1] eqn:Hev; [apply IH|].
    intros [= <- <-].
    apply for_each_Raise in Hev as (event & rs & _ & Hr).
    unfold OddsFilterScript.check_event in Hr.
    destruct (OddsFilterScript.extract_bookmaker_odds event) as [recs|e2] eqn:Hx;
      [done|].
    simpl in Hr. injection Hr as ->.
    by apply extract_bookmaker_odds_raises in Hx as [-> _].
Qed.

(** C7 at the failing input: the draw price of the event is an integer of
    401 digits. [float] raises [OverflowError], which neither extractor
    catches, so the extraction of the event raises instead of dropping the
    outcome, and with it the whole run, where the claim has the outcome
    discarded without an exception. *)
Theorem huge_integer_price_raises :
  float (PyInt (10 ^ 400)) = Raise OverflowError
  ∧ OddsScript.extract_three_way_odds Samples.event_huge = Raise OverflowError
  ∧ OddsFilterScript.extract_bookmaker_odds Samples.event_huge = Raise OverflowError
  ∧ OddsScript.find_high_odds_events Samples.huge_requests Samples.target Samples.tol None
    = ([], Raise OverflowError)
  ∧ OddsFilterScript.sports_loop Samples.target Samples.tol Samples.huge_requests [] []
    = ([], Raise OverflowError).
Proof. repeat apply conj; vm_compute; reflexivity. Qed.

(** ** How many records an event gives *)

(** Each h2h market gives at most one record, and the aggregate script at
    most one entry per event. *)
Lemma records_at_most_markets event recs :
  OddsFilterScript.extract_bookmaker_odds event = Ok recs →
  (length recs ≤ length (Spec.h2h_markets event))%nat.
Proof.
  rewrite extract_bookmaker_odds_loop. intros Hx.
  apply scan_pairs_records in Hx as (recs' & Heq & HF); [|apply h2h_markets_h2h].
  simpl in Heq. subst recs'.
  apply Forall2_length in HF. rewrite <- HF. apply List.filter_length_le.
Qed.

Lemma entries_at_most_one target tol event results results' :
  OddsScript.check_event target tol results event = Ok results' →
  ∃ new, results' = results ++ new ∧ (length new ≤ 1)%nat.
Proof.
  intros [[-> _]|(r & -> & _)]%check_event_entry.
  - exists []. split; [by rewrite app_nil_r|simpl; lia].
  - exists [r]. split; [done|simpl; lia].
Qed.

(** C9 at the failing input: the single bookmaker of the event lists the
    h2h market twice, both times with all three outcomes, and
    [extract_bookmaker_odds] returns two records for that one bookmaker,
    where the claim and the docstring of [find_events_with_target_odds]
    have one per event and bookmaker. *)
Theorem bookmaker_with_two_markets_gives_two_records :
  length (e_bookmakers Samples.event_twice) = 1
  ∧ (∃ r1 r2,
       OddsFilterScript.extract_bookmaker_odds Samples.event_twice = Ok [r1; r2]
       ∧ OddsFilterScript.bookmaker r1 = Some "unibet"
       ∧ OddsFilterScript.bookmaker r2 = Some "unibet"
       ∧ OddsFilterScript.event_id r1 = OddsFilterScript.event_id r2).
Proof. split; [reflexivity|]. eexists _, _. repeat apply conj; vm_compute; reflexivity. Qed.

(** ** Worked examples *)

(** The example of the specification: with target 3.0 and tolerance 0.6
    the prices 2.5, 3.4, 3.0 pass and their product is 25.5; with 2.0 at
    home the event is left out. *)
Lemma example_target_three :
  Spec.all_three_near (Samples.real "3.0") (Samples.real "0.6")
    (Samples.real "2.5") (Samples.real "3.4") (Samples.real "3.0")
  ∧ fmul (fmul (Samples.real "2.5") (Samples.real "3.4")) (Samples.real "3.0")
    = Samples.real "25.5"
  ∧ OddsFilterScript.near (Samples.real "3.0") (Samples.real "0.6") (Samples.real "2.0")
    = false
  ∧ OddsFilterScript.sports_loop Samples.target Samples.tol
      [("soccer_epl", Response 200 "OK" (Ok [Samples.event_near; Samples.event_far]))]
      [] []
    = ([], Ok [Samples.row_near])
  ∧ OddsFilterScript.combined_product Samples.row_near = Some (Samples.real "25.5").
Proof. repeat apply conj; vm_compute; reflexivity. Qed.

(** The boundary is inclusive: a price at distance 0.5 from the target
    passes a tolerance of 0.5. The distance is the rounded difference of
    the two floats, so the decimal bounds 2.4 and 3.6 of the interval
    around 3.0 with tolerance 0.6 do not pass: 3.0 - 2.4 evaluates to
    0.6000000000000001. *)
Lemma boundary_is_inclusive :
  OddsScript.near (Samples.real "3.0") (Samples.real "0.5") (Samples.real "3.5") = true
  ∧ OddsScript.near (Samples.real "3.0") (Samples.real "0.5") (Samples.real "2.5") = true
  ∧ fabs (fsub (Samples.real "2.4") (Samples.real "3.0"))
    = Samples.real "0.6000000000000001"
  ∧ OddsScript.near (Samples.real "3.0") (Samples.real "0.6") (Samples.real "2.4") = false
  ∧ OddsScript.near (Samples.real "3.0") (Samples.real "0.6") (Samples.real "3.6") = false.
Proof. repeat apply conj; vm_compute; reflexivity. Qed.

(** A product can be NaN: with an infinite tolerance the prices infinity
    and 0 both pass. *)
Lemma product_can_be_nan :
  ∃ r, OddsScript.find_high_odds_events
         [("soccer_epl", Response 200 "OK" (Ok [Samples.event_inf]))]
         (Samples.real "3.0") (S754_infinity false) None
       = ([], Ok [r])
       ∧ OddsScript.combined_product r = S754_nan.
Proof. eexists. split; vm_compute; reflexivity. Qed.

(** [float] on the prices a reply can hold. *)
Lemma float_examples :
  float (PyStr "2.5") = Ok (Samples.real "2.5")
  ∧ float (PyInt 3) = Ok (Samples.real "3.0")
  ∧ float (PyBool true) = Ok (Samples.real "1")
  ∧ float (PyStr " 1_0.5e1 ") = Ok (Samples.real "105")
  ∧ float (PyStr "Infinity") = Ok (S754_infinity false)
  ∧ float (PyStr "-nan") = Ok S754_nan
  ∧ float (PyStr "1e400") = Ok (S754_infinity false)
  ∧ float (PyStr "") = Raise ValueError
  ∧ float (PyStr "N/A") = Raise ValueError
  ∧ float (PyStr "3,5") = Raise ValueError
  ∧ float PyNone = Raise TypeError
  ∧ float PyList = Raise TypeError
  ∧ float (PyInt (2 ^ 1024)) = Raise OverflowError
  ∧ float (PyInt (2 ^ 1024 - 2 ^ 970 - 1))
    = Ok (S754_finite false 9007199254740991 971).
Proof. repeat apply conj; vm_compute; reflexivity. Qed.

(** * Further properties of the two scripts *)

(** ** What a run prints *)

Lemma aggregate_loop_out target tol max requests results out out' results' :
  OddsScript.sports_loop target tol max requests results out = (out', Ok results') →
  out' = out ++ map (fun f => OddsScript.skip_message f.1 f.2)
                    (Terms.failed_fetches OddsScript.fetch_odds requests).
Proof.
  revert results out. induction requests as [|[key reply] requests IH];
    intros results out; simpl.
  { intros [= <- <-]. by rewrite app_nil_r. }
  unfold Terms.failed_fetches. cbn [omap list_omap fst snd].
  destruct (OddsScript.fetch_odds reply) as [events|e].
  - destruct (for_each _ _ results); [|done]. apply IH.
  - intros H%IH. rewrite H, <- app_assoc. done.
Qed.

Lemma per_bookmaker_loop_out target tol requests records out out' records' :
  OddsFilterScript.sports_loop target tol requests records out = (out', Ok records') →
  out' = out ++ map (fun f => OddsFilterScript.error_message f.1 f.2)
                    (Terms.failed_fetches OddsFilterScript.fetch_odds requests).
Proof.
  revert records out. induction requests as [|[key reply] requests IH];
    intros records out; simpl.
  { intros [= <- <-]. by rewrite app_nil_r. }
  unfold Terms.failed_fetches. cbn [omap list_omap fst snd].
  destruct (OddsFilterScript.fetch_odds reply) as [events|e].
  - destruct (for_each _ _ records); [|done]. apply IH.
  - intros H%IH. rewrite H, <- app_assoc. done.
Qed.

Lemma failed_fetches_length fetch requests :
  (length (Terms.failed_fetches fetch requests) ≤ length requests)%nat.
Proof.
  induction requests as [|req requests IH]; [done|].
  unfold Terms.failed_fetches in *. cbn [omap list_omap].
  destruct (fetch req.2); simpl; lia.
Qed.

(** X1. A run that returns has printed exactly one line for each sport
    key whose fetch raised, in the order of the keys, each naming its key
    and the text of the exception, and nothing else; the target and the
    tolerance have no part in it. *)
Theorem printed_lines_are_the_failed_fetches :
  (∀ requests target tol max out results,
     OddsScript.find_high_odds_events requests target tol max = (out, Ok results) →
     out = map (fun f => "Skipping sport " +:+ f.1 +:+ " due to error: " +:+ text_of f.2)
               (Terms.failed_fetches OddsScript.fetch_odds requests))
  ∧ (∀ requests target tol out df,
       OddsFilterScript.find_events_with_target_odds requests target tol out df →
       out = map (fun f => "Error fetching odds for " +:+ f.1 +:+ ": " +:+ text_of f.2)
                 (Terms.failed_fetches OddsFilterScript.fetch_odds requests)).
Proof.
  split.
  - intros requests target tol max out results.
    unfold OddsScript.find_high_odds_events.
    destruct (OddsScript.sports_loop _ _ _ _ _ _) as [out' [passing|e]] eqn:Hloop;
      [|done].
    intros [= <- _]. by apply aggregate_loop_out in Hloop.
  - intros requests target tol out df (records & Hloop & _).
    by apply per_bookmaker_loop_out in Hloop.
Qed.

Lemma printed_lines_are_the_failed_fetches_witness :
  ∃ results,
    OddsScript.find_high_odds_events Samples.requests Samples.target Samples.tol None
    = (["Skipping sport soccer_spain_la_liga due to error: Read timed out."], Ok results).
Proof.
  destruct (OddsScript.find_high_odds_events Samples.requests Samples.target
              Samples.tol None) as [out [results|e]] eqn:Hrun.
  2:{ vm_compute in Hrun. discriminate Hrun. }
  exists results.
  rewrite (proj1 printed_lines_are_the_failed_fetches _ _ _ _ _ _ Hrun).
  reflexivity.
Defined.

(** ** How many records a run returns *)

Lemma events_loop_length target tol events results results' :
  for_each (OddsScript.check_event target tol) events results = Ok results' →
  (length results' ≤ length results + length events)%nat.
Proof.
  revert results. induction events as [|event events IH]; intros results; simpl.
  { intros [= <-]. lia. }
  intros (results1 & H1 & H2)%bind_Ok.
  apply entries_at_most_one in H1 as (new & -> & Hnew).
  apply IH in H2. rewrite length_app in H2. lia.
Qed.

Lemma aggregate_loop_length target tol max requests results out out' results' :
  OddsScript.sports_loop target tol max requests results out = (out', Ok results') →
  (length results'
   ≤ length results
     + length (Spec.aggregate_events max requests))%nat.
Proof.
  unfold Spec.aggregate_events, Spec.fetched.
  revert results out. induction requests as [|[key reply] requests IH];
    intros results out; simpl.
  { intros [= <- <-]. lia. }
  destruct (OddsScript.fetch_odds reply) as [events|e]; simpl.
  - destruct (for_each _ _ results) as [results1|] eqn:Hev; [|done].
    intros H%IH. apply events_loop_length in Hev. rewrite length_app. lia.
  - apply IH.
Qed.

Lemma rows_loop_length target tol events records records' :
  for_each (OddsFilterScript.check_event target tol) events records = Ok records' →
  (length records'
   ≤ length records + length (flat_map Spec.h2h_markets events))%nat.
Proof.
  revert records. induction events as [|event events IH]; intros records; simpl.
  { intros [= <-]. lia. }
  intros (records1 & H1 & H2)%bind_Ok.
  unfold OddsFilterScript.check_event in H1.
  apply bind_Ok in H1 as (recs & Hx & [= <-]).
  apply records_at_most_markets in Hx. apply IH in H2.
  assert (∀ recs0 records0,
            (length (fold_left (OddsFilterScript.check_record target tol) recs0 records0)
             ≤ length records0 + length recs0)%nat) as Hfold.
  { induction recs0 as [|rec recs0 IHr]; intros records0; simpl; [lia|].
    etransitivity; [apply IHr|]. unfold OddsFilterScript.check_record.
    destruct (_ && _ && _); rewrite ?length_app; simpl; lia. }
  specialize (Hfold recs records). rewrite length_app. lia.
Qed.

Lemma per_bookmaker_loop_length target tol requests records out out' records' :
  OddsFilterScript.sports_loop target tol requests records out = (out', Ok records') →
  (length records'
   ≤ length records
     + length (flat_map Spec.h2h_markets (Spec.per_bookmaker_events requests)))%nat.
Proof.
  unfold Spec.per_bookmaker_events, Spec.fetched.
  revert records out. induction requests as [|[key reply] requests IH];
    intros records out; simpl.
  { intros [= <- <-]. lia. }
  destruct (OddsFilterScript.fetch_odds reply) as [events|e]; simpl.
  - destruct (for_each _ _ records) as [records1|] eqn:Hev; [|done].
    intros H%IH. apply rows_loop_length in Hev.
    rewrite flat_map_app, length_app. lia.
  - apply IH.
Qed.

(** X2. A run of the aggregate script returns no more entries than the
    events it fetched, and a run of the per-bookmaker script no more rows
    than those events have h2h markets. *)
Theorem records_bounded_by_fetched_data :
  (∀ requests target tol max out results,
     OddsScript.find_high_odds_events requests target tol max = (out, Ok results) →
     (length results ≤ length (Spec.aggregate_events max requests))%nat)
  ∧ (∀ requests target tol out df,
       OddsFilterScript.find_events_with_target_odds requests target tol out df →
       (length df
        ≤ length (flat_map Spec.h2h_markets (Spec.per_bookmaker_events requests)))%nat).
Proof.
  split.
  - intros requests target tol max out results.
    unfold OddsScript.find_high_odds_events.
    destruct (OddsScript.sports_loop _ _ _ _ _ _) as [out' [passing|e]] eqn:Hloop;
      [|done].
    intros [= _ <-]. rewrite sort_reverse_Permutation.
    by apply aggregate_loop_length in Hloop.
  - intros requests target tol out df (records & Hloop & Hperm & _).
    rewrite <- Hperm. by apply per_bookmaker_loop_length in Hloop.
Qed.

Lemma records_bounded_by_fetched_data_witness :
  ∃ out results,
    OddsScript.find_high_odds_events Samples.requests Samples.target Samples.tol None
    = (out, Ok results)
    ∧ (length results ≤ 3)%nat.
Proof.
  destruct (OddsScript.find_high_odds_events Samples.requests Samples.target
              Samples.tol None) as [out [results|e]] eqn:Hrun.
  2:{ vm_compute in Hrun. discriminate Hrun. }
  exists out, results. split; [reflexivity|].
  exact (proj1 records_bounded_by_fetched_data _ _ _ _ _ _ Hrun).
Defined.

(** ** The limit on the events of a sport *)

Lemma limit_length n events :
  (0 < n)%Z → (length (OddsScript.limit (Some n) events) ≤ Z.to_nat n)%nat.
Proof.
  intros Hn. unfold OddsScript.limit, slice_to.
  destruct (Z.eqb_spec n 0); [lia|]. destruct (Z.ltb_spec n 0); [lia|].
  rewrite length_take. apply Nat.le_min_l.
Qed.

Lemma aggregate_events_length n requests :
  (0 < n)%Z →
  (length (Spec.aggregate_events (Some n) requests) ≤ Z.to_nat n * length requests)%nat.
Proof.
  intros Hn. unfold Spec.aggregate_events, Spec.fetched.
  induction requests as [|[key reply] requests IH]; simpl; [lia|].
  rewrite length_app.
  assert (length match bind (OddsScript.fetch_odds reply)
                         (fun events => Ok (OddsScript.limit (Some n) events)) with
                 | Ok events => events
                 | Raise _ => []
                 end ≤ Z.to_nat n)%nat as Hone.
  { destruct (OddsScript.fetch_odds reply); simpl; [by apply limit_length|lia]. }
  rewrite Nat.mul_succ_r. etransitivity; [apply Nat.add_le_mono; [exact Hone|exact IH]|].
  lia.
Qed.

(** X3. [max_events_per_sport]: a positive limit [n] lets a run return at
    most [n] entries per sport key; a limit of 0 limits nothing, the run
    is the run without a limit; a negative limit [-k] leaves out the last
    [k] events of each sport. *)
Theorem max_events_per_sport_limits :
  (∀ n requests target tol out results,
     (0 < n)%Z →
     OddsScript.find_high_odds_events requests target tol (Some n) = (out, Ok results) →
     (length results ≤ Z.to_nat n * length requests)%nat)
  ∧ (∀ requests target tol,
       OddsScript.find_high_odds_events requests target tol (Some 0%Z)
       = OddsScript.find_high_odds_events requests target tol None)
  ∧ (∀ k events,
       (0 < k)%Z →
       OddsScript.limit (Some (- k)%Z) events
       = take (length events - Z.to_nat k) events).
Proof.
  split; [|split].
  - intros n requests target tol out results Hn Hrun.
    unfold OddsScript.find_high_odds_events in Hrun.
    destruct (OddsScript.sports_loop _ _ _ _ _ _) as [out' [passing|e]] eqn:Hloop;
      [|done].
    injection Hrun as _ <-. rewrite sort_reverse_Permutation.
    apply aggregate_loop_length in Hloop. simpl in Hloop.
    etransitivity; [exact Hloop|]. by apply aggregate_events_length.
  - intros requests target tol. unfold OddsScript.find_high_odds_events.
    f_equal. generalize (@nil OddsScript.Result) (@nil string).
    induction requests as [|[key reply] requests IH]; intros results out; [done|].
    simpl. destruct (OddsScript.fetch_odds reply); [|apply IH].
    destruct (for_each _ _ results); [apply IH|done].
  - intros k events Hk. unfold OddsScript.limit, slice_to.
    destruct (Z.eqb_spec (- k) 0); [lia|]. destruct (Z.ltb_spec (- k) 0); [|lia].
    f_equal. lia.
Qed.

Lemma max_events_per_sport_limits_witness :
  ∃ out results,
    OddsScript.find_high_odds_events Samples.requests Samples.target Samples.tol
      (Some 1%Z) = (out, Ok results)
    ∧ (length results ≤ 4)%nat.
Proof.
  destruct (OddsScript.find_high_odds_events Samples.requests Samples.target
              Samples.tol (Some 1%Z)) as [out [results|e]] eqn:Hrun.
  2:{ vm_compute in Hrun. discriminate Hrun. }
  exists out, results. split; [reflexivity|].
  apply (proj1 max_events_per_sport_limits 1%Z _ _ _ _ _ (eq_refl : (0 < 1)%Z) Hrun).
Defined.

(** ** The tolerance and the target *)

Lemma near_widens target tol tol' x :
  fle tol tol' = true →
  fle (fabs (fsub x target)) tol = true → fle (fabs (fsub x target)) tol' = true.
Proof. intros Htol Hx. by eapply fle_trans. Qed.

Lemma fabs_not_below_zero y tol : fle (fabs y) tol = true → fle Terms.zero tol = true.
Proof. unfold Terms.zero, fabs. float_cases y; float_cases tol; intros; float_order. Qed.

Lemma fsub_nan_r x : fsub x S754_nan = S754_nan.
Proof. by float_cases x. Qed.

Lemma near_finite target tol x :
  Terms.finite target = true → Terms.finite tol = true →
  fle (fabs (fsub x target)) tol = true → Terms.finite x = true.
Proof.
  float_cases x; float_cases target; float_cases tol; try done.
Qed.

Lemma all_three_near_widens target tol tol' h d a :
  fle tol tol' = true →
  Spec.all_three_near target tol h d a → Spec.all_three_near target tol' h d a.
Proof.
  intros Htol (Hh & Hd & Ha). repeat split; by eapply near_widens.
Qed.

(** Whether a run returns does not depend on the target and the
    tolerance. *)
Lemma aggregate_check_returns target tol results event :
  (∃ results', OddsScript.check_event target tol results event = Ok results')
  ↔ ∃ odds, OddsScript.extract_three_way_odds event = Ok odds.
Proof.
  unfold OddsScript.check_event. split.
  - intros (results' & (odds & Hx & _)%bind_Ok). eauto.
  - intros ([odds|] & Hx); rewrite Hx; simpl; [|eauto].
    destruct (extract_three_way_odds_keys _ _ Hx) as (h & d & a & Hh & Hd & Ha).
    unfold getitem. rewrite Hh, Hd, Ha. simpl.
    destruct (OddsScript.all_near target tol odds); eauto.
Qed.

Lemma aggregate_events_return target tol target' tol' events results results' results1 :
  for_each (OddsScript.check_event target tol) events results = Ok results1 →
  ∃ results2, for_each (OddsScript.check_event target' tol') events results' = Ok results2.
Proof.
  revert results results'. induction events as [|event events IH];
    intros results results'; simpl; [eauto|].
  intros (r1 & H1 & H2)%bind_Ok.
  destruct (proj2 (aggregate_check_returns target' tol' results' event)) as [r2 Hr2].
  { apply (aggregate_check_returns target tol results event). eauto. }
  rewrite Hr2. simpl. eapply IH. exact H2.
Qed.

Lemma aggregate_loop_returns target tol target' tol' max requests results results' out
    out1 results1 :
  OddsScript.sports_loop target tol max requests results out = (out1, Ok results1) →
  ∃ results2,
    OddsScript.sports_loop target' tol' max requests results' out = (out1, Ok results2).
Proof.
  revert results results' out. induction requests as [|[key reply] requests IH];
    intros results results' out; simpl.
  { intros [= <- <-]. eauto. }
  destruct (OddsScript.fetch_odds reply) as [events|e]; [|apply IH].
  destruct (for_each (OddsScript.check_event target tol) _ results) as [r1|] eqn:Hev;
    [|done].
  destruct (aggregate_events_return _ _ target' tol' _ _ results' _ Hev) as [r2 Hr2].
  rewrite Hr2. apply IH.
Qed.

Lemma per_bookmaker_loop_returns target tol target' tol' requests records records' out
    out1 records1 :
  OddsFilterScript.sports_loop target tol requests records out = (out1, Ok records1) →
  ∃ records2,
    OddsFilterScript.sports_loop target' tol' requests records' out = (out1, Ok records2).
Proof.
  revert records records' out. induction requests as [|[key reply] requests IH];
    intros records records' out; simpl.
  { intros [= <- <-]. eauto. }
  destruct (OddsFilterScript.fetch_odds reply) as [events|e]; [|apply IH].
  destruct (for_each (OddsFilterScript.check_event target tol) _ records)
    as [r1|] eqn:Hev; [|done].
  assert (∃ r2, for_each (OddsFilterScript.check_event target' tol') events records'
                = Ok r2) as [r2 Hr2].
  { clear IH. revert records records' r1 Hev.
    induction events as [|event events IHe]; intros records records' r1; simpl; [eauto|].
    intros (r & H1 & H2)%bind_Ok. unfold OddsFilterScript.check_event in *.
    apply bind_Ok in H1 as (recs & Hx & _). rewrite Hx. simpl. eapply IHe. exact H2. }
  rewrite Hr2. apply IH.
Qed.

(** X4. Widening the tolerance never loses a record: if a run returns with
    tolerance [tol] and [tol <= tol'], the run with [tol'] returns too,
    prints the same lines, and holds every record of the first run. *)
Theorem wider_tolerance_keeps_records :
  (∀ requests target tol tol' max out results,
     fle tol tol' = true →
     OddsScript.find_high_odds_events requests target tol max = (out, Ok results) →
     ∃ results',
       OddsScript.find_high_odds_events requests target tol' max = (out, Ok results')
       ∧ ∀ r, r ∈ results → r ∈ results')
  ∧ (∀ requests target tol tol' out df,
       fle tol tol' = true →
       OddsFilterScript.find_events_with_target_odds requests target tol out df →
       ∃ passing',
         OddsFilterScript.sports_loop target tol' requests [] [] = (out, Ok passing')
         ∧ (∀ r, r ∈ df → r ∈ passing')
         ∧ ∀ out' df',
             OddsFilterScript.find_events_with_target_odds requests target tol' out' df' →
             out' = out ∧ ∀ r, r ∈ df → r ∈ df').
Proof.
  split.
  - intros requests target tol tol' max out results Htol.
    unfold OddsScript.find_high_odds_events.
    destruct (OddsScript.sports_loop target tol _ _ _ _) as [out1 [passing|e]] eqn:Hloop;
      [|done].
    intros [= <- <-].
    destruct (aggregate_loop_returns _ _ target tol' _ _ _ [] _ _ _ Hloop)
      as [passing' Hloop'].
    rewrite Hloop'. simpl. eexists. split; [done|].
    intros r. rewrite !sort_reverse_Permutation.
    rewrite (aggregate_loop_entries _ _ _ _ _ _ _ _ Hloop),
      (aggregate_loop_entries _ _ _ _ _ _ _ _ Hloop').
    intros [[]%elem_of_nil|(event & Hin & odds & h & d & a & Hx & Hh & Hd & Ha & Hn & ->)].
    right. exists event. split; [done|]. exists odds, h, d, a.
    do 4 (split; [done|]). split; [by eapply all_three_near_widens|done].
  - intros requests target tol tol' out df Htol (passing & Hloop & Hperm & _).
    destruct (per_bookmaker_loop_returns _ _ target tol' _ _ [] _ _ _ Hloop)
      as [passing' Hloop'].
    assert (∀ r, r ∈ df → r ∈ passing') as Hsub.
    { intros r. rewrite <- Hperm.
      rewrite (per_bookmaker_loop_rows _ _ _ _ _ _ _ Hloop),
        (per_bookmaker_loop_rows _ _ _ _ _ _ _ Hloop').
      intros [[]%elem_of_nil|(event & Hin & recs & rec & Hx & Hrec & Hn & ->)].
      right. exists event. split; [done|]. exists recs, rec.
      do 2 (split; [done|]). split; [by eapply all_three_near_widens|done]. }
    exists passing'. split; [done|]. split; [done|].
    intros out' df' (passing'' & Hloop'' & Hperm' & _).
    rewrite Hloop' in Hloop''. injection Hloop'' as <- <-.
    split; [done|]. intros r Hr. rewrite <- Hperm'. by apply Hsub.
Qed.

Lemma wider_tolerance_keeps_records_witness :
  fle Samples.tol (Samples.real "1.5") = true
  ∧ ∃ out results results',
      OddsScript.find_high_odds_events Samples.requests Samples.target Samples.tol None
      = (out, Ok results)
      ∧ OddsScript.find_high_odds_events Samples.requests Samples.target
          (Samples.real "1.5") None = (out, Ok results')
      ∧ ∀ r, r ∈ results → r ∈ results'.
Proof.
  assert (fle Samples.tol (Samples.real "1.5") = true) as Htol by (vm_compute; reflexivity).
  split; [exact Htol|].
  destruct (OddsScript.find_high_odds_events Samples.requests Samples.target
              Samples.tol None) as [out [results|e]] eqn:Hrun.
  2:{ vm_compute in Hrun. discriminate Hrun. }
  destruct (proj1 wider_tolerance_keeps_records _ _ _ _ _ _ _ Htol Hrun)
    as (results' & Hrun' & Hsub).
  exists out, results, results'. auto.
Defined.

Lemma aggregate_run_entries requests target tol max out results :
  OddsScript.find_high_odds_events requests target tol max = (out, Ok results) →
  ∀ r, r ∈ results ↔
       ∃ event, event ∈ Spec.aggregate_events max requests
                ∧ Spec.aggregate_entry target tol event r.
Proof.
  unfold OddsScript.find_high_odds_events.
  destruct (OddsScript.sports_loop _ _ _ _ _ _) as [out' [passing|e]] eqn:Hloop; [|done].
  intros [= _ <-] r.
  rewrite sort_reverse_Permutation, (aggregate_loop_entries _ _ _ _ _ _ _ _ Hloop).
  split; [intros [[]%elem_of_nil|]; done|auto].
Qed.

Lemma per_bookmaker_run_rows requests target tol out df :
  OddsFilterScript.find_events_with_target_odds requests target tol out df →
  ∀ r, r ∈ df ↔
       ∃ event, event ∈ Spec.per_bookmaker_events requests
                ∧ Spec.bookmaker_row target tol event r.
Proof.
  intros (records & Hloop & Hperm & _) r.
  rewrite <- Hperm, (per_bookmaker_loop_rows _ _ _ _ _ _ _ Hloop).
  split; [intros [[]%elem_of_nil|]; done|auto].
Qed.

Lemma near_impossible target tol x :
  is_nan target = true ∨ is_nan tol = true ∨ flt tol Terms.zero = true →
  fle (fabs (fsub x target)) tol = false.
Proof.
  intros [Ht|[Ht|Ht]].
  - destruct target; try done. by rewrite fsub_nan_r.
  - destruct tol; try done. by float_cases (fabs (fsub x S754_nan)); destruct (fabs _).
  - destruct (fle (fabs (fsub x target)) tol) eqn:Hx; [|done].
    apply fabs_not_below_zero in Hx. apply flt_not_fle in Ht. congruence.
Qed.

(** X5. With a tolerance that is negative or NaN, or a target that is
    NaN, no record passes: a run that returns, returns nothing. *)
Theorem nothing_passes_a_void_tolerance :
  ∀ target tol,
    is_nan target = true ∨ is_nan tol = true ∨ flt tol Terms.zero = true →
    (∀ requests max out results,
       OddsScript.find_high_odds_events requests target tol max = (out, Ok results) →
       results = [])
    ∧ (∀ requests out df,
         OddsFilterScript.find_events_with_target_odds requests target tol out df →
         df = []).
Proof.
  intros target tol Hvoid. split.
  - intros requests max out [|r results] Hrun; [done|].
    destruct (proj1 (aggregate_run_entries _ _ _ _ _ _ Hrun r))
      as (event & _ & odds & h & d & a & _ & _ & _ & _ & [Hn _] & _); [left|].
    by rewrite near_impossible in Hn.
  - intros requests out [|r df] Hrun; [done|].
    destruct (proj1 (per_bookmaker_run_rows _ _ _ _ _ Hrun r))
      as (event & _ & recs & rec & _ & _ & [Hn _] & _); [left|].
    by rewrite near_impossible in Hn.
Qed.

Lemma nothing_passes_a_void_tolerance_witness :
  flt (Samples.real "-0.5") Terms.zero = true
  ∧ OddsScript.find_high_odds_events Samples.requests Samples.target
      (Samples.real "-0.5") None
    = (["Skipping sport soccer_spain_la_liga due to error: Read timed out."], Ok []).
Proof.
  assert (flt (Samples.real "-0.5") Terms.zero = true) as Hneg by (vm_compute; reflexivity).
  split; [exact Hneg|].
  destruct (OddsScript.find_high_odds_events Samples.requests Samples.target
              (Samples.real "-0.5") None) as [out [results|e]] eqn:Hrun.
  2:{ vm_compute in Hrun. discriminate Hrun. }
  rewrite (proj1 (nothing_passes_a_void_tolerance Samples.target (Samples.real "-0.5")
                    (or_intror (or_intror Hneg))) _ _ _ _ Hrun) in *.
  vm_compute in Hrun. injection Hrun as <-. reflexivity.
Defined.

(** X6. With a finite target and a finite tolerance every price of every
    returned record is finite: neither NaN nor an infinity passes. *)
Theorem passing_prices_are_finite :
  ∀ target tol,
    Terms.finite target = true → Terms.finite tol = true →
    (∀ requests max out results r,
       OddsScript.find_high_odds_events requests target tol max = (out, Ok results) →
       r ∈ results →
       ∃ h d a, Terms.entry_prices r = Some (h, d, a)
                ∧ Terms.finite h = true ∧ Terms.finite d = true
                ∧ Terms.finite a = true)
    ∧ (∀ requests out df r,
         OddsFilterScript.find_events_with_target_odds requests target tol out df →
         r ∈ df →
         Terms.finite (OddsFilterScript.home_odds r) = true
         ∧ Terms.finite (OddsFilterScript.draw_odds r) = true
         ∧ Terms.finite (OddsFilterScript.away_odds r) = true).
Proof.
  intros target tol Ht Htol. split.
  - intros requests max out results r Hrun Hr.
    apply (aggregate_run_entries _ _ _ _ _ _ Hrun) in Hr
      as (event & _ & odds & h & d & a & _ & Hh & Hd & Ha & (Hnh & Hnd & Hna) & ->).
    exists h, d, a. unfold Terms.entry_prices. simpl. rewrite Hh, Hd, Ha.
    repeat split; by apply (near_finite target tol).
  - intros requests out df r Hrun Hr.
    apply (per_bookmaker_run_rows _ _ _ _ _ Hrun) in Hr
      as (event & _ & recs & rec & _ & _ & (Hnh & Hnd & Hna) & ->).
    simpl. repeat split; by apply (near_finite target tol).
Qed.

Lemma passing_prices_are_finite_witness :
  Terms.finite Samples.target = true ∧ Terms.finite Samples.tol = true
  ∧ ∃ out df,
      OddsFilterScript.find_events_with_target_odds Samples.requests Samples.target
        Samples.tol out df
      ∧ Samples.row_near ∈ df
      ∧ Terms.finite (OddsFilterScript.home_odds Samples.row_near) = true.
Proof.
  split; [reflexivity|]. split; [reflexivity|].
  assert (OddsFilterScript.find_events_with_target_odds Samples.requests
            Samples.target Samples.tol
            ["Error fetching odds for soccer_spain_la_liga: Read timed out."]
            [Samples.row_near; Samples.row_near]) as Hrun.
  { exists [Samples.row_near; Samples.row_near].
    split; [vm_compute; reflexivity|]. split; [reflexivity|].
    repeat constructor; right; vm_compute; reflexivity. }
  eexists _, _. split; [exact Hrun|]. split; [left|].
  apply (proj2 (passing_prices_are_finite Samples.target Samples.tol eq_refl eq_refl)
           _ _ _ Samples.row_near Hrun). left.
Defined.

(** ** What a returned record holds *)

Lemma for_each_invariant {E S A} (P : S → Prop) (body : S -> A -> result E S)
    (xs : list A) (s s' : S) :
  (∀ x t t', x ∈ xs → P t → body t x = Ok t' → P t') →
  P s → for_each body xs s = Ok s' → P s'.
Proof.
  revert s. induction xs as [|x xs IH]; intros s Hstep Hs; simpl.
  { by intros [= <-]. }
  intros (s1 & H1 & H2)%bind_Ok. eapply IH; [|eapply Hstep; [left|exact Hs|exact H1]|done].
  intros y t t' Hy. apply Hstep. by right.
Qed.

(** The fields of a record that are copied from the event and the
    bookmaker. *)
Lemma extract_bookmaker_odds_fields event recs rec :
  OddsFilterScript.extract_bookmaker_odds event = Ok recs → rec ∈ recs →
  OddsFilterScript.event_id rec = e_id event
  ∧ OddsFilterScript.sport_key rec = e_sport_key event
  ∧ OddsFilterScript.commence_time rec = e_commence_time event
  ∧ OddsFilterScript.home_team rec = e_home_team event
  ∧ OddsFilterScript.away_team rec = e_away_team event
  ∧ ∃ b, b ∈ e_bookmakers event
         ∧ OddsFilterScript.bookmaker rec = b_key b
         ∧ OddsFilterScript.bookmaker_title rec
           = match b_title b with Some title => title | None => b_key b end.
Proof.
  rewrite extract_bookmaker_odds_loop. intros Hloop Hrec. revert rec Hrec.
  eapply (for_each_invariant
            (fun rs => ∀ rec, rec ∈ rs → _ ∧ _ ∧ _ ∧ _ ∧ _ ∧ ∃ b, b ∈ _ ∧ _ ∧ _));
    [| |exact Hloop].
  - intros [b m] rs rs' Hbm Hrs. simpl. unfold OddsFilterScript.scan_market.
    destruct (h2h m); [|by intros [= <-]].
    intros (maps & _ & Hbuild)%bind_Ok.
    destruct (bool_decide _); [|by injection Hbuild as <-].
    apply bind_Ok in Hbuild as (ho & _ & Hbuild).
    apply bind_Ok in Hbuild as (do & _ & Hbuild).
    apply bind_Ok in Hbuild as (ao & _ & Hbuild).
    apply bind_Ok in Hbuild as (hl & _ & Hbuild).
    apply bind_Ok in Hbuild as (dl & _ & Hbuild).
    apply bind_Ok in Hbuild as (al & _ & [= <-]).
    intros rec [Hrec| ->%list_elem_of_singleton]%elem_of_app; [by apply Hrs|].
    simpl. do 5 (split; [done|]). exists b. split; [|done].
    unfold Spec.h2h_markets in Hbm.
    apply list_elem_of_In, in_flat_map in Hbm as (b' & Hb' & Hin).
    apply in_map_iff in Hin as (m' & [= <- <-] & _). by apply list_elem_of_In.
  - by intros rec []%elem_of_nil.
Qed.

(** X7. Every returned record is whole. An entry of the aggregate script
    holds exactly the keys home, draw and away, its [combined_product] is
    the product of the three prices, multiplied in that order, and its
    other fields are those of a fetched event from which the prices were
    extracted. A row of the per-bookmaker script has its product set to
    the product of its three prices, the fields of a fetched event, and the
    key of one of the bookmakers of that event, with the title that
    [bookmaker.get("title", book_key)] gives: the bookmaker's title when it
    has the key title, be it null, and its key when it has not. *)
Theorem returned_records_are_whole :
  (∀ requests target tol max out results r,
     OddsScript.find_high_odds_events requests target tol max = (out, Ok results) →
     r ∈ results →
     size (OddsScript.best_odds r) = 3
     ∧ (∃ h d a, Terms.entry_prices r = Some (h, d, a)
                 ∧ OddsScript.combined_product r = fmul (fmul h d) a)
     ∧ ∃ event, event ∈ Spec.aggregate_events max requests
                ∧ OddsScript.extract_three_way_odds event
                  = Ok (Some (OddsScript.best_odds r))
                ∧ OddsScript.event_id r = e_id event
                ∧ OddsScript.sport_key r = e_sport_key event
                ∧ OddsScript.commence_time r = e_commence_time event
                ∧ OddsScript.home_team r = e_home_team event
                ∧ OddsScript.away_team r = e_away_team event)
  ∧ (∀ requests target tol out df r,
       OddsFilterScript.find_events_with_target_odds requests target tol out df →
       r ∈ df →
       OddsFilterScript.combined_product r = Some (Spec.product_of r)
       ∧ ∃ event b,
           event ∈ Spec.per_bookmaker_events requests
           ∧ b ∈ e_bookmakers event
           ∧ OddsFilterScript.event_id r = e_id event
           ∧ OddsFilterScript.sport_key r = e_sport_key event
           ∧ OddsFilterScript.commence_time r = e_commence_time event
           ∧ OddsFilterScript.home_team r = e_home_team event
           ∧ OddsFilterScript.away_team r = e_away_team event
           ∧ OddsFilterScript.bookmaker r = b_key b
           ∧ OddsFilterScript.bookmaker_title r
             = match b_title b with Some title => title | None => b_key b end).
Proof.
  split.
  - intros requests target tol max out results r Hrun Hr.
    apply (aggregate_run_entries _ _ _ _ _ _ Hrun) in Hr
      as (event & Hev & odds & h & d & a & Hx & Hh & Hd & Ha & _ & ->).
    simpl. split; [by eapply extract_three_way_odds_Some|]. split.
    + exists h, d, a. unfold Terms.entry_prices. simpl. by rewrite Hh, Hd, Ha.
    + exists event. auto 10.
  - intros requests target tol out df r Hrun Hr.
    apply (per_bookmaker_run_rows _ _ _ _ _ Hrun) in Hr
      as (event & Hev & recs & rec & Hx & Hrec & _ & ->).
    split; [done|].
    destruct (extract_bookmaker_odds_fields _ _ _ Hx Hrec)
      as (H1 & H2 & H3 & H4 & H5 & b & Hb & H6 & H7).
    exists event, b. simpl. auto 12.
Qed.

Lemma returned_records_are_whole_witness :
  (∃ out results r,
     OddsScript.find_high_odds_events Samples.requests Samples.target Samples.tol None
     = (out, Ok results)
     ∧ head results = Some r
     ∧ size (OddsScript.best_odds r) = 3)
  ∧ OddsFilterScript.find_events_with_target_odds Cases.null_title_requests
      Samples.target Samples.tol [] [Cases.row_null_title]
  ∧ ∃ b, b ∈ e_bookmakers Cases.event_null_title
         ∧ b_title b = Some None
         ∧ OddsFilterScript.bookmaker_title Cases.row_null_title
           = match b_title b with Some title => title | None => b_key b end.
Proof.
  split.
  - destruct (OddsScript.find_high_odds_events Samples.requests Samples.target
                Samples.tol None) as [out [results|e]] eqn:Hrun.
    2:{ vm_compute in Hrun. discriminate Hrun. }
    destruct results as [|r results].
    { vm_compute in Hrun. discriminate Hrun. }
    exists out, (r :: results), r. split; [reflexivity|]. split; [reflexivity|].
    apply (proj1 returned_records_are_whole _ _ _ _ _ _ r Hrun). left.
  - assert (OddsFilterScript.find_events_with_target_odds Cases.null_title_requests
              Samples.target Samples.tol [] [Cases.row_null_title]) as Hrun.
    { exists [Cases.row_null_title]. split; [vm_compute; reflexivity|].
      split; [reflexivity|]. repeat constructor. }
    split; [exact Hrun|].
    destruct (proj2 returned_records_are_whole _ _ _ _ _ Cases.row_null_title Hrun)
      as (_ & event & b & Hev & Hb & _ & _ & _ & _ & _ & _ & Htitle); [left|].
    assert (event = Cases.event_null_title) as ->.
    { vm_compute in Hev. apply list_elem_of_singleton in Hev. exact Hev. }
    exists b. split; [exact Hb|]. split; [|exact Htitle].
    apply list_elem_of_singleton in Hb. rewrite Hb. reflexivity.
Defined.

(** ** Data the extractors do not look at *)

Lemma for_each_filter {E S A} (body : S -> A -> result E S) (keep : A -> bool)
    (xs : list A) (s : S) :
  (∀ s' x, x ∈ xs → keep x = false → body s' x = Ok s') →
  for_each body (List.filter keep xs) s = for_each body xs s.
Proof.
  revert s. induction xs as [|x xs IH]; intros s Hskip; [done|].
  cbn [List.filter for_each]. destruct (keep x) eqn:Hx.
  - cbn [for_each]. destruct (body s x); simpl; [|done].
    apply IH. intros. apply Hskip; [by right|done].
  - rewrite (Hskip s x) by (done || left). simpl.
    apply IH. intros. apply Hskip; [by right|done].
Qed.

Lemma for_each_map {E S A B} (body : S -> B -> result E S) (f : A -> B)
    (xs : list A) (s : S) :
  for_each body (map f xs) s = for_each (fun s' x => body s' (f x)) xs s.
Proof.
  revert s. induction xs as [|x xs IH]; intros s; [done|].
  cbn [map for_each]. destruct (body s (f x)); simpl; auto.
Qed.

Lemma aggregate_skips_unread home_team away_team best o :
  Terms.read (OddsScript.outcome_key home_team away_team) o = false →
  OddsScript.scan_outcome home_team away_team best o = Ok best.
Proof.
  unfold Terms.read, OddsScript.scan_outcome.
  destruct (OddsScript.outcome_key _ _ _) as [key|]; [|done].
  rewrite bool_decide_eq_true_2 by eauto. simpl.
  by destruct (float (o_price o)) as [v|[]].
Qed.

Lemma per_bookmaker_skips_unread event bookmaker market maps o :
  Terms.read (OddsFilterScript.outcome_key (e_home_team event) (e_away_team event)) o
    = false →
  OddsFilterScript.scan_outcome event bookmaker market maps o = Ok maps.
Proof.
  unfold Terms.read, OddsFilterScript.scan_outcome.
  destruct (OddsFilterScript.outcome_key _ _ _) as [key|]; [|done].
  rewrite bool_decide_eq_true_2 by eauto. simpl.
  by destruct (float (o_price o)) as [v|[]].
Qed.

Lemma filter_h2h_idemp keep markets :
  List.filter h2h
    (map (fun m => Terms.with_outcomes m (List.filter keep (m_outcomes m)))
         (List.filter h2h markets))
  = map (fun m => Terms.with_outcomes m (List.filter keep (m_outcomes m)))
        (List.filter h2h markets).
Proof.
  induction markets as [|m ms IH]; [done|]. cbn [List.filter].
  destruct (h2h m) eqn:Hm; [|done]. cbn [map List.filter].
  unfold h2h at 1. cbn [Terms.with_outcomes m_key]. fold (h2h m).
  rewrite Hm. by f_equal.
Qed.

(** X8. Only the h2h markets count, and in them only the outcomes that
    are read: an event gives the same result, in both scripts, when its
    other markets are removed together with any outcomes whose name is not
    classified or whose price makes [float] raise [TypeError] or
    [ValueError] (a null, a text that is no number, a list). *)
Theorem unread_data_changes_nothing :
  ∀ event,
    (∀ keep,
       (∀ o, Terms.read (OddsScript.outcome_key (e_home_team event) (e_away_team event)) o
             = true → keep o = true) →
       OddsScript.extract_three_way_odds (Terms.pruned keep event)
       = OddsScript.extract_three_way_odds event)
    ∧ (∀ keep,
         (∀ o, Terms.read
                 (OddsFilterScript.outcome_key (e_home_team event) (e_away_team event)) o
               = true → keep o = true) →
         OddsFilterScript.extract_bookmaker_odds (Terms.pruned keep event)
         = OddsFilterScript.extract_bookmaker_odds event).
Proof.
  intros event. split; intros keep Hkeep.
  - unfold OddsScript.extract_three_way_odds. f_equal.
    cbn [Terms.pruned Terms.with_bookmakers e_home_team e_away_team e_bookmakers].
    rewrite for_each_map. apply for_each_ext. intros best b _.
    unfold OddsScript.scan_bookmaker. cbn [Terms.with_markets b_markets].
    rewrite !scan_markets_flat, filter_h2h_idemp.
    induction (List.filter h2h (b_markets b)) as [|m ms IH] in best |- *; [done|].
    cbn [map flat_map Terms.with_outcomes m_outcomes]. rewrite !for_each_app.
    rewrite for_each_filter.
    + destruct (for_each _ (m_outcomes m) best); simpl; [apply IH|done].
    + intros best' o _ Ho. apply aggregate_skips_unread.
      destruct (Terms.read _ o) eqn:Hr; [|done]. apply Hkeep in Hr. congruence.
  - unfold OddsFilterScript.extract_bookmaker_odds.
    cbn [Terms.pruned Terms.with_bookmakers e_bookmakers].
    rewrite for_each_map. apply for_each_ext. intros results b _.
    unfold OddsFilterScript.scan_bookmaker. cbn [Terms.with_markets b_markets].
    rewrite for_each_map, (scan_markets_pairs event b), for_each_map.
    induction (b_markets b) as [|m ms IH] in results |- *; [done|].
    cbn [List.filter]. destruct (h2h m) eqn:Hm; [|apply IH].
    cbn [for_each fst snd]. unfold OddsFilterScript.scan_market at 1 3.
    unfold h2h at 1. cbn [Terms.with_outcomes m_key m_outcomes]. fold (h2h m).
    rewrite Hm. rewrite for_each_filter.
    + rewrite (for_each_ext _ (OddsFilterScript.scan_outcome event b m)) by done.
      destruct (for_each _ (m_outcomes m) (∅, ∅)) as [maps|e]; simpl; [|done].
      destruct (bool_decide (size maps.1 = 3)); [|apply IH].
      destruct (getitem maps.1 "home"); simpl; [|done].
      destruct (getitem maps.1 "draw"); simpl; [|done].
      destruct (getitem maps.1 "away"); simpl; [|done].
      destruct (getitem maps.2 "home"); simpl; [|done].
      destruct (getitem maps.2 "draw"); simpl; [|done].
      destruct (getitem maps.2 "away"); simpl; [|done].
      apply IH.
    + intros maps o _ Ho.
      apply (per_bookmaker_skips_unread
               (Terms.with_bookmakers event _)).
      cbn [Terms.with_bookmakers e_home_team e_away_team].
      destruct (Terms.read _ o) eqn:Hr; [|done]. apply Hkeep in Hr. congruence.
Qed.

Lemma unread_data_changes_nothing_witness :
  let keep := Terms.read (OddsScript.outcome_key (Some "Arsenal") (Some "Chelsea")) in
  Terms.pruned keep Samples.event_null
  = Samples.fixture "e7" [Samples.bookie "unibet" [Samples.three_way "2.5" "3.4" "3.0"]]
  ∧ OddsScript.extract_three_way_odds (Terms.pruned keep Samples.event_null)
    = OddsScript.extract_three_way_odds Samples.event_null.
Proof.
  intros keep. split; [vm_compute; reflexivity|].
  apply (proj1 (unread_data_changes_nothing Samples.event_null) keep).
  intros o Ho. exact Ho.
Defined.

(** ** The team names of an event that gives a record *)

Lemma aggregate_teams home_team away_team outcomes :
  Spec.complete (OddsScript.outcome_key home_team away_team) outcomes = true →
  ∃ h a, home_team = Some h ∧ away_team = Some a ∧ h ≠ a
         ∧ (lower h ∉ OddsScript.draw_names) ∧ (lower a ∉ OddsScript.draw_names).
Proof.
  intros Hc. pose proof (proj1 (complete_matched _ _) Hc) as Hm.
  destruct (Hm "home") as (oh & _ & Hh); [unfold Spec.keys; repeat constructor|].
  destruct (Hm "away") as (oa & _ & Ha); [unfold Spec.keys; repeat constructor|].
  apply counts_valid in Hh as [Hh _]. apply counts_valid in Ha as [Ha _].
  unfold OddsScript.outcome_key in Hh, Ha.
  repeat case_bool_decide; simplify_eq.
  exists (o_name oh), (o_name oa). repeat split; congruence.
Qed.

Lemma per_bookmaker_teams home_team away_team outcomes :
  Spec.complete (OddsFilterScript.outcome_key home_team away_team) outcomes = true →
  ∃ h a, home_team = Some h ∧ away_team = Some a ∧ h ≠ a
         ∧ (lower h ∉ OddsFilterScript.draw_names)
         ∧ (lower a ∉ OddsFilterScript.draw_names).
Proof.
  intros Hc. pose proof (proj1 (complete_matched _ _) Hc) as Hm.
  destruct (Hm "home") as (oh & _ & Hh); [unfold Spec.keys; repeat constructor|].
  destruct (Hm "away") as (oa & _ & Ha); [unfold Spec.keys; repeat constructor|].
  apply counts_valid in Hh as [Hh _]. apply counts_valid in Ha as [Ha _].
  unfold OddsFilterScript.outcome_key in Hh, Ha.
  repeat case_bool_decide; simplify_eq.
  exists (o_name oh), (o_name oa). repeat split; congruence.
Qed.

(** A record of the per-bookmaker extraction comes from an h2h market in
    which the three keys were matched. *)
Lemma record_has_complete_market event recs rec :
  OddsFilterScript.extract_bookmaker_odds event = Ok recs → rec ∈ recs →
  ∃ bm, bm ∈ Spec.h2h_markets event
        ∧ Spec.complete
            (OddsFilterScript.outcome_key (e_home_team event) (e_away_team event))
            (m_outcomes bm.2) = true
        ∧ Spec.from_market event bm rec.
Proof.
  rewrite extract_bookmaker_odds_loop. intros Hx Hrec.
  apply scan_pairs_records in Hx as (recs' & Heq & HF); [|apply h2h_markets_h2h].
  simpl in Heq. subst recs'.
  apply list_elem_of_lookup in Hrec as [i Hi].
  destruct (Forall2_lookup_r _ _ _ _ _ HF Hi) as (bm & Hbm & Hfrom).
  apply list_elem_of_lookup_2, list_elem_of_In, filter_In in Hbm as [Hin Hc].
  exists bm. by rewrite list_elem_of_In.
Qed.

(** X9. Every returned record names two teams: its event has a home team
    and an away team, the two names differ, and neither lower-cases to a
    draw word of its script. An event without a team name, with the same
    name twice, or with a team called like a draw gives no record. *)
Theorem records_name_two_teams :
  (∀ requests target tol max out results r,
     OddsScript.find_high_odds_events requests target tol max = (out, Ok results) →
     r ∈ results →
     ∃ h a, OddsScript.home_team r = Some h ∧ OddsScript.away_team r = Some a
            ∧ h ≠ a
            ∧ (lower h ∉ OddsScript.draw_names) ∧ (lower a ∉ OddsScript.draw_names))
  ∧ (∀ requests target tol out df r,
       OddsFilterScript.find_events_with_target_odds requests target tol out df →
       r ∈ df →
       ∃ h a, OddsFilterScript.home_team r = Some h
              ∧ OddsFilterScript.away_team r = Some a
              ∧ h ≠ a
              ∧ (lower h ∉ OddsFilterScript.draw_names)
              ∧ (lower a ∉ OddsFilterScript.draw_names)).
Proof.
  split.
  - intros requests target tol max out results r Hrun Hr.
    apply (aggregate_run_entries _ _ _ _ _ _ Hrun) in Hr
      as (event & _ & odds & h & d & a & Hx & _ & _ & _ & _ & ->).
    pose proof (extract_three_way_odds_Some _ _ Hx) as Hsize.
    rewrite extract_three_way_odds_loop in Hx.
    apply bind_Ok in Hx as (best & Hloop & Hx).
    case_bool_decide; simplify_eq.
    apply (scan_outcomes_size _ _ _ _ Hloop) in Hsize.
    by apply aggregate_teams in Hsize.
  - intros requests target tol out df r Hrun Hr.
    apply (per_bookmaker_run_rows _ _ _ _ _ Hrun) in Hr
      as (event & _ & recs & rec & Hx & Hrec & _ & ->).
    destruct (extract_bookmaker_odds_fields _ _ _ Hx Hrec)
      as (_ & _ & _ & Hh & Ha & _).
    destruct (record_has_complete_market _ _ _ Hx Hrec) as (bm & _ & Hc & _).
    apply per_bookmaker_teams in Hc. simpl. by rewrite Hh, Ha.
Qed.

Lemma records_name_two_teams_witness :
  ∃ out results r,
    OddsScript.find_high_odds_events Samples.requests Samples.target Samples.tol None
    = (out, Ok results)
    ∧ head results = Some r
    ∧ ∃ h a, OddsScript.home_team r = Some h ∧ OddsScript.away_team r = Some a
             ∧ h ≠ a.
Proof.
  destruct (OddsScript.find_high_odds_events Samples.requests Samples.target
              Samples.tol None) as [out [results|e]] eqn:Hrun.
  2:{ vm_compute in Hrun. discriminate Hrun. }
  destruct results as [|r results].
  { vm_compute in Hrun. discriminate Hrun. }
  exists out, (r :: results), r. split; [reflexivity|]. split; [reflexivity|].
  destruct (proj1 records_name_two_teams _ _ _ _ _ _ r Hrun) as (h & a & Hh & Ha & Hne & _).
  { left. }
  exists h, a. auto.
Defined.

(** ** The two extractions of one event *)

Lemma elem_of_prices classify key outcomes p :
  p ∈ Spec.prices classify key outcomes
  ↔ ∃ o, o ∈ outcomes ∧ Spec.counts classify key o = true ∧ Spec.valid_price o = Some p.
Proof.
  unfold Spec.prices. rewrite list_elem_of_omap. split.
  - intros (o & [Ho Hc]%list_elem_of_In%filter_In & Hv). exists o.
    by rewrite list_elem_of_In.
  - intros (o & Ho & Hc & Hv). exists o. split; [|done].
    apply list_elem_of_In, filter_In. by rewrite <- list_elem_of_In.
Qed.

(** Among prices that are numbers, the aggregate price of a key is not
    below any price that counts for the key. *)
Lemma aggregate_lookup_dominates home_team away_team outcomes best key o p :
  for_each (OddsScript.scan_outcome home_team away_team) outcomes ∅ = Ok best →
  forallb Terms.price_is_a_number outcomes = true →
  o ∈ outcomes →
  Spec.counts (OddsScript.outcome_key home_team away_team) key o = true →
  Spec.valid_price o = Some p →
  ∃ v, best !! key = Some v ∧ fle p v = true.
Proof.
  intros Hloop Hnum Ho Hc Hv.
  rewrite (scan_outcomes_lookup _ _ _ _ _ key Hloop), lookup_empty.
  assert (∀ q, q ∈ Spec.prices (OddsScript.outcome_key home_team away_team) key outcomes →
               is_nan q = false) as Hq.
  { intros q (o' & Ho' & _ & Hv')%elem_of_prices.
    rewrite forallb_forall in Hnum. apply list_elem_of_In, Hnum in Ho'.
    unfold Terms.price_is_a_number in Ho'. rewrite Hv' in Ho'.
    by apply negb_true_iff in Ho'. }
  assert (p ∈ Spec.prices (OddsScript.outcome_key home_team away_team) key outcomes)
    as Hp by (apply elem_of_prices; eauto).
  destruct (Spec.prices _ key outcomes) as [|p0 l]; [by apply elem_of_nil in Hp|].
  simpl. destruct (keep_greater_max l p0) as (v & -> & _ & _ & Hp0 & Hall).
  { apply Hq. left. }
  exists v. split; [done|]. inv Hp; [done|]. apply Hall; [done|].
  apply Hq. by right.
Qed.

(** A name the per-bookmaker script classifies is classified alike by the
    aggregate script, unless a team is called ESPN. *)
Lemma classified_alike home_team away_team name key :
  Terms.named_espn home_team = false → Terms.named_espn away_team = false →
  OddsFilterScript.outcome_key home_team away_team name = Some key →
  OddsScript.outcome_key home_team away_team name = Some key.
Proof.
  unfold OddsFilterScript.outcome_key, OddsScript.outcome_key. intros Hh Ha.
  assert (lower name ∈ OddsFilterScript.draw_names → lower name ∈ OddsScript.draw_names)
    as Hsub.
  { unfold OddsFilterScript.draw_names, OddsScript.draw_names. set_solver. }
  assert (lower name ∉ OddsFilterScript.draw_names → lower name ≠ "espn" →
          lower name ∉ OddsScript.draw_names) as Hnot.
  { unfold OddsFilterScript.draw_names, OddsScript.draw_names. set_solver. }
  destruct (decide (lower name ∈ OddsFilterScript.draw_names)) as [Hd|Hd].
  { rewrite (bool_decide_eq_true_2 _ Hd). intros [= <-].
    by rewrite (bool_decide_eq_true_2 _ (Hsub Hd)). }
  rewrite (bool_decide_eq_false_2 _ Hd).
  destruct (decide (Some name = home_team)) as [Hhome|Hhome].
  { rewrite (bool_decide_eq_true_2 _ Hhome). intros [= <-]. subst home_team.
    apply bool_decide_eq_false in Hh.
    by rewrite (bool_decide_eq_false_2 _ (Hnot Hd Hh)). }
  rewrite (bool_decide_eq_false_2 _ Hhome).
  destruct (decide (Some name = away_team)) as [Haway|Haway].
  { rewrite (bool_decide_eq_true_2 _ Haway). intros [= <-]. subst away_team.
    apply bool_decide_eq_false in Ha.
    by rewrite (bool_decide_eq_false_2 _ (Hnot Hd Ha)). }
  by rewrite (bool_decide_eq_false_2 _ Haway).
Qed.

Lemma market_outcomes_of_event event bm o :
  bm ∈ Spec.h2h_markets event → o ∈ m_outcomes bm.2 → o ∈ Spec.h2h_outcomes event.
Proof.
  intros Hbm Ho. unfold Spec.h2h_outcomes. apply list_elem_of_In, in_flat_map.
  exists bm. by rewrite <- !list_elem_of_In.
Qed.

(** X10. The best odds of the aggregate script are at least the odds of
    every bookmaker: when no team of the event is called ESPN and no
    price of its h2h markets is NaN, and both extractions return, every
    record of the per-bookmaker extraction comes with an aggregate
    dictionary whose home, draw and away prices are each not below the
    record's. *)
Theorem best_odds_dominate_bookmaker_odds :
  ∀ event best recs rec,
    Terms.named_espn (e_home_team event) = false →
    Terms.named_espn (e_away_team event) = false →
    forallb Terms.price_is_a_number (Spec.h2h_outcomes event) = true →
    OddsScript.extract_three_way_odds event = Ok best →
    OddsFilterScript.extract_bookmaker_odds event = Ok recs →
    rec ∈ recs →
    ∃ odds h d a,
      best = Some odds
      ∧ odds !! "home" = Some h ∧ odds !! "draw" = Some d ∧ odds !! "away" = Some a
      ∧ fle (OddsFilterScript.home_odds rec) h = true
      ∧ fle (OddsFilterScript.draw_odds rec) d = true
      ∧ fle (OddsFilterScript.away_odds rec) a = true.
Proof.
  intros event best recs rec Hh Ha Hnum Hagg Hper Hrec.
  destruct (record_has_complete_market _ _ _ Hper Hrec)
    as (bm & Hbm & _ & _ & _ & Hhome & Hdraw & Haway).
  rewrite extract_three_way_odds_loop in Hagg.
  apply bind_Ok in Hagg as (map & Hloop & Hbest).
  assert (∀ key p link,
            (∃ o, Spec.last_counted
                    (OddsFilterScript.outcome_key (e_home_team event) (e_away_team event))
                    key (m_outcomes bm.2) = Some o
                  ∧ Spec.valid_price o = Some p
                  ∧ link = OddsFilterScript._deep_link event bm.1 bm.2 o) →
            ∃ v, map !! key = Some v ∧ fle p v = true) as Hkey.
  { intros key p link (o & Ho & Hv & _). unfold Spec.last_counted in Ho.
    apply last_Some_elem_of, list_elem_of_In, filter_In in Ho as [Ho Hc].
    apply list_elem_of_In in Ho.
    apply (aggregate_lookup_dominates _ _ _ _ key o p Hloop Hnum);
      [by eapply market_outcomes_of_event| |done].
    unfold Spec.counts in *. apply andb_prop in Hc as [Hc Hvalid].
    rewrite Hvalid, andb_true_r. apply bool_decide_eq_true in Hc.
    apply bool_decide_eq_true. by apply classified_alike. }
  destruct (Hkey _ _ _ Hhome) as (h & Hmh & Hlh).
  destruct (Hkey _ _ _ Hdraw) as (d & Hmd & Hld).
  destruct (Hkey _ _ _ Haway) as (a & Hma & Hla).
  exists map, h, d, a. rewrite bool_decide_eq_true_2 in Hbest.
  { injection Hbest as <-. auto 10. }
  apply size_three.
  - intros k (o & _ & Hc)%(scan_outcomes_dom _ _ _ _ Hloop).
    apply counts_valid in Hc as [Hc _]. by eapply aggregate_key_known.
  - intros k Hk. unfold Spec.keys in Hk.
    repeat (apply elem_of_cons in Hk as [->|Hk]; [eauto|]).
    by apply elem_of_nil in Hk.
Qed.

Lemma best_odds_dominate_bookmaker_odds_witness :
  ∃ rec recs,
    OddsFilterScript.extract_bookmaker_odds Samples.event_two_books = Ok (rec :: recs)
    ∧ OddsFilterScript.home_odds rec = Samples.real "2.5"
    ∧ ∃ odds h,
        OddsScript.extract_three_way_odds Samples.event_two_books = Ok (Some odds)
        ∧ odds !! "home" = Some h
        ∧ fle (Samples.real "2.5") h = true.
Proof.
  destruct (OddsFilterScript.extract_bookmaker_odds Samples.event_two_books)
    as [[|rec recs]|e] eqn:Hper.
  1, 3: vm_compute in Hper; discriminate Hper.
  destruct (OddsScript.extract_three_way_odds Samples.event_two_books)
    as [best|e] eqn:Hagg.
  2:{ vm_compute in Hagg. discriminate Hagg. }
  assert (OddsFilterScript.home_odds rec = Samples.real "2.5") as Hrec.
  { vm_compute in Hper. injection Hper as <- _. vm_compute. reflexivity. }
  exists rec, recs. split; [reflexivity|]. split; [exact Hrec|].
  destruct (best_odds_dominate_bookmaker_odds Samples.event_two_books best
              (rec :: recs) rec eq_refl eq_refl)
    as (odds & h & d & a & -> & Hh & _ & _ & Hle & _).
  - vm_compute. reflexivity.
  - exact Hagg.
  - exact Hper.
  - left.
  - exists odds, h. rewrite Hrec in Hle. auto.
Defined.

(** ** The order of the bookmakers *)

Lemma existsb_Permutation {A} (f : A -> bool) l l' :
  l ≡ₚ l' → existsb f l = existsb f l'.
Proof.
  induction 1 as [|x l l' _ IH|x y l|l l' l'' _ IH1 _ IH2]; simpl.
  - done.
  - by rewrite IH.
  - by destruct (f x), (f y).
  - by rewrite IH1.
Qed.

Lemma complete_Permutation classify outcomes outcomes' :
  outcomes ≡ₚ outcomes' →
  Spec.complete classify outcomes = Spec.complete classify outcomes'.
Proof.
  intros Hp. unfold Spec.complete.
  induction Spec.keys as [|key keys IH]; [done|]. simpl.
  by rewrite IH, (existsb_Permutation _ _ _ Hp).
Qed.

(** Whether the aggregate scan of an outcome raises depends on the
    outcome alone. *)
Lemma aggregate_scan_outcome_result home_team away_team best o :
  if Terms.raises (OddsScript.outcome_key home_team away_team) o
  then OddsScript.scan_outcome home_team away_team best o = Raise OverflowError
  else ∃ best', OddsScript.scan_outcome home_team away_team best o = Ok best'.
Proof.
  unfold Terms.raises.
  destruct (OddsScript.scan_outcome home_team away_team best o) as [best'|e] eqn:Hs.
  - replace (_ && _) with false; [eauto|]. unfold OddsScript.scan_outcome in Hs.
    destruct (OddsScript.outcome_key _ _ _) as [key|].
    + rewrite bool_decide_eq_true_2 by eauto.
      by destruct (float (o_price o)) as [v|[]].
    + rewrite bool_decide_eq_false_2; [done|]. by intros [? [=]].
  - pose proof Hs as [-> _]%aggregate_scan_raises.
    replace (_ && _) with true; [done|]. unfold OddsScript.scan_outcome in Hs.
    destruct (OddsScript.outcome_key _ _ _) as [key|]; [|done].
    rewrite bool_decide_eq_true_2 by eauto.
    destruct (float (o_price o)) as [v|[]]; try done.
    by destruct (best !! key); [destruct (fgt _ _)|].
Qed.

Lemma aggregate_scan_result home_team away_team outcomes best :
  if existsb (Terms.raises (OddsScript.outcome_key home_team away_team)) outcomes
  then for_each (OddsScript.scan_outcome home_team away_team) outcomes best
       = Raise OverflowError
  else ∃ best', for_each (OddsScript.scan_outcome home_team away_team) outcomes best
                = Ok best'.
Proof.
  revert best. induction outcomes as [|o outcomes IH]; intros best; simpl; [eauto|].
  pose proof (aggregate_scan_outcome_result home_team away_team best o) as Ho.
  destruct (Terms.raises _ o); simpl.
  - by rewrite Ho.
  - destruct Ho as [best1 ->]. simpl. apply IH.
Qed.

Lemma aggregate_scan_Permutation home_team away_team outcomes outcomes' best best' :
  outcomes ≡ₚ outcomes' →
  forallb Terms.price_is_a_number outcomes = true →
  for_each (OddsScript.scan_outcome home_team away_team) outcomes ∅ = Ok best →
  for_each (OddsScript.scan_outcome home_team away_team) outcomes' ∅ = Ok best' →
  Terms.same_prices best best'.
Proof.
  intros Hp Hnum Hloop Hloop' key.
  assert (forallb Terms.price_is_a_number outcomes' = true) as Hnum'.
  { rewrite forallb_forall in *. intros o Ho. apply Hnum.
    apply list_elem_of_In. rewrite Hp. by apply list_elem_of_In. }
  set (classify := OddsScript.outcome_key home_team away_team).
  destruct (best !! key) as [v|] eqn:Hbest; cycle 1.
  - assert (best' !! key = None) as ->; [|constructor].
    apply eq_None_not_Some. rewrite (scan_outcomes_dom _ _ _ _ Hloop').
    intros (o & Ho & Hc).
    assert (is_Some (best !! key)) as [? Hsome]; [|congruence].
    apply (scan_outcomes_dom _ _ _ _ Hloop). exists o. by rewrite Hp.
  - assert (Spec.matched classify key outcomes) as (o & Ho & Hc).
    { apply (scan_outcomes_dom _ _ _ _ Hloop). rewrite Hbest. eauto. }
    pose proof (counts_valid _ _ _ Hc) as (_ & p & Hf).
    assert (Spec.valid_price o = Some p) as Hv.
    { unfold Spec.valid_price. by rewrite Hf. }
    assert (o ∈ outcomes') as Ho' by by rewrite <- Hp.
    destruct (aggregate_lookup_dominates _ _ _ _ key o p Hloop' Hnum' Ho' Hc Hv)
      as (v' & Hbest' & _).
    rewrite Hbest'. constructor. apply feq_fle.
    assert (∀ outs b w,
              for_each (OddsScript.scan_outcome home_team away_team) outs ∅ = Ok b →
              b !! key = Some w → w ∈ Spec.prices classify key outs) as Hin.
    { intros outs b w Hl Hw.
      rewrite (scan_outcomes_lookup _ _ _ _ _ key Hl), lookup_empty in Hw.
      fold classify in Hw. destruct (Spec.prices classify key outs) as [|p0 l]; [done|].
      simpl in Hw.
      assert (∀ l0 b0 w0, fold_left OddsScript.keep_greater l0 (Some b0) = Some w0 →
                          w0 ∈ b0 :: l0) as Hfold.
      { induction l0 as [|q l0 IHl]; intros b0 w0; simpl.
        - intros [= <-]. left.
        - destruct (fgt q b0); intros Hq%IHl.
          + by right.
          + inv Hq; [left|right; by right]. }
      by apply Hfold. }
    split.
    + apply (Hin _ _ _ Hloop) in Hbest.
      apply elem_of_prices in Hbest as (o1 & Ho1 & Hc1 & Hv1).
      rewrite Hp in Ho1.
      destruct (aggregate_lookup_dominates _ _ _ _ key o1 v Hloop' Hnum' Ho1 Hc1 Hv1)
        as (w & Hw & Hle).
      congruence.
    + apply (Hin _ _ _ Hloop') in Hbest'.
      apply elem_of_prices in Hbest' as (o1 & Ho1 & Hc1 & Hv1).
      rewrite <- Hp in Ho1.
      destruct (aggregate_lookup_dominates _ _ _ _ key o1 v' Hloop Hnum Ho1 Hc1 Hv1)
        as (w & Hw & Hle).
      congruence.
Qed.

(** X11. The best odds do not depend on the order in which the event
    lists its bookmakers, as long as no price is NaN: with the bookmakers
    rearranged, the aggregate extraction raises, gives nothing, or gives a
    dictionary as before, and then with prices that compare equal to the
    former ones, key by key. (They need not be identical: of the prices
    0.0 and -0.0 the first met is kept.) *)
Theorem best_odds_ignore_bookmaker_order :
  ∀ event bookmakers,
    e_bookmakers event ≡ₚ bookmakers →
    forallb Terms.price_is_a_number (Spec.h2h_outcomes event) = true →
    match OddsScript.extract_three_way_odds event,
          OddsScript.extract_three_way_odds (Terms.with_bookmakers event bookmakers) with
    | Ok (Some odds), Ok (Some odds') => Terms.same_prices odds odds'
    | Ok None, Ok None => True
    | Raise e, Raise e' => e = e'
    | _, _ => False
    end.
Proof.
  intros event bookmakers Hp Hnum.
  assert (Spec.h2h_outcomes event
          ≡ₚ Spec.h2h_outcomes (Terms.with_bookmakers event bookmakers)) as Hperm.
  { rewrite !h2h_outcomes_flat. by apply Permutation_flat_map. }
  rewrite !extract_three_way_odds_loop.
  cbn [Terms.with_bookmakers e_home_team e_away_team].
  set (outs := Spec.h2h_outcomes event) in *.
  set (outs' := Spec.h2h_outcomes (Terms.with_bookmakers event bookmakers)) in *.
  pose proof (aggregate_scan_result (e_home_team event) (e_away_team event) outs ∅) as Hr.
  pose proof (aggregate_scan_result (e_home_team event) (e_away_team event) outs' ∅) as Hr'.
  rewrite <- (existsb_Permutation _ _ _ Hperm) in Hr'.
  destruct (existsb _ outs).
  { by rewrite Hr, Hr'. }
  destruct Hr as [best Hloop], Hr' as [best' Hloop']. rewrite Hloop, Hloop'. simpl.
  pose proof (scan_outcomes_size _ _ _ _ Hloop) as Hsize.
  pose proof (scan_outcomes_size _ _ _ _ Hloop') as Hsize'.
  rewrite <- (complete_Permutation _ _ _ Hperm) in Hsize'.
  pose proof (aggregate_scan_Permutation _ _ _ _ _ _ Hperm Hnum Hloop Hloop') as Hsame.
  repeat case_bool_decide; try done; tauto.
Qed.

Lemma best_odds_ignore_bookmaker_order_witness :
  ∃ odds,
    OddsScript.extract_three_way_odds
      (Terms.with_bookmakers Samples.event_two_books
         (rev (e_bookmakers Samples.event_two_books))) = Ok (Some odds)
    ∧ Terms.same_prices Samples.odds_best odds.
Proof.
  pose proof (best_odds_ignore_bookmaker_order Samples.event_two_books
                (rev (e_bookmakers Samples.event_two_books))) as Hsame.
  assert (OddsScript.extract_three_way_odds Samples.event_two_books
          = Ok (Some Samples.odds_best)) as Hx by (vm_compute; reflexivity).
  rewrite Hx in Hsame.
  destruct (OddsScript.extract_three_way_odds _) as [[odds|]|e].
  - exists odds. split; [reflexivity|]. apply Hsame.
    + apply Permutation_rev.
    + vm_compute. reflexivity.
  - exfalso. apply Hsame; [apply Permutation_rev|vm_compute; reflexivity].
  - exfalso. apply Hsame; [apply Permutation_rev|vm_compute; reflexivity].
Defined.


(** ** The list of sports ([fetch_sports]) *)

Lemma keys_of_Ok sports keys :
  OddsScriptMain.keys_of sports = Ok keys
  ↔ map OddsScriptMain.s_key sports = map Some keys.
Proof.
  revert keys. induction sports as [|s sports IH]; intros keys; simpl.
  - split; [by intros [= <-]|]. by destruct keys.
  - unfold OddsScriptMain.key_of. destruct (OddsScriptMain.s_key s) as [k|]; simpl.
    + destruct (OddsScriptMain.keys_of sports) as [ks|e]; simpl.
      * split.
        -- intros [= <-]. simpl. f_equal. by apply IH.
        -- destruct keys as [|k' keys]; [done|]. intros [= <- H].
           apply IH in H. by injection H as <-.
      * split; [done|]. destruct keys as [|k' keys]; [done|]. intros [= _ H].
        by apply IH in H.
    + split; [done|]. by destruct keys.
Qed.

Lemma keys_of_Raise sports e :
  OddsScriptMain.keys_of sports = Raise e
  ↔ e = OddsScriptMain.KeyMissing ∧ ∃ s, s ∈ sports ∧ OddsScriptMain.s_key s = None.
Proof.
  split.
  - induction sports as [|s sports IH]; simpl; [done|].
    unfold OddsScriptMain.key_of.
    destruct (OddsScriptMain.s_key s) as [k|] eqn:Hk; simpl.
    + destruct (OddsScriptMain.keys_of sports) as [ks|e']; simpl; [done|].
      intros [= <-]. destruct (IH eq_refl) as (-> & s' & Hin & Hs').
      split; [done|]. exists s'. split; [by right|done].
    + intros [= <-]. split; [done|]. exists s. split; [left|done].
  - intros (-> & s' & Hin & Hs').
    induction sports as [|s sports IH]; simpl; [by apply elem_of_nil in Hin|].
    unfold OddsScriptMain.key_of.
    destruct (OddsScriptMain.s_key s) as [k|] eqn:Hk; simpl; [|done].
    inv Hin; try congruence. by rewrite IH.
Qed.

Lemma keys_of_filter keep sports all :
  OddsScriptMain.keys_of sports = Ok all →
  ∃ keys, OddsScriptMain.keys_of (List.filter keep sports) = Ok keys
          ∧ keys `sublist_of` all.
Proof.
  revert all. induction sports as [|s sports IH]; intros all; simpl.
  { intros [= <-]. by exists []. }
  intros (k & Hk & (ks & Hks & [= <-])%bind_Ok)%bind_Ok.
  destruct (IH _ Hks) as (keys & Hkeys & Hsub).
  destruct (keep s); simpl.
  - rewrite Hk, Hkeys. simpl. exists (k :: keys). split; [done|].
    by apply sublist_skip.
  - exists keys. split; [done|]. by apply sublist_cons.
Qed.

(** X12. The soccer keys are a selection of all the keys: when
    [fetch_sports] returns with [only_soccer] true, the reply was a
    response with a status outside 400..599, and the keys are those of the
    entries whose group is exactly Soccer, in the order of the reply; and
    whenever the unfiltered call returns, so does the filtered call, with
    a sublist of its keys. *)
Theorem soccer_keys_are_a_selection :
  (∀ reply keys,
     OddsScriptMain.fetch_sports reply true = Ok keys →
     ∃ status_code status_text sports,
       reply = OddsScriptMain.SportsResponse status_code status_text (Ok sports)
       ∧ ¬ (400 ≤ status_code < 600)%Z
       ∧ map Some keys
         = map OddsScriptMain.s_key
             (List.filter (fun s => bool_decide (OddsScriptMain.s_group s = Some "Soccer"))
                          sports))
  ∧ (∀ reply all,
       OddsScriptMain.fetch_sports reply false = Ok all →
       ∃ keys, OddsScriptMain.fetch_sports reply true = Ok keys
               ∧ keys `sublist_of` all).
Proof.
  split.
  - intros [e|status_code status_text [sports|e]] keys; simpl; [done| |].
    + unfold raise_for_status.
      destruct ((400 <=? status_code) && (status_code <? 600))%Z eqn:Hs; [done|].
      intros Hk%keys_of_Ok. exists status_code, status_text, sports.
      split; [done|]. split; [lia|done].
    + by destruct (raise_for_status _ _).
  - intros [e|status_code status_text [sports|e]] all; simpl; [done| |].
    + destruct (raise_for_status _ _); [|done]. apply keys_of_filter.
    + by destruct (raise_for_status _ _).
Qed.

(** X13. What [fetch_sports] raises. Every status from 400 to 599 raises
    the error of [raise_for_status], 404 included: unlike [fetch_odds], it
    has no empty result for a missing page. [KeyError] is raised exactly
    when a good response lists an entry without a key, and with
    [only_soccer] only when that entry is in the group Soccer: an entry
    of another group that lacks its key does no harm then. *)
Theorem fetch_sports_errors :
  (∀ status_code status_text json only_soccer,
     (400 ≤ status_code < 600)%Z →
     OddsScriptMain.fetch_sports
       (OddsScriptMain.SportsResponse status_code status_text json) only_soccer
     = Raise (OddsScriptMain.RequestFailed (RequestError status_text)))
  ∧ (∀ reply only_soccer,
       OddsScriptMain.fetch_sports reply only_soccer = Raise OddsScriptMain.KeyMissing
       ↔ ∃ status_code status_text sports s,
           reply = OddsScriptMain.SportsResponse status_code status_text (Ok sports)
           ∧ ¬ (400 ≤ status_code < 600)%Z
           ∧ s ∈ sports
           ∧ OddsScriptMain.s_key s = None
           ∧ (only_soccer = true → OddsScriptMain.s_group s = Some "Soccer")).
Proof.
  split.
  - intros status_code status_text json only_soccer Hs. simpl. unfold raise_for_status.
    by replace ((400 <=? status_code) && (status_code <? 600))%Z with true by lia.
  - intros reply only_soccer. split.
    + destruct reply as [e|status_code status_text [sports|e]]; simpl; [done| |].
      * unfold raise_for_status.
        destruct ((400 <=? status_code) && (status_code <? 600))%Z eqn:Hs; [done|].
        destruct only_soccer.
        -- intros (_ & s & [Hin Hsoc]%list_elem_of_In%filter_In & Hk)%keys_of_Raise.
           exists status_code, status_text, sports, s.
           split; [done|]. split; [lia|]. split; [by apply list_elem_of_In|].
           split; [done|]. intros _. by apply bool_decide_eq_true in Hsoc.
        -- intros (_ & s & Hin & Hk)%keys_of_Raise.
           exists status_code, status_text, sports, s.
           split; [done|]. split; [lia|]. by repeat split.
      * by destruct (raise_for_status _ _).
    + intros (status_code & status_text & sports & s & -> & Hs & Hin & Hk & Hsoc).
      simpl. unfold raise_for_status.
      replace ((400 <=? status_code) && (status_code <? 600))%Z with false by lia.
      destruct only_soccer; apply keys_of_Raise; (split; [done|]); exists s.
      * split; [|done]. apply list_elem_of_In, filter_In.
        split; [by apply list_elem_of_In|]. apply bool_decide_eq_true. auto.
      * done.
Qed.

Lemma fetch_sports_errors_witness :
  OddsScriptMain.fetch_sports
    (OddsScriptMain.SportsResponse 404 "404 Client Error: Not Found" (Ok [])) true
  = Raise (OddsScriptMain.RequestFailed (RequestError "404 Client Error: Not Found"))
  ∧ OddsScript.fetch_odds (Response 404 "404 Client Error: Not Found" (Ok [])) = Ok [].
Proof.
  split; [|reflexivity].
  apply (proj1 fetch_sports_errors 404%Z). lia.
Defined.

(** ** Products that are numbers *)

Local Open Scope Z_scope.

Lemma shr_1_nonneg mrs : 0 ≤ shr_m mrs → 0 ≤ shr_m (shr_1 mrs).
Proof. destruct mrs as [[|[p|p|]|p] r s]; simpl; lia. Qed.

Lemma iter_pos_invariant {A} (P : A → Prop) (f : A -> A) :
  (∀ x, P x → P (f x)) → ∀ p x, P x → P (SpecFloat.iter_pos f p x).
Proof. intros Hf. induction p; simpl; auto. Qed.

Lemma shr_fexp_nonneg m e l :
  0 ≤ m → 0 ≤ shr_m (shr_fexp prec emax m e l).1.
Proof.
  intros Hm. unfold shr_fexp, shr.
  assert (0 ≤ shr_m (shr_record_of_loc m l)) as H0 by (by destruct l as [|[]]).
  destruct (fexp _ _ _ - e); simpl; try done.
  apply (iter_pos_invariant (fun mrs => 0 ≤ shr_m mrs)); [apply shr_1_nonneg|done].
Qed.

Lemma round_nearest_even_nonneg m l : 0 ≤ m → 0 ≤ round_nearest_even m l.
Proof.
  intros Hm. destruct l as [|[]]; simpl; try lia. destruct (IntDef.Z.even m); lia.
Qed.

(** Rounding a mantissa that is not negative never gives NaN. *)
Lemma binary_round_aux_number sx mx ex lx :
  0 ≤ mx → is_nan (binary_round_aux prec emax sx mx ex lx) = false.
Proof.
  intros Hm. unfold binary_round_aux.
  pose proof (shr_fexp_nonneg mx ex lx Hm) as H1.
  destruct (shr_fexp prec emax mx ex lx) as [mrs' e']. simpl in H1.
  pose proof (shr_fexp_nonneg _ e' loc_Exact
                (round_nearest_even_nonneg _ (loc_of_shr_record mrs') H1)) as H2.
  destruct (shr_fexp prec emax _ e' loc_Exact) as [mrs'' e'']. simpl in H2.
  destruct (shr_m mrs''); [done| |lia].
  by destruct (e'' <=? emax - prec).
Qed.

Local Close Scope Z_scope.

(** The product of a number and a finite float other than zero is a
    number. *)
Lemma fmul_number x s m e :
  is_nan x = false → is_nan (fmul x (S754_finite s m e)) = false.
Proof.
  destruct x as [sx|sx| |sx mx ex]; try done. intros _.
  apply binary_round_aux_number. lia.
Qed.

(** Both zeros lie at the same distance of the target. *)
Lemma near_zero_sign target tol b :
  fle (fabs (fsub (S754_zero b) target)) tol
  = fle (fabs (fsub Terms.zero target)) tol.
Proof. unfold Terms.zero. by destruct b, target as [[]|[]| |[] ? ?]. Qed.

(** When zero is not within the tolerance of a finite target, three
    prices that are give a product that is a number. *)
Lemma near_product_number target tol h d a :
  Terms.finite target = true → Terms.finite tol = true →
  fle (fabs (fsub Terms.zero target)) tol = false →
  Spec.all_three_near target tol h d a →
  is_nan (fmul (fmul h d) a) = false.
Proof.
  intros Ht Htol Hzero (Hh & Hd & Ha).
  assert (∀ x, fle (fabs (fsub x target)) tol = true → ∃ s m e, x = S754_finite s m e)
    as Hfin.
  { intros x Hx. pose proof (near_finite _ _ _ Ht Htol Hx) as Hf.
    destruct x as [b|b| |s m e]; try done; [|eauto].
    rewrite near_zero_sign in Hx. congruence. }
  destruct (Hfin _ Hh) as (sh & mh & eh & ->).
  destruct (Hfin _ Hd) as (sd & md & ed & ->).
  destruct (Hfin _ Ha) as (sa & ma & ea & ->).
  apply fmul_number. by apply fmul_number.
Qed.

(** X14. With a finite target and a finite tolerance that does not reach
    down to zero, as with the defaults 3.0 and 0.6, no product is NaN: the
    list of the aggregate script and the frame of the per-bookmaker script
    are in non-increasing order of [combined_product] throughout. *)
Theorem products_are_numbers :
  ∀ target tol,
    Terms.finite target = true → Terms.finite tol = true →
    fle (fabs (fsub Terms.zero target)) tol = false →
    (∀ requests max out results,
       OddsScript.find_high_odds_events requests target tol max = (out, Ok results) →
       Forall (fun r => is_nan (OddsScript.combined_product r) = false) results
       ∧ Spec.non_increasing OddsScript.combined_product results)
    ∧ (∀ requests out df,
         OddsFilterScript.find_events_with_target_odds requests target tol out df →
         Forall (fun r => ∃ p, OddsFilterScript.combined_product r = Some p
                               ∧ is_nan p = false) df
         ∧ Spec.non_increasing OddsFilterScript.product_column df).
Proof.
  intros target tol Ht Htol Hzero. split.
  - intros requests max out results Hrun.
    assert (Forall (fun r => is_nan (OddsScript.combined_product r) = false) results)
      as Hnum.
    { apply Forall_forall. intros r Hr.
      apply (aggregate_run_entries _ _ _ _ _ _ Hrun) in Hr
        as (event & _ & odds & h & d & a & _ & _ & _ & _ & Hn & ->).
      simpl. by apply (near_product_number target tol). }
    split; [done|]. unfold OddsScript.find_high_odds_events in Hrun.
    destruct (OddsScript.sports_loop _ _ _ _ _ _) as [out' [passing|e]]; [|done].
    injection Hrun as _ <-. apply sort_reverse_spec.
    apply Forall_forall. intros r Hr. rewrite Forall_forall in Hnum. apply Hnum.
    by rewrite sort_reverse_Permutation.
  - intros requests out df Hrun.
    assert (Forall (fun r => ∃ p, OddsFilterScript.combined_product r = Some p
                                  ∧ is_nan p = false) df) as Hnum.
    { apply Forall_forall. intros r Hr.
      apply (per_bookmaker_run_rows _ _ _ _ _ Hrun) in Hr
        as (event & _ & recs & rec & _ & _ & Hn & ->).
      eexists. split; [done|]. by apply (near_product_number target tol). }
    split; [done|]. destruct Hrun as (records & _ & _ & Hsorted).
    eapply StronglySorted_weaken; [|exact Hsorted].
    intros a b _ Hb [Hnan|Hle]; [|done].
    rewrite Forall_forall in Hnum. destruct (Hnum b Hb) as (p & Hp & Hpn).
    unfold OddsFilterScript.product_column in Hnan. rewrite Hp in Hnan. simpl in Hnan.
    congruence.
Qed.

Lemma products_are_numbers_witness :
  fle (fabs (fsub Terms.zero Samples.target)) Samples.tol = false
  ∧ ∃ out results,
      OddsScript.find_high_odds_events Samples.requests Samples.target Samples.tol None
      = (out, Ok results)
      ∧ Spec.non_increasing OddsScript.combined_product results.
Proof.
  assert (fle (fabs (fsub Terms.zero Samples.target)) Samples.tol = false) as Hzero
    by (vm_compute; reflexivity).
  split; [exact Hzero|].
  destruct (OddsScript.find_high_odds_events Samples.requests Samples.target
              Samples.tol None) as [out [results|e]] eqn:Hrun.
  2:{ vm_compute in Hrun. discriminate Hrun. }
  exists out, results. split; [reflexivity|].
  apply (proj1 (products_are_numbers Samples.target Samples.tol eq_refl eq_refl Hzero)
           _ _ _ _ Hrun).
Defined.

Lemma soccer_keys_are_a_selection_witness :
  ∃ status_code status_text sports,
    Cases.sports_reply
    = OddsScriptMain.SportsResponse status_code status_text (Ok sports)
    ∧ ¬ (400 ≤ status_code < 600)%Z
    ∧ map Some ["soccer_epl"; "soccer_spain_la_liga"]
      = map OddsScriptMain.s_key
          (List.filter (fun s => bool_decide (OddsScriptMain.s_group s = Some "Soccer"))
                       sports).
Proof.
  exact (proj1 soccer_keys_are_a_selection Cases.sports_reply
           ["soccer_epl"; "soccer_spain_la_liga"] eq_refl).
Defined.

(** ** The entry point of [odds_script.py] *)

Lemma main_with_key key world :
  key ≠ "" → key ≠ "YOUR_API_KEY" →
  OddsScriptMain.main (Some key) world
  = match OddsScript.find_high_odds_events (Terms.main_requests world)
            OddsScriptMain.target OddsScriptMain.tol (Some 10%Z) with
    | (out', r) =>
        (match OddsScriptMain.fetch_sports (OddsScriptMain.sports_reply world) true with
         | Ok _ => []
         | Raise e => ["Unable to fetch sports: " +:+ OddsScriptMain.str e]
         end ++ out',
         match r with
         | Ok events => OddsScriptMain.Displayed (slice_to 10 events)
         | Raise e => OddsScriptMain.Uncaught e
         end)
    end.
Proof.
  intros H1 H2. unfold OddsScriptMain.main, Terms.main_requests, Terms.main_sports.
  rewrite (bool_decide_eq_false_2 _ H1), (bool_decide_eq_false_2 _ H2). simpl.
  destruct (OddsScriptMain.fetch_sports _ true) as [keys|e];
    by destruct (OddsScript.find_high_odds_events _ _ _ _) as [out' [events|x]].
Qed.

(** X15. The script exits with [SystemExit(1)] exactly when the
    environment gives no API key, an empty one, or the placeholder
    YOUR_API_KEY; it has then printed its one message, whatever the
    network would have answered. With any other key it never exits that
    way. *)
Theorem exit_only_without_key :
  ∀ api_key world out status,
    OddsScriptMain.main api_key world = (out, OddsScriptMain.Exit status)
    ↔ Terms.no_key api_key
      ∧ out = [OddsScriptMain.missing_key_message] ∧ status = 1%Z.
Proof.
  intros api_key world out status. unfold Terms.no_key. split.
  - destruct api_key as [key|]; [|intros [= <- <-]; auto].
    destruct (decide (key = "")) as [->|H1]; [intros [= <- <-]; auto|].
    destruct (decide (key = "YOUR_API_KEY")) as [->|H2]; [intros [= <- <-]; auto|].
    rewrite main_with_key by done.
    by destruct (OddsScript.find_high_odds_events _ _ _ _) as [out' [events|x]].
  - by intros ([->|[->| ->]] & -> & ->).
Qed.

Lemma sample_sports_length soccer_sports :
  (1 ≤ length (OddsScriptMain.sample_sports soccer_sports) ≤ 5)%nat.
Proof.
  destruct soccer_sports as [|k ks]; [simpl; lia|].
  change (OddsScriptMain.sample_sports (k :: ks)) with (take 5 (k :: ks)).
  rewrite length_take. cbn [length]. lia.
Qed.

Lemma sample_sports_elem soccer_sports k :
  k ∈ OddsScriptMain.sample_sports soccer_sports → k = "soccer_epl" ∨ k ∈ soccer_sports.
Proof.
  destruct soccer_sports as [|k0 ks]; simpl.
  - intros ->%list_elem_of_singleton. by left.
  - change (OddsScriptMain.sample_sports (k0 :: ks)) with (take 5 (k0 :: ks)).
    intros Hk. right. by eapply (subseteq_take 5 (k0 :: ks)).
Qed.

(** X16. With a key, the script searches at least one and at most five
    sport keys, each a key of an entry of group Soccer of the sports
    reply, or soccer_epl; when the list of sports cannot be fetched, it
    says so and searches soccer_epl alone. It prints at most five lines
    before the display, and when the search returns it displays at most
    ten events; it does not end with [SystemExit]. *)
Theorem main_searches_one_to_five_sports :
  ∀ key world out ending,
    key ≠ "" → key ≠ "YOUR_API_KEY" →
    OddsScriptMain.main (Some key) world = (out, ending) →
    (1 ≤ length (Terms.main_sports world) ≤ 5)%nat
    ∧ (∀ k, k ∈ Terms.main_sports world →
            k = "soccer_epl"
            ∨ ∃ status_code status_text sports s,
                OddsScriptMain.sports_reply world
                = OddsScriptMain.SportsResponse status_code status_text (Ok sports)
                ∧ s ∈ sports
                ∧ OddsScriptMain.s_group s = Some "Soccer"
                ∧ OddsScriptMain.s_key s = Some k)
    ∧ (∀ e, OddsScriptMain.fetch_sports (OddsScriptMain.sports_reply world) true = Raise e →
            Terms.main_sports world = ["soccer_epl"]
            ∧ head out = Some ("Unable to fetch sports: " +:+ OddsScriptMain.str e))
    ∧ (length out ≤ 5)%nat
    ∧ match ending with
      | OddsScriptMain.Exit _ => False
      | OddsScriptMain.Uncaught _ => True
      | OddsScriptMain.Displayed events => (length events ≤ 10)%nat
      end.
Proof.
  intros key world out ending H1 H2. rewrite main_with_key by done.
  destruct (OddsScript.find_high_odds_events _ _ _ _) as [out' r] eqn:Hrun.
  intros [= <- <-].
  split; [apply sample_sports_length|]. split; [|split; [|split]].
  - intros k [->|Hk]%sample_sports_elem; [by left|]. right.
    destruct (OddsScriptMain.sports_reply world)
      as [e|status_code status_text [sports|e]]; simpl in Hk;
      [by apply elem_of_nil in Hk| |].
    2:{ destruct (raise_for_status _ _); by apply elem_of_nil in Hk. }
    destruct (raise_for_status _ _); [|by apply elem_of_nil in Hk].
    destruct (OddsScriptMain.keys_of _) as [keys|e] eqn:Hkeys;
      [|by apply elem_of_nil in Hk].
    apply keys_of_Ok in Hkeys.
    assert (Some k ∈ map OddsScriptMain.s_key (List.filter OddsScriptMain.soccer sports))
      as Hin by (rewrite Hkeys; by apply list_elem_of_fmap_2).
    apply list_elem_of_fmap in Hin as (s & Hs & [Hin Hsoc]%list_elem_of_In%filter_In).
    exists status_code, status_text, sports, s. split; [done|].
    split; [by apply list_elem_of_In|]. split; [|done].
    by apply bool_decide_eq_true in Hsoc.
  - intros e He. unfold Terms.main_sports. by rewrite He.
  - assert (length out' ≤ length (Terms.main_requests world))%nat as Hout.
    { unfold OddsScript.find_high_odds_events in Hrun.
      destruct (OddsScript.sports_loop _ _ _ _ _ _) as [out0 r0] eqn:Hloop.
      injection Hrun as <- _.
      assert (∀ requests results out1 out2 r1,
                OddsScript.sports_loop OddsScriptMain.target OddsScriptMain.tol
                  (Some 10%Z) requests results out1 = (out2, r1) →
                (length out2 ≤ length out1 + length requests)%nat) as Hlen.
      { induction requests as [|[k reply] requests IH]; intros results out1 out2 r1;
          simpl.
        - intros [= <- _]. lia.
        - destruct (OddsScript.fetch_odds reply) as [events|e].
          + destruct (for_each _ _ results) as [results1|e1].
            * intros H%IH. lia.
            * intros [= <- _]. lia.
          + intros H%IH. rewrite length_app in H. simpl in H. lia. }
      by apply Hlen in Hloop. }
    unfold Terms.main_requests in Hout. rewrite length_map in Hout.
    pose proof (sample_sports_length
                  match OddsScriptMain.fetch_sports (OddsScriptMain.sports_reply world) true
                  with Ok keys => keys | Raise _ => [] end) as Hn.
    fold (Terms.main_sports world) in Hn. rewrite length_app.
    unfold Terms.main_sports in *.
    destruct (OddsScriptMain.fetch_sports _ true) as [keys|e]; simpl in *; lia.
  - destruct r as [events|e].
    + change (slice_to 10 events) with (take 10 events). rewrite length_take. lia.
    + done.
Qed.

Lemma exit_only_without_key_witness :
  OddsScriptMain.main (Some "YOUR_API_KEY") Cases.world
  = ([OddsScriptMain.missing_key_message], OddsScriptMain.Exit 1).
Proof.
  apply (proj2 (exit_only_without_key (Some "YOUR_API_KEY") Cases.world
                  [OddsScriptMain.missing_key_message] 1%Z)).
  split; [right; right; reflexivity|]. split; reflexivity.
Defined.

Lemma main_searches_one_to_five_sports_witness :
  Terms.main_sports Cases.world = ["soccer_epl"; "soccer_spain_la_liga"]
  ∧ (∃ events,
       OddsScriptMain.main (Some "0123456789abcdef") Cases.world
       = (["Skipping sport soccer_spain_la_liga due to error: Read timed out."],
          OddsScriptMain.Displayed events)
       ∧ (length events ≤ 10)%nat)
  ∧ ∃ out ending,
      OddsScriptMain.main (Some "0123456789abcdef") Cases.world_without_sports
      = (out, ending)
      ∧ Terms.main_sports Cases.world_without_sports = ["soccer_epl"]
      ∧ head out = Some "Unable to fetch sports: Connection refused".
Proof.
  split; [reflexivity|]. split.
  - destruct (OddsScriptMain.main (Some "0123456789abcdef") Cases.world)
      as [out ending] eqn:Hrun.
    assert (out = ["Skipping sport soccer_spain_la_liga due to error: Read timed out."])
      as ->.
    { vm_compute in Hrun. injection Hrun as <- _. reflexivity. }
    destruct ending as [status|events|e].
    1, 3: vm_compute in Hrun; discriminate Hrun.
    exists events. split; [reflexivity|].
    apply (main_searches_one_to_five_sports "0123456789abcdef" Cases.world _ _) in Hrun
      as (_ & _ & _ & _ & Hlen); [exact Hlen|discriminate|discriminate].
  - destruct (OddsScriptMain.main (Some "0123456789abcdef") Cases.world_without_sports)
      as [out ending] eqn:Hrun.
    exists out, ending. split; [reflexivity|].
    apply (main_searches_one_to_five_sports "0123456789abcdef"
             Cases.world_without_sports _ _) in Hrun
      as (_ & _ & Hfail & _); [|discriminate|discriminate].
    exact (Hfail (OddsScriptMain.RequestFailed (RequestError "Connection refused"))
             eq_refl).
Defined.

(** X17. The events the script displays are the best of its search: they
    are in non-increasing order of [combined_product], each is the entry
    of one of the first ten events fetched for a searched sport key whose
    best home, draw and away prices all lie within 0.6 of 3.0, and every
    such entry is displayed unless ten entries with at least its product
    are. *)
Theorem main_displays_the_ten_best :
  ∀ key world out events,
    key ≠ "" → key ≠ "YOUR_API_KEY" →
    OddsScriptMain.main (Some key) world = (out, OddsScriptMain.Displayed events) →
    Spec.non_increasing OddsScript.combined_product events
    ∧ (∀ r, r ∈ events →
            ∃ event, event ∈ Spec.aggregate_events (Some 10%Z) (Terms.main_requests world)
                     ∧ Spec.aggregate_entry OddsScriptMain.target OddsScriptMain.tol
                         event r)
    ∧ (∀ event r,
         event ∈ Spec.aggregate_events (Some 10%Z) (Terms.main_requests world) →
         Spec.aggregate_entry OddsScriptMain.target OddsScriptMain.tol event r →
         r ∈ events
         ∨ (length events = 10
            ∧ ∀ d, d ∈ events →
                   fle (OddsScript.combined_product r) (OddsScript.combined_product d)
                   = true)).
Proof.
  intros key world out events H1 H2. rewrite main_with_key by done.
  destruct (OddsScript.find_high_odds_events _ _ _ _) as [out' [results|e]] eqn:Hrun;
    [|done].
  change (slice_to 10 results) with (take 10 results). intros [= <- <-].
  pose proof (aggregate_run_entries _ _ _ _ _ _ Hrun) as Hentries.
  assert (Spec.non_increasing OddsScript.combined_product results) as Hsorted.
  { assert (Forall (fun r => is_nan (OddsScript.combined_product r) = false) results)
      as Hnum.
    { apply Forall_forall. intros r Hr.
      apply Hentries in Hr as (event & _ & odds & h & d & a & _ & _ & _ & _ & Hn & ->).
      simpl.
      apply (near_product_number OddsScriptMain.target OddsScriptMain.tol);
        [done|done|vm_compute; reflexivity|done]. }
    unfold OddsScript.find_high_odds_events in Hrun.
    destruct (OddsScript.sports_loop _ _ _ _ _ _) as [out0 [passing|e]]; [|done].
    injection Hrun as _ <-. apply sort_reverse_spec.
    apply Forall_forall. intros r Hr. rewrite Forall_forall in Hnum. apply Hnum.
    by rewrite sort_reverse_Permutation. }
  unfold Spec.non_increasing in *. rewrite <- (take_drop 10 results) in Hsorted.
  split; [by apply StronglySorted_app_1_l in Hsorted|]. split.
  - intros r Hr. apply Hentries. by eapply (subseteq_take 10 results).
  - intros event r Hev Hentry.
    assert (r ∈ results) as Hr by (apply Hentries; eauto).
    rewrite <- (take_drop 10 results) in Hr.
    apply elem_of_app in Hr as [Hr|Hr]; [by left|]. right. split.
    + rewrite length_take. apply list_elem_of_In in Hr.
      assert (length (drop 10 results) ≠ 0)%nat as Hd
        by (destruct (drop 10 results); [done|simpl; lia]).
      rewrite length_drop in Hd. lia.
    + intros d Hd. by apply (StronglySorted_app_1_elem_of _ _ _ _ _ Hsorted).
Qed.

Lemma main_displays_the_ten_best_witness :
  ∃ out first rest,
    OddsScriptMain.main (Some "0123456789abcdef") Cases.world
    = (out, OddsScriptMain.Displayed (first :: rest))
    ∧ OddsScript.event_id first = Some "e12"
    ∧ Spec.non_increasing OddsScript.combined_product (first :: rest).
Proof.
  destruct (OddsScriptMain.main (Some "0123456789abcdef") Cases.world)
    as [out [status|[|first rest]|e]] eqn:Hrun.
  1, 2, 4: vm_compute in Hrun; discriminate Hrun.
  exists out, first, rest. split; [reflexivity|]. split.
  - vm_compute in Hrun. injection Hrun as _ <- _. reflexivity.
  - apply (main_displays_the_ten_best "0123456789abcdef" Cases.world out) in Hrun
      as [Hsorted _]; [exact Hsorted|discriminate|discriminate].
Defined.

(** ** The entry point of [odds_filter_script.py] *)

(** X18. What [main] writes. The file filtered_odds.csv is written
    exactly when the key and the list of sport keys are not empty, the
    search returns, and some record of a fetched event has its three
    prices near the target. The run then consists of the lines of the
    failed fetches, the printing of the frame, the writing of that same
    frame, which is a frame [find_events_with_target_odds] returns and is
    not empty, and the closing message, in this order. A run whose search
    raises has printed lines only; a run without a key or without sport
    keys prints its one message. *)
Theorem csv_holds_the_matching_rows :
  ∀ API_KEY SPORT_KEYS TARGET TOL odds_reply actions ending,
    OddsFilterScriptMain.main API_KEY SPORT_KEYS TARGET TOL odds_reply actions ending →
    (API_KEY = "" →
     actions = [OddsFilterScriptMain.Print OddsFilterScriptMain.no_key_message])
    ∧ (API_KEY ≠ "" → SPORT_KEYS = [] →
       actions = [OddsFilterScriptMain.Print OddsFilterScriptMain.no_sport_message])
    ∧ (∀ e, ending = OddsFilterScriptMain.Raised e →
            ∃ out, actions = map OddsFilterScriptMain.Print out)
    ∧ (∀ path df,
         OddsFilterScriptMain.WriteCsv path df ∈ actions →
         path = "filtered_odds.csv" ∧ df ≠ []
         ∧ ∃ out,
             OddsFilterScript.find_events_with_target_odds
               (Terms.requests_for SPORT_KEYS odds_reply) TARGET TOL out df
             ∧ actions
               = map OddsFilterScriptMain.Print out
                 ++ [OddsFilterScriptMain.PrintFrame df;
                     OddsFilterScriptMain.WriteCsv "filtered_odds.csv" df;
                     OddsFilterScriptMain.Print OddsFilterScriptMain.saved_message])
    ∧ ((∃ path df, OddsFilterScriptMain.WriteCsv path df ∈ actions)
       ↔ API_KEY ≠ "" ∧ SPORT_KEYS ≠ []
         ∧ ending = OddsFilterScriptMain.Returned
         ∧ ∃ event r,
             event ∈ Spec.per_bookmaker_events (Terms.requests_for SPORT_KEYS odds_reply)
             ∧ Spec.bookmaker_row TARGET TOL event r).
Proof.
  intros API_KEY SPORT_KEYS TARGET TOL odds_reply actions ending.
  unfold OddsFilterScriptMain.main. fold (Terms.requests_for SPORT_KEYS odds_reply).
  assert (∀ out path (df : list OddsFilterScript.Rec),
            OddsFilterScriptMain.WriteCsv path df
            ∉ map OddsFilterScriptMain.Print out) as Hlines.
  { intros out path df Hin. by apply list_elem_of_fmap in Hin as (line & [=] & _). }
  destruct (decide (API_KEY = "")) as [Hk|Hk].
  { rewrite (bool_decide_eq_true_2 _ Hk). intros [-> ->].
    split; [reflexivity|]. split; [intros Hne; contradiction|].
    split; [intros e; discriminate|]. split.
    - by intros path df [=]%list_elem_of_singleton.
    - split; [by intros (path & df & [=]%list_elem_of_singleton)|]. by intros []. }
  rewrite (bool_decide_eq_false_2 _ Hk).
  destruct (decide (SPORT_KEYS = [])) as [Hs|Hs].
  { rewrite (bool_decide_eq_true_2 _ Hs). intros [-> ->].
    split; [intros Heq; contradiction|]. split; [reflexivity|].
    split; [intros e; discriminate|]. split.
    - by intros path df [=]%list_elem_of_singleton.
    - split; [by intros (path & df & [=]%list_elem_of_singleton)|].
      by intros (_ & [] & _). }
  rewrite (bool_decide_eq_false_2 _ Hs).
  destruct (OddsFilterScript.sports_loop TARGET TOL _ [] []) as [out [records|e]]
    eqn:Hloop.
  2:{ intros [-> ->]. split; [intros Heq; contradiction|].
      split; [intros _ Heq; contradiction|]. split; [eauto|]. split.
      - intros path df Hin. by apply Hlines in Hin.
      - split; [by intros (path & df & Hin%Hlines)|]. by intros (_ & _ & [=] & _). }
  intros (df & Hsort & -> & ->).
  assert (OddsFilterScript.find_events_with_target_odds
            (Terms.requests_for SPORT_KEYS odds_reply) TARGET TOL out df) as Hrun
    by (exists records; done).
  assert (∀ path df',
            OddsFilterScriptMain.WriteCsv path df'
            ∈ map OddsFilterScriptMain.Print out
              ++ match df with
                 | [] => [OddsFilterScriptMain.Print OddsFilterScriptMain.no_event_message]
                 | _ :: _ =>
                     [OddsFilterScriptMain.PrintFrame df;
                      OddsFilterScriptMain.WriteCsv "filtered_odds.csv" df;
                      OddsFilterScriptMain.Print OddsFilterScriptMain.saved_message]
                 end →
            path = "filtered_odds.csv" ∧ df' = df ∧ df ≠ []) as Hwrite.
  { intros path df' [Hin|Hin]%elem_of_app; [by apply Hlines in Hin|].
    destruct df as [|r df]; [by apply list_elem_of_singleton in Hin|].
    repeat (apply elem_of_cons in Hin as [[=]|Hin]); subst; [done|].
    by apply elem_of_nil in Hin. }
  split; [intros Heq; contradiction|]. split; [intros _ Heq; contradiction|].
  split; [intros e; discriminate|]. split.
  - intros path df' Hin. pose proof (Hwrite _ _ Hin) as (-> & -> & Hne).
    split; [done|]. split; [done|]. exists out. split; [done|].
    by destruct df.
  - split.
    + intros (path & df' & (-> & -> & Hne)%Hwrite).
      split; [done|]. split; [done|]. split; [done|].
      destruct df as [|r df]; [done|].
      destruct (proj1 (per_bookmaker_run_rows _ _ _ _ _ Hrun r)) as (event & Hev & Hrow);
        [left|]. eauto.
    + intros (_ & _ & _ & event & r & Hev & Hrow).
      assert (r ∈ df) as Hr by (apply (per_bookmaker_run_rows _ _ _ _ _ Hrun); eauto).
      exists "filtered_odds.csv", df. destruct df as [|r0 df]; [by apply elem_of_nil in Hr|].
      apply elem_of_app. right. right. left.
Qed.

Lemma csv_holds_the_matching_rows_witness :
  ∃ actions,
    OddsFilterScriptMain.main "0123456789abcdef" ["soccer_epl"; "soccer_spain_la_liga"]
      Samples.target Samples.tol Cases.filter_reply actions OddsFilterScriptMain.Returned
    ∧ actions
      = [OddsFilterScriptMain.Print
           "Error fetching odds for soccer_spain_la_liga: Read timed out.";
         OddsFilterScriptMain.PrintFrame [Samples.row_near];
         OddsFilterScriptMain.WriteCsv "filtered_odds.csv" [Samples.row_near];
         OddsFilterScriptMain.Print OddsFilterScriptMain.saved_message]
    ∧ ∃ out,
        OddsFilterScript.find_events_with_target_odds
          (Terms.requests_for ["soccer_epl"; "soccer_spain_la_liga"] Cases.filter_reply)
          Samples.target Samples.tol out [Samples.row_near].
Proof.
  assert (OddsFilterScript.sports_loop Samples.target Samples.tol
            (map (fun sport_key => (sport_key, Cases.filter_reply sport_key))
                 ["soccer_epl"; "soccer_spain_la_liga"]) [] []
          = (["Error fetching odds for soccer_spain_la_liga: Read timed out."],
             Ok [Samples.row_near])) as Hloop by (vm_compute; reflexivity).
  assert (OddsFilterScriptMain.main "0123456789abcdef"
            ["soccer_epl"; "soccer_spain_la_liga"]
            Samples.target Samples.tol Cases.filter_reply
            [OddsFilterScriptMain.Print
               "Error fetching odds for soccer_spain_la_liga: Read timed out.";
             OddsFilterScriptMain.PrintFrame [Samples.row_near];
             OddsFilterScriptMain.WriteCsv "filtered_odds.csv" [Samples.row_near];
             OddsFilterScriptMain.Print OddsFilterScriptMain.saved_message]
            OddsFilterScriptMain.Returned) as Hmain.
  { unfold OddsFilterScriptMain.main.
    rewrite (bool_decide_eq_false_2 ("0123456789abcdef" = "")) by discriminate.
    rewrite (bool_decide_eq_false_2 (["soccer_epl"; "soccer_spain_la_liga"] = []))
      by discriminate.
    rewrite Hloop. exists [Samples.row_near].
    split; [|split; reflexivity]. split; [reflexivity|]. repeat constructor. }
  eexists. split; [exact Hmain|]. split; [reflexivity|].
  destruct (csv_holds_the_matching_rows _ _ _ _ _ _ _ Hmain) as (_ & _ & _ & Hwrite & _).
  destruct (Hwrite "filtered_odds.csv" [Samples.row_near]) as (_ & _ & out & Hrun & _).
  { right. right. left. }
  exists out. exact Hrun.
Defined.

(** ** Searching two lists of sport keys *)

(** A loop that only appends to its list can be run on an empty list, and
    what it appends be added afterwards. *)
Lemma for_each_prefix {E A B} (body : list B -> A -> result E (list B))
    (xs : list A) (rs : list B) :
  (∀ rs' x, body rs' x = bind (body [] x) (fun new => Ok (rs' ++ new))) →
  for_each body xs rs = bind (for_each body xs []) (fun new => Ok (rs ++ new)).
Proof.
  intros Hbody. revert rs. induction xs as [|x xs IH]; intros rs; simpl.
  { by rewrite app_nil_r. }
  rewrite (Hbody rs x). destruct (body [] x) as [n|e]; simpl; [|done].
  rewrite (IH (rs ++ n)), (IH n).
  destruct (for_each body xs []) as [m|e]; simpl; [|done].
  by rewrite app_assoc.
Qed.

Lemma aggregate_check_prefix target tol results event :
  OddsScript.check_event target tol results event
  = bind (OddsScript.check_event target tol [] event)
         (fun new => Ok (results ++ new)).
Proof.
  unfold OddsScript.check_event.
  destruct (OddsScript.extract_three_way_odds event) as [[odds|]|e]; simpl;
    [| by rewrite app_nil_r | done].
  destruct (OddsScript.all_near target tol odds); simpl; [|by rewrite app_nil_r].
  destruct (getitem odds "home"); simpl; [|done].
  destruct (getitem odds "draw"); simpl; [|done].
  by destruct (getitem odds "away").
Qed.

Lemma records_loop_prefix target tol recs records :
  fold_left (OddsFilterScript.check_record target tol) recs records
  = records ++ fold_left (OddsFilterScript.check_record target tol) recs [].
Proof.
  assert (∀ acc, fold_left (OddsFilterScript.check_record target tol) recs (records ++ acc)
                 = records ++ fold_left (OddsFilterScript.check_record target tol) recs acc)
    as Hacc.
  { induction recs as [|rec recs IH]; intros acc; [done|]. cbn [fold_left].
    unfold OddsFilterScript.check_record at 2 4.
    destruct (_ && _ && _); [|apply IH]. rewrite <- IH. by rewrite app_assoc. }
  specialize (Hacc []). by rewrite app_nil_r in Hacc.
Qed.

Lemma per_bookmaker_check_prefix target tol records event :
  OddsFilterScript.check_event target tol records event
  = bind (OddsFilterScript.check_event target tol [] event)
         (fun new => Ok (records ++ new)).
Proof.
  unfold OddsFilterScript.check_event.
  destruct (OddsFilterScript.extract_bookmaker_odds event) as [recs|e]; simpl; [|done].
  by rewrite records_loop_prefix.
Qed.

(** The loop over the sport keys, started on the records and the lines
    of an earlier search. *)
Lemma aggregate_loop_prefix target tol max requests results out :
  OddsScript.sports_loop target tol max requests results out
  = match OddsScript.sports_loop target tol max requests [] [] with
    | (out', Ok new) => (out ++ out', Ok (results ++ new))
    | (out', Raise e) => (out ++ out', Raise e)
    end.
Proof.
  revert results out. induction requests as [|[key reply] requests IH];
    intros results out; simpl.
  { by rewrite !app_nil_r. }
  destruct (OddsScript.fetch_odds reply) as [events|e].
  - rewrite (for_each_prefix _ _ results) by apply aggregate_check_prefix.
    destruct (for_each _ _ []) as [new|e]; simpl; [|by rewrite app_nil_r].
    rewrite (IH (results ++ new)), (IH new [])%list.
    destruct (OddsScript.sports_loop target tol max requests [] []) as [out' [more|e]];
      simpl; by rewrite <- ?app_assoc.
  - rewrite (IH results (out ++ _)), (IH [] [_]).
    destruct (OddsScript.sports_loop target tol max requests [] []) as [out' [more|e']];
      simpl; by rewrite <- ?app_assoc.
Qed.

Lemma per_bookmaker_loop_prefix target tol requests records out :
  OddsFilterScript.sports_loop target tol requests records out
  = match OddsFilterScript.sports_loop target tol requests [] [] with
    | (out', Ok new) => (out ++ out', Ok (records ++ new))
    | (out', Raise e) => (out ++ out', Raise e)
    end.
Proof.
  revert records out. induction requests as [|[key reply] requests IH];
    intros records out; simpl.
  { by rewrite !app_nil_r. }
  destruct (OddsFilterScript.fetch_odds reply) as [events|e].
  - rewrite (for_each_prefix _ _ records) by apply per_bookmaker_check_prefix.
    destruct (for_each _ _ []) as [new|e]; simpl; [|by rewrite app_nil_r].
    rewrite (IH (records ++ new)), (IH new [])%list.
    destruct (OddsFilterScript.sports_loop target tol requests [] []) as [out' [more|e]];
      simpl; by rewrite <- ?app_assoc.
  - rewrite (IH records (out ++ _)), (IH [] [_]).
    destruct (OddsFilterScript.sports_loop target tol requests [] []) as [out' [more|e']];
      simpl; by rewrite <- ?app_assoc.
Qed.

(** X19. Sports do not interact: when the searches of two lists of sport
    keys both return, the search of the two lists in a row returns as
    well, prints the lines of the first and then those of the second, and
    returns the records of the two put together, in the order the sort
    gives them. *)
Theorem searches_add_up :
  (∀ target tol max requests1 requests2 out1 out2 results1 results2,
     OddsScript.find_high_odds_events requests1 target tol max = (out1, Ok results1) →
     OddsScript.find_high_odds_events requests2 target tol max = (out2, Ok results2) →
     ∃ results,
       OddsScript.find_high_odds_events (requests1 ++ requests2) target tol max
       = (out1 ++ out2, Ok results)
       ∧ results ≡ₚ results1 ++ results2)
  ∧ (∀ target tol requests1 requests2 out1 out2 df1 df2,
       OddsFilterScript.find_events_with_target_odds requests1 target tol out1 df1 →
       OddsFilterScript.find_events_with_target_odds requests2 target tol out2 df2 →
       ∃ records,
         OddsFilterScript.sports_loop target tol (requests1 ++ requests2) [] []
         = (out1 ++ out2, Ok records)
         ∧ ∀ out df,
             OddsFilterScript.find_events_with_target_odds (requests1 ++ requests2)
               target tol out df →
             out = out1 ++ out2 ∧ df ≡ₚ df1 ++ df2).
Proof.
  split.
  - intros target tol max requests1 requests2 out1 out2 results1 results2.
    unfold OddsScript.find_high_odds_events.
    destruct (OddsScript.sports_loop target tol max requests1 [] [])
      as [o1 [passing1|e1]] eqn:Hloop1; [|done].
    destruct (OddsScript.sports_loop target tol max requests2 [] [])
      as [o2 [passing2|e2]] eqn:Hloop2; [|done].
    simpl. intros [= <- <-] [= <- <-].
    rewrite aggregate_loop_app, Hloop1, aggregate_loop_prefix, Hloop2. simpl.
    eexists. split; [done|]. by rewrite !sort_reverse_Permutation.
  - intros target tol requests1 requests2 out1 out2 df1 df2
      (records1 & Hloop1 & Hperm1 & _) (records2 & Hloop2 & Hperm2 & _).
    assert (OddsFilterScript.sports_loop target tol (requests1 ++ requests2) [] []
            = (out1 ++ out2, Ok (records1 ++ records2))) as Hloop.
    { by rewrite per_bookmaker_loop_app, Hloop1, per_bookmaker_loop_prefix, Hloop2. }
    exists (records1 ++ records2). split; [done|].
    intros out df (records & Hrun & Hperm & _). rewrite Hloop in Hrun.
    injection Hrun as <- <-. split; [done|]. by rewrite <- Hperm, Hperm1, Hperm2.
Qed.

Lemma searches_add_up_witness :
  ∃ results,
    OddsScript.find_high_odds_events (Samples.requests ++ Samples.tie_requests)
      Samples.target Samples.tol None
    = (["Skipping sport soccer_spain_la_liga due to error: Read timed out."], Ok results)
    ∧ length results = 3.
Proof.
  destruct (OddsScript.find_high_odds_events Samples.requests Samples.target
              Samples.tol None) as [out1 [results1|e]] eqn:Hrun1.
  2:{ vm_compute in Hrun1. discriminate Hrun1. }
  destruct (OddsScript.find_high_odds_events Samples.tie_requests Samples.target
              Samples.tol None) as [out2 [results2|e]] eqn:Hrun2.
  2:{ vm_compute in Hrun2. discriminate Hrun2. }
  destruct (proj1 searches_add_up _ _ _ _ _ _ _ _ _ Hrun1 Hrun2)
    as (results & Hrun & Hperm).
  exists results.
  assert (out1 = ["Skipping sport soccer_spain_la_liga due to error: Read timed out."]
          ∧ length results1 = 2) as [-> Hlen1].
  { vm_compute in Hrun1. injection Hrun1 as <- <-. split; reflexivity. }
  assert (out2 = [] ∧ length results2 = 1) as [-> Hlen2].
  { vm_compute in Hrun2. injection Hrun2 as <- <-. split; reflexivity. }
  split; [exact Hrun|].
  rewrite (Permutation_length Hperm), length_app, Hlen1, Hlen2. reflexivity.
Defined.

(** ** More bookmakers *)

(** The aggregate price of a key is one of the prices that count for the
    key. *)
Lemma aggregate_lookup_elem home_team away_team outcomes best key v :
  for_each (OddsScript.scan_outcome home_team away_team) outcomes ∅ = Ok best →
  best !! key = Some v →
  v ∈ Spec.prices (OddsScript.outcome_key home_team away_team) key outcomes.
Proof.
  intros Hloop Hv.
  rewrite (scan_outcomes_lookup _ _ _ _ _ key Hloop), lookup_empty in Hv.
  destruct (Spec.prices _ key outcomes) as [|p0 l]; [done|]. simpl in Hv.
  revert p0 Hv. induction l as [|q l IH]; intros p0; simpl.
  - intros [= <-]. left.
  - destruct (fgt q p0); intros Hq%IH.
    + by right.
    + inv Hq; [left|right; by right].
Qed.

(** X20. More bookmakers never lower the best odds: when an event is
    given further bookmakers, no price among all of them being NaN, and
    the aggregate extraction returned a dictionary before and returns
    now, it returns a dictionary again, and each of its three prices is
    not below the former one. *)
Theorem more_bookmakers_never_lower_the_best_odds :
  ∀ event bookmakers odds best,
    e_bookmakers event ⊆ bookmakers →
    forallb Terms.price_is_a_number
      (Spec.h2h_outcomes (Terms.with_bookmakers event bookmakers)) = true →
    OddsScript.extract_three_way_odds event = Ok (Some odds) →
    OddsScript.extract_three_way_odds (Terms.with_bookmakers event bookmakers) = Ok best →
    ∃ odds',
      best = Some odds'
      ∧ ∀ key v, odds !! key = Some v →
                 ∃ v', odds' !! key = Some v' ∧ fle v v' = true.
Proof.
  intros event bookmakers odds best Hsub Hnum Hx Hx'.
  destruct (extract_three_way_odds_keys _ _ Hx) as (h & d & a & Hh & Hd & Ha).
  rewrite extract_three_way_odds_loop in Hx.
  apply bind_Ok in Hx as (best0 & Hloop & Hx).
  case_bool_decide as Hsize; [|done]. injection Hx as ->.
  rewrite extract_three_way_odds_loop in Hx'.
  cbn [Terms.with_bookmakers e_home_team e_away_team] in Hx'.
  apply bind_Ok in Hx' as (odds' & Hloop' & Hx').
  assert (∀ o, o ∈ Spec.h2h_outcomes event →
               o ∈ Spec.h2h_outcomes (Terms.with_bookmakers event bookmakers)) as Hout.
  { intros o. rewrite !h2h_outcomes_flat, !list_elem_of_In, !in_flat_map.
    intros (b & Hb & Ho). exists b. split; [|done].
    apply list_elem_of_In, Hsub, list_elem_of_In, Hb. }
  assert (∀ key v, odds !! key = Some v →
                   ∃ v', odds' !! key = Some v' ∧ fle v v' = true) as Hle.
  { intros key v Hv.
    apply (aggregate_lookup_elem _ _ _ _ _ _ Hloop) in Hv.
    apply elem_of_prices in Hv as (o & Ho & Hc & Hp).
    apply (aggregate_lookup_dominates _ _ _ _ key o v Hloop' Hnum); [|done|done].
    by apply Hout. }
  exists odds'. split; [|done].
  rewrite bool_decide_eq_true_2 in Hx'; [by injection Hx' as <-|].
  apply size_three.
  - intros k (o & _ & Hc)%(scan_outcomes_dom _ _ _ _ Hloop').
    apply counts_valid in Hc as [Hc _]. by eapply aggregate_key_known.
  - intros k Hk. unfold Spec.keys in Hk.
    apply elem_of_cons in Hk as [->|Hk].
    { destruct (Hle _ _ Hh) as (v' & Hv' & _). eauto. }
    apply elem_of_cons in Hk as [->|Hk].
    { destruct (Hle _ _ Hd) as (v' & Hv' & _). eauto. }
    apply elem_of_cons in Hk as [->|Hk].
    { destruct (Hle _ _ Ha) as (v' & Hv' & _). eauto. }
    by apply elem_of_nil in Hk.
Qed.

Lemma more_bookmakers_never_lower_the_best_odds_witness :
  ∃ odds',
    OddsScript.extract_three_way_odds Samples.event_two_books = Ok (Some odds')
    ∧ ∃ v', odds' !! "home" = Some v' ∧ fle (Samples.real "2.5") v' = true.
Proof.
  assert (OddsScript.extract_three_way_odds Samples.event_near
          = Ok (Some Samples.odds_near)) as Hx by (vm_compute; reflexivity).
  destruct (OddsScript.extract_three_way_odds Samples.event_two_books)
    as [best|e] eqn:Hx'.
  2:{ vm_compute in Hx'. discriminate Hx'. }
  destruct (more_bookmakers_never_lower_the_best_odds Samples.event_near
              (e_bookmakers Samples.event_two_books) Samples.odds_near best)
    as (odds' & -> & Hle).
  - intros b Hb. apply list_elem_of_singleton in Hb as ->. left.
  - vm_compute. reflexivity.
  - exact Hx.
  - rewrite <- Hx'. vm_compute. reflexivity.
  - exists odds'. split; [reflexivity|]. apply Hle. vm_compute. reflexivity.
Defined.
